(** * MinIO CSV export: a shallow embedding of [superset/utils/minio_storage.py]

    The development models [MinIOStorageManager] (client bootstrap, the
    streaming splitter/uploader, the archive consolidator and the retention
    sweeper) as programs in a state-and-exception monad over the manager
    object and the object store, and proves the properties of the design
    document about them. *)

From Stdlib Require Import ZArith Lia Ascii.
From stdpp Require Import base option list sorting gmap strings pretty.

Local Open Scope Z_scope.

(** ** Python text primitives

    Python [str] values are modelled by [string]; a character is one byte of
    the UTF-8 encoding, so [.encode("utf-8")] is the identity. *)

Module Py.

(** [s.startswith(p)] *)
Fixpoint startswith (p s : string) : bool :=
  match p, s with
  | EmptyString, _ => true
  | String a p', String b s' => if Ascii.eqb a b then startswith p' s' else false
  | String _ _, EmptyString => false
  end.

(** [needle in hay] *)
Fixpoint contains (needle hay : string) : bool :=
  startswith needle hay ||
  match hay with
  | EmptyString => false
  | String _ hay' => contains needle hay'
  end.

(** [s.endswith(p)] *)
Definition endswith (p s : string) : bool :=
  startswith (String.rev p) (String.rev s).

(** [s.split(c)] for a one-character separator: always a non-empty list. *)
Fixpoint split (c : ascii) (s : string) : list string :=
  match s with
  | EmptyString => [EmptyString]
  | String a s' =>
      if Ascii.eqb a c then EmptyString :: split c s'
      else match split c s' with
           | x :: xs => String a x :: xs
           | [] => [String a EmptyString]
           end
  end.

(** [s.split(c, 1)]: cut at the first separator only. *)
Fixpoint split1 (c : ascii) (s : string) : list string :=
  match s with
  | EmptyString => [EmptyString]
  | String a s' =>
      if Ascii.eqb a c then [EmptyString; s']
      else match split1 c s' with
           | x :: xs => String a x :: xs
           | [] => [String a EmptyString]
           end
  end.

(** The characters [str.isspace] accepts among the one-byte (ASCII)
    characters; white space encoded on several bytes is not modelled. *)
Definition isspace (a : ascii) : bool :=
  match a with
  | "009" | "010" | "011" | "012" | "013"
  | "028" | "029" | "030" | "031" | " " => true
  | _ => false
  end%char.

Fixpoint lstrip (s : string) : string :=
  match s with
  | EmptyString => EmptyString
  | String a s' => if isspace a then lstrip s' else s
  end.

Fixpoint rstrip (s : string) : string :=
  match s with
  | EmptyString => EmptyString
  | String a s' =>
      match rstrip s' with
      | EmptyString => if isspace a then EmptyString else String a EmptyString
      | t => String a t
      end
  end.

(** [s.strip()] *)
Definition strip (s : string) : string := rstrip (lstrip s).

(** Truthiness of a [str]: non-empty. *)
Definition truthy (s : string) : bool :=
  match s with EmptyString => false | _ => true end.

(** [s.replace(old, new)] for a non-empty [old]: occurrences are replaced
    left to right without overlap.  [skip] counts the characters of the
    occurrence just replaced that still have to be passed over. *)
Fixpoint replace_go (old new : string) (skip : nat) (s : string) : string :=
  match s with
  | EmptyString => EmptyString
  | String a s' =>
      match skip with
      | S k => replace_go old new k s'
      | O =>
          if startswith old s
          then new +:+ replace_go old new (Nat.pred (String.length old)) s'
          else String a (replace_go old new 0 s')
      end
  end.

Definition replace (old new s : string) : string := replace_go old new 0 s.

(** [s.split("/")[-1]] *)
Definition basename (s : string) : string :=
  List.last (split "/" s) EmptyString.

(** The line terminator ["\n"]. *)
Definition LF : string := String "010" EmptyString.

(** Number of occurrences of a character. *)
Fixpoint count (c : ascii) (s : string) : nat :=
  match s with
  | EmptyString => O
  | String a s' => ((if Ascii.eqb a c then 1 else 0) + count c s')%nat
  end.

End Py.

(** [len(l)] *)
Definition len {A} (l : list A) : Z := Z.of_nat (length l).

(** ** The object store (the MinIO server behind the client adapter) *)

(** The payload of a stored object.  A ZIP archive is kept as the list of
    its entries in the order [writestr] added them; compression is not
    modelled. *)
#[local] Set Warnings "-register-all".

Inductive Body :=
| Raw (bytes : string)
| ZipArchive (entries : list (string * Body)).

Record StoredObject := {
  body : Body;
  content_type : string;
  last_modified : option Z;
}.

(** The client calls the manager issues, in order. *)
Inductive Call :=
| BucketExists (bucket : string)
| MakeBucket (bucket : string)
| PutObject (bucket name : string) (data : Body) (ctype : string)
| GetObject (bucket name : string)
| RemoveObject (bucket name : string)
| ListObjects (bucket pre : string).

(** [objects] is keyed by (bucket, object name).  [locked] holds the objects
    whose removal the store refuses; [clock] stamps uploads. *)
Record Server := {
  buckets : gset string;
  objects : gmap (string * string) StoredObject;
  locked : gset (string * string);
  clock : Z;
  calls : list Call;
}.

(** ** Host configuration and the manager object *)

Module Config.
(** [MINIO_EXPORT_CONFIG]: a dictionary whose keys may be absent. *)
Record t := {
  enabled : option bool;
  endpoint : option string;
  access_key : option string;
  secret_key : option string;
  bucket_name : option string;
  secure : option bool;
  region : option string;
  max_rows_per_file : option Z;
  file_retention_seconds : option Z;
}.

(** The empty dictionary [{}]. *)
Definition empty : t :=
  {| enabled := None; endpoint := None; access_key := None;
     secret_key := None; bucket_name := None; secure := None;
     region := None; max_rows_per_file := None;
     file_retention_seconds := None |}.
End Config.

(** The Flask application: whether the [minio] package can be imported, and
    [app.config.get("MINIO_EXPORT_CONFIG")]. *)
Record App := {
  minio_installed : bool;
  MINIO_EXPORT_CONFIG : option Config.t;
}.

(** The handle [Minio(endpoint, access_key=..., ...)]. *)
Record Minio := {
  m_endpoint : string;
  m_access_key : string;
  m_secret_key : string;
  m_secure : bool;
  m_region : option string;
}.

Record MinIOStorageManager := {
  _client : option Minio;
  _config : Config.t;
}.

(** [MinIOStorageManager.__init__] *)
Definition __init__ : MinIOStorageManager :=
  {| _client := None; _config := Config.empty |}.

(** ** The monad: state (manager and store) with exceptions *)

Inductive Exc :=
| ValueError (msg : string)
| ImportError (msg : string)
| IndexError (msg : string)
| TypeError (msg : string)
| OverflowError
| S3Error (code : string).

Inductive result (A : Type) :=
| Ok (a : A)
| Raise (e : Exc).
Arguments Ok {A} a.
Arguments Raise {A} e.

Record World := {
  self : MinIOStorageManager;
  store : Server;
}.

Definition M (A : Type) : Type := World → World * result A.

Definition ret {A} (a : A) : M A := λ w, (w, Ok a).

Definition bind {A B} (m : M A) (k : A → M B) : M B :=
  λ w, match m w with
       | (w', Ok a) => k a w'
       | (w', Raise e) => (w', Raise e)
       end.

Definition raise {A} (e : Exc) : M A := λ w, (w, Raise e).

Declare Scope py_scope.
Delimit Scope py_scope with py.
Notation "x <- m ;; k" := (bind m (λ x, k))
  (at level 100, m at next level, k at level 200, right associativity) : py_scope.
Notation "m ;;; k" := (bind m (λ _, k))
  (at level 100, k at level 200, right associativity) : py_scope.
Local Open Scope py_scope.

(** [for x in l: a = f(a, x)] *)
Fixpoint foldM {A B} (f : A → B → M A) (a : A) (l : list B) : M A :=
  match l with
  | [] => ret a
  | x :: l' => a' <- f a x ;; foldM f a' l'
  end.

Definition get_self : M MinIOStorageManager := λ w, (w, Ok (self w)).

Definition set_self (me : MinIOStorageManager) : M unit :=
  λ w, ({| self := me; store := store w |}, Ok tt).

Definition get_store : M Server := λ w, (w, Ok (store w)).

Definition set_store (s : Server) : M unit :=
  λ w, ({| self := self w; store := s |}, Ok tt).

(** *** Dates and durations

    A [datetime] counts whole seconds from 0001-01-01 00:00:00, the first
    second Python represents.  It is naive (no time zone: what
    [datetime.now()] returns) or aware (with a time zone: what the client
    reports as [last_modified], in UTC).  Microseconds are left out: with a
    duration of whole seconds they change no range check. *)
Inductive datetime :=
| Naive (seconds : Z)
| Aware (seconds : Z).

(** [a < b]: a naive and an aware datetime cannot be ordered. *)
Definition datetime_lt (a b : datetime) : M bool :=
  match a, b with
  | Naive x, Naive y => ret (x <? y)
  | Aware x, Aware y => ret (x <? y)
  | _, _ => raise (TypeError "can't compare offset-naive and offset-aware datetimes")
  end.

(** [timedelta(seconds=s)]: a duration holds at most 999999999 days, in
    either direction. *)
Definition timedelta (seconds : Z) : M Z :=
  if (-999999999 <=? seconds / 86400) && (seconds / 86400 <=? 999999999)
  then ret seconds
  else raise OverflowError.

(** 9999-12-31 23:59:59, the last second Python represents. *)
Definition datetime_max : Z := 315537897599.

(** [d - delta] for a datetime [d] and a duration [delta]. *)
Definition datetime_sub (d : datetime) (delta : Z) : M datetime :=
  let seconds := match d with Naive t | Aware t => t end - delta in
  if (0 <=? seconds) && (seconds <=? datetime_max)
  then ret (match d with Naive _ => Naive seconds | Aware _ => Aware seconds end)
  else raise OverflowError.

(** *** Client primitives

    The store answers every bucket call, every upload and every listing:
    the only refusals modelled are reading an object that is not stored and
    removing an object that is locked. *)

Definition record (c : Call) (s : Server) : Server :=
  {| buckets := buckets s; objects := objects s; locked := locked s;
     clock := clock s; calls := calls s ++ [c] |}.

Definition with_objects (o : gmap (string * string) StoredObject) (s : Server) : Server :=
  {| buckets := buckets s; objects := o; locked := locked s;
     clock := clock s; calls := calls s |}.

Definition with_buckets (b : gset string) (s : Server) : Server :=
  {| buckets := b; objects := objects s; locked := locked s;
     clock := clock s; calls := calls s |}.

Definition bucket_exists (b : string) : M bool :=
  s <- get_store ;;
  set_store (record (BucketExists b) s) ;;;
  ret (bool_decide (b ∈ buckets s)).

Definition make_bucket (b : string) : M unit :=
  s <- get_store ;;
  set_store (with_buckets ({[ b ]} ∪ buckets s) (record (MakeBucket b) s)).

Definition put_object (b name : string) (data : Body) (ctype : string) : M unit :=
  s <- get_store ;;
  let o := {| body := data; content_type := ctype; last_modified := Some (clock s) |} in
  set_store (with_objects (<[(b, name) := o]> (objects s)) (record (PutObject b name data ctype) s)).

Definition get_object (b name : string) : M Body :=
  s <- get_store ;;
  set_store (record (GetObject b name) s) ;;;
  match objects s !! (b, name) with
  | Some o => ret (body o)
  | None => raise (S3Error "NoSuchKey")
  end.

Definition remove_object (b name : string) : M unit :=
  s <- get_store ;;
  set_store (record (RemoveObject b name) s) ;;;
  if bool_decide ((b, name) ∈ locked s) then raise (S3Error "AccessDenied")
  else
    s' <- get_store ;;
    set_store (with_objects (delete (b, name) (objects s')) s').

(** The order in which the store lists object names: byte by byte. *)
Definition name_le (x y : string * StoredObject) : Prop :=
  Is_true (String.leb x.1 y.1).

(** The objects of bucket [b] whose name starts with [pre], in the order
    of their names. *)
Definition listing (b pre : string) (s : Server) : list (string * StoredObject) :=
  merge_sort name_le
    (omap (λ kv : string * string * StoredObject,
             if bool_decide (kv.1.1 = b) && Py.startswith pre kv.1.2
             then Some (kv.1.2, kv.2) else None)
          (map_to_list (objects s))).

(** What the client reports of a listed object: its name and its
    last-modified time, a timezone-aware datetime. *)
Definition reported (no : string * StoredObject) : string * option datetime :=
  (no.1, Aware <$> last_modified no.2).

Definition list_objects (b pre : string) : M (list (string * option datetime)) :=
  s <- get_store ;;
  set_store (record (ListObjects b pre) s) ;;;
  ret (map reported (listing b pre s)).

(** ** [MinIOStorageManager] *)

Section Manager.

(** [flask.current_app] *)
Variable app : App.

Definition _initialize_client : M Minio :=
  me <- get_self ;;
  match _client me with
  | Some c => ret c
  | None =>
      if negb (minio_installed app)
      then raise (ImportError
        "minio package is required for MinIO export. Install it with: pip install minio")
      else
        let cfg := default Config.empty (MINIO_EXPORT_CONFIG app) in
        set_self {| _client := _client me; _config := cfg |} ;;;
        if negb (default false (Config.enabled cfg))
        then raise (ValueError "MinIO export is not enabled in configuration")
        else
          let endpoint := default "localhost:9000" (Config.endpoint cfg) in
          let access_key := default "" (Config.access_key cfg) in
          let secret_key := default "" (Config.secret_key cfg) in
          let secure := default false (Config.secure cfg) in
          let region := Config.region cfg in
          if negb (Py.truthy access_key) || negb (Py.truthy secret_key)
          then raise (ValueError
            "MinIO access_key and secret_key must be configured in MINIO_EXPORT_CONFIG")
          else
            let c := {| m_endpoint := endpoint; m_access_key := access_key;
                        m_secret_key := secret_key; m_secure := secure;
                        m_region := region |} in
            set_self {| _client := Some c; _config := cfg |} ;;;
            let bucket_name := default "superset-exports" (Config.bucket_name cfg) in
            ex <- bucket_exists bucket_name ;;
            (if negb ex then make_bucket bucket_name else ret tt) ;;;
            ret c
  end.

Definition get_max_rows_per_file : M Z :=
  me <- get_self ;;
  ret (default 1000000 (Config.max_rows_per_file (_config me))).

(** [self._config.get("bucket_name", "superset-exports")] *)
Definition get_bucket_name : M string :=
  me <- get_self ;;
  ret (default "superset-exports" (Config.bucket_name (_config me))).

(** [now] is the reading of [datetime.now()]. *)
Definition cleanup_old_files (now : Z) : M Z :=
  client <- _initialize_client ;;
  bucket_name <- get_bucket_name ;;
  me <- get_self ;;
  let retention_seconds := default 604800 (Config.file_retention_seconds (_config me)) in
  let deleted_count := 0 in
  delta <- timedelta retention_seconds ;;
  cutoff_time <- datetime_sub (Naive now) delta ;;
  (* try: ... except Exception as ex: logger.error(...); raise *)
  objs <- list_objects bucket_name "exports/" ;;
  foldM (λ deleted_count obj,
           (* obj.last_modified and obj.last_modified < cutoff_time *)
           match obj.2 with
           | Some t =>
               older <- datetime_lt t cutoff_time ;;
               if older
               then remove_object bucket_name obj.1 ;;; ret (deleted_count + 1)
               else ret deleted_count
           | None => ret deleted_count
           end)
        deleted_count objs.

Definition _upload_file_streaming (file_buffer : Body) (object_name : string) : M unit :=
  client <- _initialize_client ;;
  bucket_name <- get_bucket_name ;;
  put_object bucket_name object_name file_buffer
    (if Py.endswith ".csv" object_name then "text/csv" else "application/zip").

Definition _create_zip_from_uploaded_files
    (object_names : list string) (zip_object_name : string) : M string :=
  client <- _initialize_client ;;
  bucket_name <- get_bucket_name ;;
  zip_file <- foldM (λ zip_file object_name,
                       file_data <- get_object bucket_name object_name ;;
                       let filename := Py.basename object_name in
                       remove_object bucket_name object_name ;;;
                       ret (zip_file ++ [(filename, file_data)]))
                    [] object_names ;;
  _upload_file_streaming (ZipArchive zip_file) zip_object_name ;;;
  ret zip_object_name.

(** The local variables of [stream_csv_to_minio] that the loop and
    [finalize_current_file] update. *)
Record Locals := {
  uploaded_files : list string;
  current_file_buffer : string;
  current_file_rows : Z;
  total_rows : Z;
  file_index : Z;
  header : option string;
}.

Definition write (data : string) (l : Locals) : Locals :=
  {| uploaded_files := uploaded_files l;
     current_file_buffer := current_file_buffer l +:+ data;
     current_file_rows := current_file_rows l;
     total_rows := total_rows l;
     file_index := file_index l;
     header := header l |}.

Section Stream.

Variables (filename timestamp : string) (max_rows_per_file : Z).

Definition finalize_current_file (l : Locals) : M Locals :=
  if 0 <? Z.of_nat (String.length (current_file_buffer l)) then
    let csv_filename :=
      if 0 <? len (uploaded_files l)
      then Py.replace ".csv" "" filename +:+ "_" +:+ pretty (file_index l) +:+ ".csv"
      else filename in
    let object_name := "exports/" +:+ timestamp +:+ "_" +:+ csv_filename in
    _upload_file_streaming (Raw (current_file_buffer l)) object_name ;;;
    ret {| uploaded_files := uploaded_files l ++ [object_name];
           current_file_buffer := "";
           current_file_rows := 0;
           total_rows := total_rows l;
           file_index := file_index l + 1;
           header := header l |}
  else ret l.

(** The body of [for line in lines]. *)
Definition process_line (l : Locals) (line : string) : M Locals :=
  if negb (Py.truthy (Py.strip line)) then ret l
  else
    match header l with
    | None =>
        ret (write (line +:+ Py.LF)
               {| uploaded_files := uploaded_files l;
                  current_file_buffer := current_file_buffer l;
                  current_file_rows := current_file_rows l;
                  total_rows := total_rows l;
                  file_index := file_index l;
                  header := Some line |})
    | Some h =>
        l1 <- (if current_file_rows l >=? max_rows_per_file
               then l' <- finalize_current_file l ;; ret (write (h +:+ Py.LF) l')
               else ret l) ;;
        let l2 := write (line +:+ Py.LF) l1 in
        ret {| uploaded_files := uploaded_files l2;
               current_file_buffer := current_file_buffer l2;
               current_file_rows := current_file_rows l2 + 1;
               total_rows := total_rows l2 + 1;
               file_index := file_index l2;
               header := header l2 |}
    end.

(** The body of [for chunk in csv_generator]. *)
Definition process_chunk (l : Locals) (chunk : string) : M Locals :=
  if Py.contains "__STREAM_ERROR__" chunk then
    match Py.split1 ":" chunk with
    | _ :: msg :: _ => raise (ValueError (Py.strip msg))
    | _ => raise (IndexError "list index out of range")
    end
  else foldM process_line l (Py.split "010" chunk).

Definition initial_locals : Locals :=
  {| uploaded_files := []; current_file_buffer := "";
     current_file_rows := 0; total_rows := 0; file_index := 1;
     header := None |}.

(** The loop over the generator followed by "Finalize last file". *)
Definition upload_segments (csv_generator : list string) : M Locals :=
  l <- foldM process_chunk initial_locals csv_generator ;;
  finalize_current_file l.

End Stream.

Definition stream_csv_to_minio (timestamp : string)
    (csv_generator : list string) (filename : string)
    (max_rows_per_file : option Z) : M (string * Z * Z) :=
  max_rows_per_file <- match max_rows_per_file with
                       | None => get_max_rows_per_file
                       | Some m => ret m
                       end ;;
  l <- upload_segments filename timestamp max_rows_per_file csv_generator ;;
  if len (uploaded_files l) =? 0 then raise (ValueError "No data to export")
  else
    object_name <-
      (if 1 <? len (uploaded_files l)
       then _create_zip_from_uploaded_files (uploaded_files l)
              ("exports/" +:+ timestamp +:+ "_" +:+ Py.replace ".csv" ".zip" filename)
       else match uploaded_files l with
            | n :: _ => ret n
            | [] => raise (IndexError "list index out of range")
            end) ;;
    ret (object_name, total_rows l, len (uploaded_files l)).

End Manager.

(** * Facts about the text primitives *)

#[local] Arguments String.append !_ _ / : simpl nomatch.

Module PyFacts.
Import Py.

Lemma app_nil_r (s : string) : s +:+ "" = s.
Proof. induction s as [|a s IH]; simpl; [done | by rewrite IH]. Qed.

Lemma app_assoc (s t u : string) : (s +:+ t) +:+ u = s +:+ t +:+ u.
Proof. induction s as [|a s IH]; simpl; [done | by rewrite IH]. Qed.

Lemma length_app (s t : string) :
  String.length (s +:+ t) = (String.length s + String.length t)%nat.
Proof. induction s as [|a s IH]; simpl; [done | by rewrite IH]. Qed.

Lemma app_inv_tail (s1 s2 t : string) : s1 +:+ t = s2 +:+ t → s1 = s2.
Proof.
  revert s2. induction s1 as [|a s1 IH]; intros [|b s2] H; simpl in H.
  - done.
  - apply (f_equal String.length) in H. simpl in H.
    rewrite length_app in H. lia.
  - apply (f_equal String.length) in H. simpl in H.
    rewrite length_app in H. lia.
  - injection H as -> H. f_equal. by apply IH.
Qed.

Lemma count_app c (s t : string) : count c (s +:+ t) = (count c s + count c t)%nat.
Proof. induction s as [|a s IH]; simpl; [done | rewrite IH; lia]. Qed.

Lemma startswith_app (p s : string) : startswith p (p +:+ s) = true.
Proof.
  induction p as [|a p IH]; simpl; [by destruct s|].
  by rewrite Ascii.eqb_refl.
Qed.

Lemma startswith_inv (p s : string) :
  startswith p s = true → ∃ t, s = p +:+ t.
Proof.
  revert s. induction p as [|a p IH]; intros s H.
  - by exists s.
  - destruct s as [|b s]; simpl in H; [done|].
    destruct (Ascii.eqb_spec a b) as [->|]; [|done].
    destruct (IH _ H) as [t ->]. by exists t.
Qed.

(** ** [split] *)

Lemma split_nonempty c s : split c s ≠ [].
Proof.
  induction s as [|a s IH]; simpl; [done|].
  destruct (Ascii.eqb a c); [done|]. by destruct (split c s).
Qed.

(** No piece of a split contains the separator. *)
Lemma split_no_sep c s : Forall (λ x, count c x = O) (split c s).
Proof.
  induction s as [|a s IH]; simpl.
  - by repeat constructor.
  - destruct (Ascii.eqb a c) eqn:E; [by constructor|].
    destruct (split c s) as [|x xs]; simpl.
    + repeat constructor. simpl. by rewrite E.
    + inversion IH; subst. constructor; [|done]. simpl. by rewrite E.
Qed.

Lemma split_line c (x rest : string) :
  count c x = O → split c (x +:+ String c rest) = x :: split c rest.
Proof.
  induction x as [|a x IH]; simpl; intros H.
  - by rewrite Ascii.eqb_refl.
  - destruct (Ascii.eqb a c) eqn:E; [done|]. by rewrite IH.
Qed.

(** ** [strip] *)

Definition nonblank (line : string) : bool := truthy (strip line).

Lemma nonblank_nonempty line : nonblank line = true → line ≠ "".
Proof. by intros H ->. Qed.

(** ** [replace] *)

(** Passing over the rest of an occurrence. *)
Lemma replace_go_skip old new (t s : string) :
  replace_go old new (String.length t) (t +:+ s) = replace_go old new 0 s.
Proof. induction t as [|a t IH]; simpl; [by destruct s | done]. Qed.

Lemma replace_nil old new : replace old new "" = "".
Proof. done. Qed.

Lemma replace_hit old new a (s : string) :
  replace (String a old) new (String a old +:+ s)
  = new +:+ replace (String a old) new s.
Proof.
  unfold replace. simpl. rewrite Ascii.eqb_refl, startswith_app.
  by rewrite replace_go_skip.
Qed.

Lemma replace_miss old new a (s : string) :
  startswith old (String a s) = false →
  replace old new (String a s) = String a (replace old new s).
Proof. unfold replace. simpl replace_go. by intros ->. Qed.

(** Deleting occurrences of [old] leaves the number of [c]s alone when
    [old] has none. *)
Lemma count_replace_delete c old (s : string) :
  old ≠ "" → count c old = O → count c (replace old "" s) = count c s.
Proof.
  intros Hne Hc.
  remember (String.length s) as n eqn:Hn.
  revert s Hn. induction (lt_wf n) as [n _ IH]. intros s ->.
  destruct s as [|a s]; [done|].
  destruct (startswith old (String a s)) eqn:E.
  - destruct (startswith_inv _ _ E) as [t Ht].
    destruct old as [|b old]; [done|].
    rewrite Ht, replace_hit. simpl String.append at 1.
    rewrite count_app, Hc.
    apply (IH (String.length t)); [|done].
    rewrite Ht, length_app. simpl. lia.
  - rewrite replace_miss by done. simpl. f_equal.
    apply (IH (String.length s)); [simpl; lia | done].
Qed.

(** A name [stem.csv] whose stem has no further [.csv] loses exactly its
    extension. *)
Lemma replace_csv_stem (stem : string) :
  contains ".csv" stem = false → replace ".csv" "" (stem +:+ ".csv") = stem.
Proof.
  induction stem as [|a stem IH]; [done|]. intros H.
  simpl contains in H. apply orb_false_elim in H as [H1 H2].
  change (String a stem +:+ ".csv") with (String a (stem +:+ ".csv")).
  rewrite replace_miss; [by rewrite IH|].
  clear IH H2.
  destruct stem as [|b [|c [|d rest]]]; simpl in *;
    repeat match goal with
           | |- context [Ascii.eqb ?x ?y] => destruct (Ascii.eqb x y) eqn:?
           end; try done.
Qed.

(** ** Decimal numerals *)

Lemma count_pretty_N_go c x (s : string) :
  Ascii.is_nat c = None → count c (pretty_N_go x s) = count c s.
Proof.
  intros Hc. revert s. induction (N.lt_wf_0 x) as [x _ IH]; intros s.
  destruct (decide (0 < x)%N) as [Hx|Hx].
  - rewrite pretty_N_go_step by done.
    rewrite IH by (by apply N.div_lt). simpl.
    assert (Ascii.eqb (pretty_N_char (x `mod` 10)) c = false) as ->; [|done].
    apply Ascii.eqb_neq. intros <-.
    unfold pretty_N_char in Hc. by repeat case_match.
  - assert (x = 0%N) as -> by lia. by rewrite pretty_N_go_0.
Qed.

Lemma count_pretty_pos c (z : Z) :
  Ascii.is_nat c = None → 0 < z → count c (pretty z) = O.
Proof.
  intros Hc Hz. destruct z as [|p|p]; try lia.
  change (pretty (Z.pos p)) with (pretty_N (N.pos p)). unfold pretty_N.
  rewrite decide_False by done. by rewrite count_pretty_N_go.
Qed.

End PyFacts.

(** * The effect of the client bootstrap and of one upload *)

Lemma bind_ok {A B} (m : M A) (k : A → M B) w w' a :
  m w = (w', Ok a) → bind m k w = k a w'.
Proof. unfold bind. intros H. by rewrite H. Qed.

Lemma bind_raise {A B} (m : M A) (k : A → M B) w w' e :
  m w = (w', Raise e) → bind m k w = (w', Raise e).
Proof. unfold bind. intros H. by rewrite H. Qed.

Lemma bind_assoc {A B C} (m : M A) (f : A → M B) (g : B → M C) w :
  bind (bind m f) g w = bind m (λ x, bind (f x) g) w.
Proof. unfold bind. by destruct (m w) as [w' [a|e]]. Qed.

Lemma bind_ext {A B} (m : M A) (k1 k2 : A → M B) w :
  (∀ a w', k1 a w' = k2 a w') → bind m k1 w = bind m k2 w.
Proof. intros H. unfold bind. destruct (m w) as [w' [a|e]]; [apply H | done]. Qed.

Lemma bind_cong_l {A B} (m1 m2 : M A) (k : A → M B) w :
  m1 w = m2 w → bind m1 k w = bind m2 k w.
Proof. unfold bind. by intros ->. Qed.

Lemma foldM_app {A B} (f : A → B → M A) (a : A) (l1 l2 : list B) w :
  foldM f a (l1 ++ l2) w = bind (foldM f a l1) (λ a', foldM f a' l2) w.
Proof.
  revert a w. induction l1 as [|x l1 IH]; intros a w; simpl; [reflexivity|].
  unfold bind. destruct (f a x w) as [w' [a'|e]]; [|reflexivity].
  rewrite IH. reflexivity.
Qed.

(** The pure effect of [put_object] on the store. *)
Definition put_srv (b name : string) (data : Body) (s : Server) : Server :=
  let ctype := if Py.endswith ".csv" name then "text/csv" else "application/zip" in
  with_objects
    (<[(b, name) := {| body := data; content_type := ctype;
                       last_modified := Some (clock s) |}]> (objects s))
    (record (PutObject b name data ctype) s).

(** The pure effect of a successful [get_object] followed by a successful
    [remove_object]. *)
Definition take_srv (b name : string) (s : Server) : Server :=
  with_objects (delete (b, name) (objects s))
    (record (RemoveObject b name) (record (GetObject b name) s)).

(** The pure effect of a successful [remove_object]. *)
Definition remove_srv (b name : string) (s : Server) : Server :=
  with_objects (delete (b, name) (objects s)) (record (RemoveObject b name) s).

Definition bucket_of (me : MinIOStorageManager) : string :=
  default "superset-exports" (Config.bucket_name (_config me)).

Section Bootstrap.

Variable app : App.

Let cfg : Config.t := default Config.empty (MINIO_EXPORT_CONFIG app).

(** The configuration lets a client be built. *)
Definition configured : bool :=
  minio_installed app && default false (Config.enabled cfg)
  && Py.truthy (default "" (Config.access_key cfg))
  && Py.truthy (default "" (Config.secret_key cfg)).

(** The manager already holds a client, or can build one. *)
Definition ready (w : World) : bool :=
  match _client (self w) with
  | Some _ => true
  | None => configured
  end.

Definition new_client : Minio :=
  {| m_endpoint := default "localhost:9000" (Config.endpoint cfg);
     m_access_key := default "" (Config.access_key cfg);
     m_secret_key := default "" (Config.secret_key cfg);
     m_secure := default false (Config.secure cfg);
     m_region := Config.region cfg |}.

(** The world after a successful [_initialize_client]. *)
Definition booted (w : World) : World :=
  match _client (self w) with
  | Some _ => w
  | None =>
      let b := default "superset-exports" (Config.bucket_name cfg) in
      {| self := {| _client := Some new_client; _config := cfg |};
         store :=
           if bool_decide (b ∈ buckets (store w))
           then record (BucketExists b) (store w)
           else with_buckets ({[ b ]} ∪ buckets (store w))
                  (record (MakeBucket b) (record (BucketExists b) (store w))) |}
  end.

(** The world after a successful [_upload_file_streaming]. *)
Definition uploaded (name : string) (data : Body) (w : World) : World :=
  let w1 := booted w in
  {| self := self w1;
     store := put_srv (bucket_of (self w1)) name data (store w1) |}.

Lemma initialize_ok w :
  ready w = true →
  ∃ c, _initialize_client app w = (booted w, Ok c)
       ∧ _client (self (booted w)) = Some c.
Proof.
  unfold ready, booted, _initialize_client, configured.
  unfold bind at 1. simpl. destruct w as [[[c|] cf] s]; simpl.
  - intros _. by exists c.
  - fold cfg. intros H.
    apply andb_prop in H as [H H4]. apply andb_prop in H as [H H3].
    apply andb_prop in H as [H1 H2].
    rewrite H1. simpl. unfold bind at 1. simpl. rewrite H2. simpl.
    rewrite H3, H4. simpl. exists new_client.
    unfold bind, ret, bucket_exists, make_bucket, bind, get_store, set_store, ret.
    simpl. by destruct (bool_decide _).
Qed.

Lemma initialize_fail w :
  ready w = false →
  ∃ w' e, _initialize_client app w = (w', Raise e) ∧ store w' = store w.
Proof.
  unfold ready, _initialize_client, configured.
  unfold bind at 1. simpl. destruct w as [[[c|] cf] s]; simpl; [done|].
  fold cfg. intros H.
  destruct (minio_installed app); simpl in *; [|by eauto].
  unfold bind at 1. simpl.
  destruct (default false (Config.enabled cfg)); simpl in *; [|by eauto].
  destruct (Py.truthy (default "" (Config.access_key cfg))); simpl in *; [|by eauto].
  rewrite H. simpl. by eauto.
Qed.

Lemma booted_client w : ready w = true → is_Some (_client (self (booted w))).
Proof. intros H. destruct (initialize_ok w H) as (c & _ & ->). by eexists. Qed.

Lemma booted_id w : is_Some (_client (self w)) → booted w = w.
Proof. unfold booted. by intros [c ->]. Qed.

Lemma upload_ok data name w :
  ready w = true →
  _upload_file_streaming app data name w = (uploaded name data w, Ok tt).
Proof.
  intros H. destruct (initialize_ok w H) as (c & Hi & _).
  unfold _upload_file_streaming. rewrite (bind_ok _ _ _ _ _ Hi).
  reflexivity.
Qed.

Lemma upload_fail data name w :
  ready w = false →
  ∃ w' e, _upload_file_streaming app data name w = (w', Raise e)
          ∧ store w' = store w.
Proof.
  intros H. destruct (initialize_fail w H) as (w' & e & Hi & Hs).
  exists w', e. split; [|done].
  unfold _upload_file_streaming. by rewrite (bind_raise _ _ _ _ _ Hi).
Qed.

Lemma uploaded_client name data w :
  ready w = true → is_Some (_client (self (uploaded name data w))).
Proof. intros H. by apply booted_client. Qed.

Lemma ready_client w : is_Some (_client (self w)) → ready w = true.
Proof. unfold ready. by intros [c ->]. Qed.

End Bootstrap.

(** * The splitter as a pure function on rows *)

(** The text of a file holding the given lines, each followed by a line
    terminator. *)
Fixpoint csv_text (lines : list string) : string :=
  match lines with
  | [] => ""
  | x :: xs => x +:+ Py.LF +:+ csv_text xs
  end.

(** The segments the loop cuts [rows] into when the segment being filled
    already holds [cur]: the last element is the segment still open when
    the source is exhausted. *)
Fixpoint split_rows (m : Z) (cur rows : list string) : list (list string) :=
  match rows with
  | [] => [cur]
  | r :: rs =>
      if len cur >=? m then cur :: split_rows m [r] rs
      else split_rows m (cur ++ [r]) rs
  end.

(** The object name of the segment uploaded when [i] segments have been
    uploaded before it. *)
Definition segment_name (filename timestamp : string) (i : nat) : string :=
  "exports/" +:+ timestamp +:+ "_" +:+
  (if 0 <? Z.of_nat i
   then Py.replace ".csv" "" filename +:+ "_" +:+ pretty (Z.of_nat i + 1) +:+ ".csv"
   else filename).

Definition segment_names (filename timestamp : string) (i k : nat) : list string :=
  map (segment_name filename timestamp) (seq i k).

(** The non-blank lines of the chunk sequence, as the loop reads them. *)
Definition csv_lines (chunks : list string) : list string :=
  filter (λ line, Is_true (PyFacts.nonblank line))
         (flat_map (Py.split "010") chunks).

(** The data rows of the chunk sequence: every non-blank line but the
    first, which is the header. *)
Definition data_rows (chunks : list string) : list string := tail (csv_lines chunks).

(** No chunk carries the error marker. *)
Definition marker_free (chunks : list string) : bool :=
  forallb (λ c, negb (Py.contains "__STREAM_ERROR__" c)) chunks.

Lemma csv_text_snoc (l : list string) (r : string) :
  csv_text (l ++ [r]) = csv_text l +:+ r +:+ Py.LF.
Proof.
  induction l as [|x l IH]; simpl.
  - reflexivity.
  - by rewrite IH, !PyFacts.app_assoc.
Qed.

Lemma csv_text_length h (l : list string) :
  (0 <? Z.of_nat (String.length (csv_text (h :: l)))) = true.
Proof.
  apply Z.ltb_lt. simpl csv_text. rewrite !PyFacts.length_app. simpl. lia.
Qed.

Section Refinement.

Variable app : App.
Variables (filename timestamp : string) (m : Z).

Local Abbreviation finalize := (finalize_current_file app filename timestamp).
Local Abbreviation step := (process_line app filename timestamp m).
Local Abbreviation name := (segment_name filename timestamp).

(** Uploading a list of named payloads, in order. *)
Definition upload_all (nbs : list (string * Body)) : M unit :=
  foldM (λ _ nb, _upload_file_streaming app nb.2 nb.1) tt nbs.

Definition segment_files (h : string) (i : nat) (segs : list (list string))
  : list (string * Body) :=
  zip (segment_names filename timestamp i (length segs))
      (map (λ seg, Raw (csv_text (h :: seg))) segs).

(** The locals once every segment of [segs] has been uploaded. *)
Definition finished (h : string) (l : Locals) (rows : list string)
    (segs : list (list string)) : Locals :=
  {| uploaded_files :=
       uploaded_files l
       ++ segment_names filename timestamp (length (uploaded_files l)) (length segs);
     current_file_buffer := "";
     current_file_rows := 0;
     total_rows := total_rows l + len rows;
     file_index := file_index l + len segs;
     header := Some h |}.

Lemma finalize_open h cur l w :
  current_file_buffer l = csv_text (h :: cur) →
  file_index l = len (uploaded_files l) + 1 →
  finalize l w =
  bind (_upload_file_streaming app (Raw (csv_text (h :: cur)))
          (name (length (uploaded_files l))))
       (λ _, ret {| uploaded_files :=
                      uploaded_files l ++ [name (length (uploaded_files l))];
                    current_file_buffer := "";
                    current_file_rows := 0;
                    total_rows := total_rows l;
                    file_index := file_index l + 1;
                    header := header l |}) w.
Proof.
  intros Hb Hi. unfold finalize_current_file.
  rewrite Hb, csv_text_length. unfold segment_name, len in *. by rewrite Hi.
Qed.

Lemma rows_loop h rows : ∀ cur l w,
  Forall (λ r, PyFacts.nonblank r = true) rows →
  header l = Some h →
  current_file_buffer l = csv_text (h :: cur) →
  current_file_rows l = len cur →
  file_index l = len (uploaded_files l) + 1 →
  bind (foldM step l rows) finalize w
  = bind (upload_all (segment_files h (length (uploaded_files l))
                        (split_rows m cur rows)))
         (λ _, ret (finished h l rows (split_rows m cur rows))) w.
Proof.
  induction rows as [|r rs IH]; intros cur l w Hnb Hh Hb Hr Hi.
  - simpl foldM. simpl split_rows.
    replace (bind (ret l) finalize w) with (finalize l w) by reflexivity.
    rewrite (finalize_open h cur) by done.
    unfold upload_all, segment_files, segment_names. simpl.
    unfold bind.
    destruct (_upload_file_streaming _ _ _ w) as [w' [[]|e]]; [|done].
    unfold ret, finished. simpl. do 2 f_equal.
    destruct l; simpl in *. subst. f_equal; unfold len; simpl; lia.
  - inversion Hnb as [|? ? Hr1 Hrs]; subst.
    simpl foldM. simpl split_rows. rewrite <- Hr.
    unfold process_line at 1. unfold PyFacts.nonblank in Hr1.
    rewrite Hr1, Hh. simpl negb. cbv iota.
    destruct (current_file_rows l >=? m) eqn:E.
    + (* the open segment is full: upload it and start the next one *)
      rewrite !bind_assoc.
      rewrite (bind_cong_l _ _ _ _ (finalize_open h cur l w Hb Hi)).
      unfold upload_all, segment_files, segment_names.
      cbn [length seq map zip zip_with foldM fst snd].
      rewrite !bind_assoc. apply bind_ext. intros [] w1.
      set (l2 := {| uploaded_files := uploaded_files l ++ [name (length (uploaded_files l))];
                    current_file_buffer := (h +:+ Py.LF) +:+ r +:+ Py.LF;
                    current_file_rows := 1;
                    total_rows := total_rows l + 1;
                    file_index := file_index l + 1;
                    header := header l |}).
      transitivity (bind (foldM step l2 rs) finalize w1); [reflexivity|].
      rewrite (IH [r] l2 w1); [|done|done| |done|].
      * assert (length (uploaded_files l2) = S (length (uploaded_files l))) as Hl
          by (simpl; rewrite length_app; simpl; lia).
        rewrite Hl. unfold segment_files, segment_names, upload_all.
        apply bind_ext. intros _ w2. f_equal.
        unfold finished, segment_names. rewrite Hl. simpl.
        rewrite <- app_assoc. simpl. f_equal; unfold len; simpl; lia.
      * simpl. by rewrite PyFacts.app_assoc.
      * simpl. unfold len in *. rewrite length_app. simpl. lia.
    + set (l2 := {| uploaded_files := uploaded_files l;
                    current_file_buffer := current_file_buffer l +:+ r +:+ Py.LF;
                    current_file_rows := current_file_rows l + 1;
                    total_rows := total_rows l + 1;
                    file_index := file_index l;
                    header := header l |}).
      transitivity (bind (foldM step l2 rs) finalize w); [reflexivity|].
      rewrite (IH (cur ++ [r]) l2 w); [|done|done| | |done].
      * apply bind_ext. intros _ w2. f_equal.
        unfold finished. simpl. f_equal; unfold len; simpl; lia.
      * simpl current_file_buffer. rewrite Hb.
        symmetry. apply (csv_text_snoc (h :: cur) r).
      * simpl current_file_rows. unfold len in *. rewrite length_app. simpl. lia.
Qed.

End Refinement.

(** * From chunks to rows, and from the loop to a list of uploads *)

Section Loop.

Variable app : App.
Variables (filename timestamp : string) (m : Z).

Local Abbreviation finalize := (finalize_current_file app filename timestamp).
Local Abbreviation step := (process_line app filename timestamp m).
Local Abbreviation chunk_step := (process_chunk app filename timestamp m).

Lemma csv_lines_nonblank chunks :
  Forall (λ r, PyFacts.nonblank r = true) (csv_lines chunks).
Proof.
  unfold csv_lines. apply Forall_forall. intros x Hx.
  apply list_elem_of_filter in Hx as [Hx _]. by apply Is_true_true.
Qed.

(** Blank lines are skipped. *)
Lemma skip_blank lines : ∀ l w,
  foldM step l lines w
  = foldM step l (filter (λ line, Is_true (PyFacts.nonblank line)) lines) w.
Proof.
  induction lines as [|x lines IH]; intros l w; [done|].
  rewrite filter_cons. destruct (decide (Is_true (PyFacts.nonblank x))) as [Hx|Hx].
  - simpl. apply bind_ext. intros l' w'. apply IH.
  - simpl. unfold process_line at 1. unfold PyFacts.nonblank in Hx.
    destruct (Py.truthy (Py.strip x)); [by destruct Hx|]. simpl. apply IH.
Qed.

(** Without an error marker, the loop over the chunks is the loop over
    their lines. *)
Lemma chunks_loop chunks : ∀ l w,
  marker_free chunks = true →
  foldM chunk_step l chunks w = foldM step l (csv_lines chunks) w.
Proof.
  unfold csv_lines.
  induction chunks as [|c chunks IH]; intros l w H; [done|].
  simpl in H. apply andb_prop in H as [Hc H].
  simpl flat_map. rewrite filter_app, foldM_app. simpl foldM.
  unfold process_chunk at 1. apply negb_true_iff in Hc. rewrite Hc.
  rewrite (bind_cong_l _ _ _ _ (skip_blank _ _ _)).
  apply bind_ext. intros l' w'. by apply IH.
Qed.

(** A chunk with the marker ends the loop with an exception; the locals
    and the world are those reached on the chunks before it. *)
Lemma chunks_loop_marker pre c post l w :
  Py.contains "__STREAM_ERROR__" c = true →
  foldM chunk_step l (pre ++ c :: post) w
  = bind (foldM chunk_step l pre)
         (λ _, match Py.split1 ":" c with
               | _ :: msg :: _ => raise (ValueError (Py.strip msg))
               | _ => raise (IndexError "list index out of range")
               end) w.
Proof.
  intros Hc. rewrite foldM_app. apply bind_ext. intros l' w'.
  simpl. unfold process_chunk at 1. rewrite Hc.
  unfold bind. by destruct (Py.split1 ":" c) as [|? [|? ?]].
Qed.

(** The locals once the header line has been read. *)
Definition with_header (h : string) : Locals :=
  {| uploaded_files := []; current_file_buffer := h +:+ Py.LF;
     current_file_rows := 0; total_rows := 0; file_index := 1;
     header := Some h |}.

Lemma header_step h rows w :
  PyFacts.nonblank h = true →
  foldM step initial_locals (h :: rows) w = foldM step (with_header h) rows w.
Proof.
  intros Hh. simpl. unfold process_line at 1. unfold PyFacts.nonblank in Hh.
  by rewrite Hh.
Qed.

(** The upload phase on a sequence without lines does nothing. *)
Lemma upload_segments_empty chunks w :
  marker_free chunks = true → csv_lines chunks = [] →
  upload_segments app filename timestamp m chunks w = (w, Ok initial_locals).
Proof.
  intros Hm He. unfold upload_segments.
  rewrite (bind_cong_l _ _ _ _ (chunks_loop _ _ _ Hm)), He. reflexivity.
Qed.

(** The upload phase on header [h] and rows [rows] uploads the segments of
    [split_rows] in order. *)
Lemma upload_segments_rows chunks h rows w :
  marker_free chunks = true → csv_lines chunks = h :: rows →
  upload_segments app filename timestamp m chunks w
  = bind (upload_all app
            (segment_files filename timestamp h 0 (split_rows m [] rows)))
         (λ _, ret (finished filename timestamp h (with_header h) rows
                             (split_rows m [] rows))) w.
Proof.
  intros Hm He. unfold upload_segments.
  rewrite (bind_cong_l _ _ _ _ (chunks_loop _ _ _ Hm)).
  pose proof (csv_lines_nonblank chunks) as Hnb. rewrite He in *.
  inversion Hnb as [|? ? Hh Hrows]; subst.
  rewrite (bind_cong_l _ _ _ _ (header_step _ _ _ Hh)).
  by rewrite (rows_loop app filename timestamp m h rows [] (with_header h)).
Qed.

End Loop.

(** * The client primitives, case by case *)

Lemma get_object_ok b n w o :
  objects (store w) !! (b, n) = Some o →
  get_object b n w
  = ({| self := self w; store := record (GetObject b n) (store w) |}, Ok (body o)).
Proof.
  intros Ho. unfold get_object, bind, get_store, set_store, ret. cbn.
  by rewrite Ho.
Qed.

Lemma get_object_missing b n w :
  objects (store w) !! (b, n) = None →
  get_object b n w
  = ({| self := self w; store := record (GetObject b n) (store w) |},
     Raise (S3Error "NoSuchKey")).
Proof.
  intros Ho. unfold get_object, bind, get_store, set_store, ret. cbn.
  by rewrite Ho.
Qed.

Lemma remove_object_ok b n w :
  (b, n) ∉ locked (store w) →
  remove_object b n w
  = ({| self := self w; store := remove_srv b n (store w) |}, Ok tt).
Proof.
  intros Hl. unfold remove_object, bind, get_store, set_store, ret. cbn.
  by rewrite bool_decide_eq_false_2.
Qed.

Lemma remove_object_locked b n w :
  (b, n) ∈ locked (store w) →
  remove_object b n w
  = ({| self := self w; store := record (RemoveObject b n) (store w) |},
     Raise (S3Error "AccessDenied")).
Proof.
  intros Hl. unfold remove_object, bind, get_store, set_store, ret. cbn.
  by rewrite bool_decide_eq_true_2.
Qed.

(** * The store after a series of uploads, and after consolidation *)

Definition new_object (name : string) (data : Body) (s : Server) : StoredObject :=
  {| body := data;
     content_type := if Py.endswith ".csv" name then "text/csv" else "application/zip";
     last_modified := Some (clock s) |}.

Definition put_call (b : string) (nb : string * Body) : Call :=
  PutObject b nb.1 nb.2
    (if Py.endswith ".csv" nb.1 then "text/csv" else "application/zip").

Definition stored_all (b : string) (nbs : list (string * Body)) (s : Server) : Server :=
  foldl (λ s nb, put_srv b nb.1 nb.2 s) s nbs.

Definition taken_all (b : string) (names : list string) (s : Server) : Server :=
  foldl (λ s n, take_srv b n s) s names.

Lemma stored_all_frame b nbs : ∀ s,
  buckets (stored_all b nbs s) = buckets s
  ∧ locked (stored_all b nbs s) = locked s
  ∧ clock (stored_all b nbs s) = clock s
  ∧ calls (stored_all b nbs s) = calls s ++ map (put_call b) nbs.
Proof.
  induction nbs as [|nb nbs IH]; intros s; simpl.
  - by rewrite app_nil_r.
  - destruct (IH (put_srv b nb.1 nb.2 s)) as (-> & -> & -> & ->).
    simpl. by rewrite <- app_assoc.
Qed.

Lemma stored_all_lookup_other b nbs k : ∀ s,
  (∀ n, k = (b, n) → n ∉ map fst nbs) →
  objects (stored_all b nbs s) !! k = objects s !! k.
Proof.
  induction nbs as [|nb nbs IH]; intros s H; simpl; [done|].
  rewrite IH.
  - simpl. apply lookup_insert_ne. intros <-.
    apply (H nb.1); [done|]. simpl. by left.
  - intros n -> Hn. apply (H n); [done|]. simpl. by right.
Qed.

Lemma stored_all_lookup b nbs : ∀ s n d,
  NoDup (map fst nbs) → (n, d) ∈ nbs →
  objects (stored_all b nbs s) !! (b, n) = Some (new_object n d s).
Proof.
  induction nbs as [|nb nbs IH]; intros s n d Hnd Hin; simpl.
  - by apply elem_of_nil in Hin.
  - simpl in Hnd. apply NoDup_cons in Hnd as [Hnb Hnd].
    apply elem_of_cons in Hin as [<-|Hin].
    + rewrite stored_all_lookup_other.
      * simpl. by rewrite lookup_insert_eq.
      * intros n' [= <-]. done.
    + by rewrite (IH _ n d).
Qed.

Lemma taken_all_frame b names : ∀ s,
  buckets (taken_all b names s) = buckets s
  ∧ locked (taken_all b names s) = locked s
  ∧ clock (taken_all b names s) = clock s
  ∧ calls (taken_all b names s)
    = calls s ++ flat_map (λ n, [GetObject b n; RemoveObject b n]) names.
Proof.
  induction names as [|n names IH]; intros s; simpl.
  - by rewrite app_nil_r.
  - destruct (IH (take_srv b n s)) as (-> & -> & -> & ->).
    simpl. by rewrite <- !app_assoc.
Qed.

Lemma taken_all_lookup b names k : ∀ s,
  objects (taken_all b names s) !! k
  = if bool_decide (k.1 = b ∧ k.2 ∈ names) then None else objects s !! k.
Proof.
  induction names as [|n names IH]; intros s; simpl.
  - rewrite bool_decide_eq_false_2; [done|].
    intros [_ Hn]. by apply elem_of_nil in Hn.
  - rewrite IH. simpl.
    destruct (bool_decide (k.1 = b ∧ k.2 ∈ names)) eqn:E.
    + apply bool_decide_eq_true in E as [Hb Hn0].
      rewrite bool_decide_eq_true_2; [done|].
      split; [done|]. by right.
    + apply bool_decide_eq_false in E.
      destruct (decide (k = (b, n))) as [->|Hk].
      * rewrite lookup_delete_eq. rewrite bool_decide_eq_true_2; [done|].
        split; [done|]. by left.
      * rewrite lookup_delete_ne by done.
        rewrite bool_decide_eq_false_2; [done|].
        intros [Hb Hn0]. apply elem_of_cons in Hn0 as [Hn0|Hn0].
        -- apply Hk. destruct k; simpl in *; by subst.
        -- by apply E.
Qed.

Section StoreEffects.

Variable app : App.

Lemma upload_all_client nbs : ∀ w,
  is_Some (_client (self w)) →
  upload_all app nbs w
  = ({| self := self w;
        store := stored_all (bucket_of (self w)) nbs (store w) |}, Ok tt).
Proof.
  induction nbs as [|nb nbs IH]; intros w Hc.
  - by destruct w.
  - unfold upload_all. simpl foldM.
    rewrite (bind_ok _ _ _ _ _ (upload_ok app nb.2 nb.1 w (ready_client app w Hc))).
    unfold uploaded. rewrite (booted_id app w Hc).
    fold (upload_all app nbs). rewrite IH by done. reflexivity.
Qed.

Lemma upload_all_ready nb nbs w :
  ready app w = true →
  upload_all app (nb :: nbs) w
  = ({| self := self (booted app w);
        store := stored_all (bucket_of (self (booted app w))) (nb :: nbs)
                   (store (booted app w)) |}, Ok tt).
Proof.
  intros Hr. unfold upload_all. simpl foldM.
  rewrite (bind_ok _ _ _ _ _ (upload_ok app nb.2 nb.1 w Hr)).
  fold (upload_all app nbs).
  rewrite upload_all_client by (by apply uploaded_client).
  reflexivity.
Qed.

Lemma upload_all_unready nb nbs w :
  ready app w = false →
  ∃ w' e, upload_all app (nb :: nbs) w = (w', Raise e) ∧ store w' = store w.
Proof.
  intros Hr. destruct (upload_fail app nb.2 nb.1 w Hr) as (w' & e & Hu & Hs).
  exists w', e. split; [|done].
  unfold upload_all. simpl foldM. by rewrite (bind_raise _ _ _ _ _ Hu).
Qed.

(** One round of the consolidation loop. *)
Definition zip_step (b : string) (zip_file : list (string * Body))
    (object_name : string) : M (list (string * Body)) :=
  file_data <- get_object b object_name ;;
  let filename := Py.basename object_name in
  (remove_object b object_name ;;;
   ret (zip_file ++ [(filename, file_data)])).

Lemma zip_step_ok b es n w o :
  objects (store w) !! (b, n) = Some o → (b, n) ∉ locked (store w) →
  zip_step b es n w
  = ({| self := self w; store := take_srv b n (store w) |},
     Ok (es ++ [(Py.basename n, body o)])).
Proof.
  intros Ho Hl. unfold zip_step.
  rewrite (bind_ok _ _ _ _ _ (get_object_ok b n w o Ho)). cbv beta zeta.
  rewrite (bind_ok _ _ _ _ _ (remove_object_ok b n
             {| self := self w; store := record (GetObject b n) (store w) |} Hl)).
  reflexivity.
Qed.

Lemma zip_step_inv b es n w w' r :
  zip_step b es n w = (w', Ok r) →
  ((b, n) ∉ locked (store w)) ∧ locked (store w') = locked (store w).
Proof.
  unfold zip_step.
  destruct (objects (store w) !! (b, n)) as [o|] eqn:Ho.
  - rewrite (bind_ok _ _ _ _ _ (get_object_ok b n w o Ho)). cbv beta zeta.
    destruct (decide ((b, n) ∈ locked (store w))) as [Hl|Hl].
    + by rewrite (bind_raise _ _ _ _ _ (remove_object_locked b n
             {| self := self w; store := record (GetObject b n) (store w) |} Hl)).
    + rewrite (bind_ok _ _ _ _ _ (remove_object_ok b n
             {| self := self w; store := record (GetObject b n) (store w) |} Hl)).
      by intros [= <- _].
  - by rewrite (bind_raise _ _ _ _ _ (get_object_missing b n w Ho)).
Qed.

(** The payload stored under [n], if any. *)
Definition payload (b : string) (s : Server) (n : string) : Body :=
  match objects s !! (b, n) with
  | Some o => body o
  | None => Raw ""
  end.

Lemma zip_loop_ok b names : ∀ es w,
  NoDup names →
  Forall (λ n, is_Some (objects (store w) !! (b, n))) names →
  Forall (λ n, (b, n) ∉ locked (store w)) names →
  foldM (zip_step b) es names w
  = ({| self := self w; store := taken_all b names (store w) |},
     Ok (es ++ map (λ n, (Py.basename n, payload b (store w) n)) names)).
Proof.
  induction names as [|n names IH]; intros es w Hnd Hobj Hlk.
  - simpl. rewrite app_nil_r. by destruct w.
  - apply Forall_cons in Hobj as [[o Ho] Hobj].
    apply NoDup_cons in Hnd as [Hn Hnd].
    apply Forall_cons in Hlk as [Hl Hlk].
    simpl foldM. rewrite (bind_ok _ _ _ _ _ (zip_step_ok b es n w o Ho Hl)).
    assert (∀ n', n' ∈ names →
              objects (take_srv b n (store w)) !! (b, n')
              = objects (store w) !! (b, n')) as Hkeep.
    { intros n' Hn'. simpl. apply lookup_delete_ne. by intros [= <-]. }
    rewrite IH; [| done | | done].
    + simpl. rewrite <- app_assoc. simpl.
      assert (payload b (store w) n = body o) as ->
        by (unfold payload; by rewrite Ho).
      do 4 f_equal. apply map_ext_in. intros n' Hn'.
      unfold payload. rewrite Hkeep; [done|]. by apply list_elem_of_In.
    + simpl store. apply Forall_forall. intros n' Hn'.
      rewrite Hkeep by done. by eapply Forall_forall in Hobj.
Qed.

(** A successful consolidation loop met no locked object. *)
Lemma zip_loop_unlocked b names : ∀ es w w' r,
  foldM (zip_step b) es names w = (w', Ok r) →
  Forall (λ n, (b, n) ∉ locked (store w)) names.
Proof.
  induction names as [|n names IH]; intros es w w' r H; [by constructor|].
  simpl foldM in H. unfold bind in H.
  destruct (zip_step b es n w) as [w1 [es1|e]] eqn:E; [|done].
  apply zip_step_inv in E as [Hl Hl'].
  constructor; [done|]. apply IH in H. by rewrite Hl' in H.
Qed.

End StoreEffects.

(** * Segment names are pairwise distinct *)

Section Names.

Variables (filename timestamp : string).

Lemma segment_name_first :
  segment_name filename timestamp 0 = "exports/" +:+ timestamp +:+ "_" +:+ filename.
Proof. done. Qed.

Lemma segment_name_next i :
  segment_name filename timestamp (S i)
  = "exports/" +:+ timestamp +:+ "_" +:+ Py.replace ".csv" "" filename
    +:+ "_" +:+ pretty (Z.of_nat (S i) + 1) +:+ ".csv".
Proof. done. Qed.

(** The first name differs from every later one: removing [.csv] keeps
    the underscores of [filename], and a later name has one more. *)
Lemma segment_name_first_next i :
  segment_name filename timestamp 0 ≠ segment_name filename timestamp (S i).
Proof.
  rewrite segment_name_first, segment_name_next. intros H.
  do 3 apply String.app_inj in H.
  apply (f_equal (Py.count "_")) in H.
  rewrite !PyFacts.count_app in H.
  rewrite PyFacts.count_replace_delete in H by done.
  rewrite PyFacts.count_pretty_pos in H by (done || lia).
  simpl in H. lia.
Qed.

Global Instance segment_name_inj : Inj (=) (=) (segment_name filename timestamp).
Proof.
  intros [|i] [|j] H; [done| | |].
  - by apply segment_name_first_next in H.
  - symmetry in H. by apply segment_name_first_next in H.
  - rewrite !segment_name_next in H.
    do 5 apply String.app_inj in H.
    apply PyFacts.app_inv_tail in H. apply (inj pretty) in H. f_equal. lia.
Qed.

Lemma segment_names_NoDup i k : NoDup (segment_names filename timestamp i k).
Proof.
  unfold segment_names. apply (NoDup_fmap_2 _). apply NoDup_ListNoDup, List.seq_NoDup.
Qed.

Lemma segment_names_length i k : length (segment_names filename timestamp i k) = k.
Proof. unfold segment_names. by rewrite length_map, length_seq. Qed.

(** Every segment name lies under the job's prefix. *)
Lemma segment_name_prefix i :
  Py.startswith ("exports/" +:+ timestamp +:+ "_") (segment_name filename timestamp i) = true.
Proof.
  unfold segment_name. rewrite <- !PyFacts.app_assoc. apply PyFacts.startswith_app.
Qed.

End Names.

(** * Arithmetic of the splitter *)

(** [ceil(n / m)] for a positive [m]. *)
Definition ceil_div (n m : Z) : Z := (n + m - 1) / m.

Lemma split_rows_nonempty m rows : ∀ cur, split_rows m cur rows ≠ [].
Proof.
  induction rows as [|r rs IH]; intros cur; simpl; [done|].
  destruct (len cur >=? m); [done | apply IH].
Qed.

(** The segments are consecutive runs of the rows: no row is lost,
    duplicated, reordered or cut. *)
Lemma split_rows_concat m rows : ∀ cur, concat (split_rows m cur rows) = cur ++ rows.
Proof.
  induction rows as [|r rs IH]; intros cur; simpl.
  - by rewrite app_nil_r.
  - destruct (len cur >=? m); simpl.
    + by rewrite IH.
    + by rewrite IH, <- app_assoc.
Qed.

Lemma split_rows_bound m rows : ∀ cur,
  0 < m → len cur ≤ m →
  Forall (λ seg, len seg ≤ m) (split_rows m cur rows).
Proof.
  induction rows as [|r rs IH]; intros cur Hm Hc; simpl.
  - by repeat constructor.
  - destruct (len cur >=? m) eqn:E.
    + constructor; [done|]. apply IH; [done|]. unfold len. simpl. lia.
    + apply IH; [done|]. unfold len in *. rewrite length_app. simpl. lia.
Qed.

Lemma split_rows_inhabited m rows : ∀ cur,
  0 < m → cur ≠ [] →
  Forall (λ seg, seg ≠ []) (split_rows m cur rows).
Proof.
  induction rows as [|r rs IH]; intros cur Hm Hc; simpl.
  - by repeat constructor.
  - destruct (len cur >=? m) eqn:E.
    + constructor; [done|]. by apply IH.
    + apply IH; [done|]. by destruct cur.
Qed.

Lemma split_rows_count m rows : ∀ cur,
  0 < m → 1 ≤ len cur ≤ m →
  len (split_rows m cur rows) = ceil_div (len cur + len rows) m.
Proof.
  unfold ceil_div.
  induction rows as [|r rs IH]; intros cur Hm Hc; simpl.
  - unfold len at 1 3. simpl. apply Z.div_unique with (len cur - 1); lia.
  - destruct (len cur >=? m) eqn:E.
    + assert (len (cur :: split_rows m [r] rs) = len (split_rows m [r] rs) + 1) as ->
        by (unfold len; simpl length; lia).
      rewrite IH by (unfold len; simpl; lia).
      assert (len cur = m) as -> by lia.
      replace (m + len (r :: rs) + m - 1) with (len [r] + len rs + m - 1 + 1 * m)
        by (unfold len; simpl length; lia).
      rewrite Z.div_add by lia. lia.
    + rewrite IH by (unfold len in *; rewrite ?length_app; simpl; lia).
      f_equal. unfold len. rewrite length_app. simpl length. lia.
Qed.

(** With a positive limit, [n ≥ 1] rows starting from an empty segment
    give [ceil(n / m)] segments, none empty and none above the limit. *)
Lemma split_rows_from_empty m r rs :
  0 < m →
  len (split_rows m [] (r :: rs)) = ceil_div (len (r :: rs)) m
  ∧ Forall (λ seg, seg ≠ [] ∧ len seg ≤ m) (split_rows m [] (r :: rs)).
Proof.
  intros Hm. simpl. assert ((len (@nil string) >=? m) = false) as ->.
  { rewrite Z.geb_leb. apply Z.leb_gt. unfold len. simpl. lia. }
  simpl app. split.
  - rewrite split_rows_count by (unfold len; simpl; lia).
    f_equal. unfold len. simpl length. lia.
  - apply Forall_and. split.
    + by apply split_rows_inhabited.
    + apply split_rows_bound; [done|]. unfold len. simpl. lia.
Qed.

(** * The consolidator *)

Section Consolidation.

Variable app : App.

Lemma initialize_client w :
  is_Some (_client (self w)) →
  ∃ c, _initialize_client app w = (w, Ok c).
Proof.
  intros Hc. destruct (initialize_ok app w (ready_client app w Hc)) as (c & H & _).
  rewrite (booted_id app w Hc) in H. by exists c.
Qed.

Lemma create_zip_unfold names zip_object_name w c :
  _initialize_client app w = (w, Ok c) →
  _create_zip_from_uploaded_files app names zip_object_name w
  = bind (foldM (zip_step (bucket_of (self w))) [] names)
         (λ zip_file,
            _upload_file_streaming app (ZipArchive zip_file) zip_object_name ;;;
            ret zip_object_name) w.
Proof.
  intros Hi. unfold _create_zip_from_uploaded_files.
  rewrite (bind_ok _ _ _ _ _ Hi). reflexivity.
Qed.

Lemma create_zip_ok names zip_object_name w :
  is_Some (_client (self w)) →
  NoDup names →
  Forall (λ n, is_Some (objects (store w) !! (bucket_of (self w), n))) names →
  Forall (λ n, (bucket_of (self w), n) ∉ locked (store w)) names →
  _create_zip_from_uploaded_files app names zip_object_name w
  = ({| self := self w;
        store :=
          put_srv (bucket_of (self w)) zip_object_name
            (ZipArchive (map (λ n, (Py.basename n,
                                     payload (bucket_of (self w)) (store w) n)) names))
            (taken_all (bucket_of (self w)) names (store w)) |},
     Ok zip_object_name).
Proof.
  intros Hc Hnd Hobj Hlk. destruct (initialize_client w Hc) as [c Hi].
  rewrite (create_zip_unfold _ _ _ _ Hi).
  rewrite (bind_ok _ _ _ _ _ (zip_loop_ok (bucket_of (self w)) names [] w Hnd Hobj Hlk)).
  rewrite app_nil_l. cbv beta.
  set (w1 := {| self := self w;
                store := taken_all (bucket_of (self w)) names (store w) |}).
  rewrite (bind_ok _ _ _ _ _ (upload_ok app _ _ w1 (ready_client app w1 Hc))).
  unfold uploaded. rewrite (booted_id app w1 Hc). reflexivity.
Qed.

Lemma create_zip_unlocked names zip_object_name w w' r :
  is_Some (_client (self w)) →
  _create_zip_from_uploaded_files app names zip_object_name w = (w', Ok r) →
  Forall (λ n, (bucket_of (self w), n) ∉ locked (store w)) names.
Proof.
  intros Hc. destruct (initialize_client w Hc) as [c Hi].
  rewrite (create_zip_unfold _ _ _ _ Hi). unfold bind at 1.
  destruct (foldM _ _ _ w) as [w1 [es|e]] eqn:E; [|done].
  intros _. by apply zip_loop_unlocked in E.
Qed.

End Consolidation.

(** * [stream_csv_to_minio], end to end *)

Lemma booted_frame app w :
  objects (store (booted app w)) = objects (store w)
  ∧ locked (store (booted app w)) = locked (store w)
  ∧ clock (store (booted app w)) = clock (store w).
Proof.
  unfold booted. destruct (_client (self w)); [done|]. simpl.
  by destruct (bool_decide _).
Qed.

Section ExportJob.

Variable app : App.
Variables (filename timestamp : string).

(** The prefix shared by the object names of one job. *)
Definition job_prefix : string := "exports/" +:+ timestamp +:+ "_".

Definition zip_name : string :=
  "exports/" +:+ timestamp +:+ "_" +:+ Py.replace ".csv" ".zip" filename.

(** The per-file limit the call works with. *)
Definition limit (w : World) (max_rows_per_file : option Z) : Z :=
  match max_rows_per_file with
  | Some m => m
  | None => default 1000000 (Config.max_rows_per_file (_config (self w)))
  end.

Definition files_of (m : Z) (h : string) (rows : list string) : list (string * Body) :=
  segment_files filename timestamp h 0 (split_rows m [] rows).

Definition names_of (m : Z) (rows : list string) : list string :=
  segment_names filename timestamp 0 (length (split_rows m [] rows)).

(** The entries of the archive built from the uploaded files. *)
Definition archive_entries (files : list (string * Body)) : list (string * Body) :=
  map (λ nb, (Py.basename nb.1, nb.2)) files.

(** The world once every segment is uploaded. *)
Definition after_upload (m : Z) (h : string) (rows : list string) (w : World) : World :=
  {| self := self (booted app w);
     store := stored_all (bucket_of (self (booted app w))) (files_of m h rows)
                (store (booted app w)) |}.

(** The world after consolidation. *)
Definition after_zip (m : Z) (h : string) (rows : list string) (w : World) : World :=
  let w1 := after_upload m h rows w in
  {| self := self w1;
     store := put_srv (bucket_of (self w1)) zip_name
                (ZipArchive (archive_entries (files_of m h rows)))
                (taken_all (bucket_of (self w1)) (names_of m rows) (store w1)) |}.

Lemma files_names m h rows : map fst (files_of m h rows) = names_of m rows.
Proof.
  unfold files_of, names_of, segment_files. apply fst_zip.
  by rewrite segment_names_length, length_map.
Qed.

Lemma files_bodies m h rows :
  map snd (files_of m h rows)
  = map (λ seg, Raw (csv_text (h :: seg))) (split_rows m [] rows).
Proof.
  unfold files_of, segment_files. apply snd_zip.
  by rewrite segment_names_length, length_map.
Qed.

Lemma files_length m h rows :
  length (files_of m h rows) = length (split_rows m [] rows).
Proof.
  rewrite <- (length_map fst (files_of m h rows)), files_names.
  apply segment_names_length.
Qed.

Lemma files_nonempty m h rows : files_of m h rows ≠ [].
Proof.
  intros H. apply (f_equal length) in H. rewrite files_length in H.
  pose proof (split_rows_nonempty m rows []). by destruct (split_rows m [] rows).
Qed.

Lemma stream_unfold chunks o w :
  stream_csv_to_minio app timestamp chunks filename o w
  = bind (upload_segments app filename timestamp (limit w o) chunks)
      (λ l,
         if len (uploaded_files l) =? 0 then raise (ValueError "No data to export")
         else
           object_name <-
             (if 1 <? len (uploaded_files l)
              then _create_zip_from_uploaded_files app (uploaded_files l) zip_name
              else match uploaded_files l with
                   | n :: _ => ret n
                   | [] => raise (IndexError "list index out of range")
                   end) ;;
           ret (object_name, total_rows l, len (uploaded_files l))) w.
Proof. by destruct o. Qed.

Lemma upload_phase_ok chunks m h rows w :
  ready app w = true → marker_free chunks = true → csv_lines chunks = h :: rows →
  upload_segments app filename timestamp m chunks w
  = (after_upload m h rows w,
     Ok (finished filename timestamp h (with_header h) rows (split_rows m [] rows))).
Proof.
  intros Hr Hm Hl. rewrite (upload_segments_rows _ _ _ _ _ _ _ _ Hm Hl).
  fold (files_of m h rows).
  pose proof (files_nonempty m h rows) as Hne.
  destruct (files_of m h rows) as [|nb nbs] eqn:E; [done|].
  rewrite (bind_ok _ _ _ _ _ (upload_all_ready app nb nbs w Hr)).
  unfold after_upload. by rewrite E.
Qed.

Lemma upload_phase_unready chunks m h rows w :
  ready app w = false → marker_free chunks = true → csv_lines chunks = h :: rows →
  ∃ w' e, upload_segments app filename timestamp m chunks w = (w', Raise e)
          ∧ store w' = store w.
Proof.
  intros Hr Hm Hl. rewrite (upload_segments_rows _ _ _ _ _ _ _ _ Hm Hl).
  fold (files_of m h rows).
  pose proof (files_nonempty m h rows) as Hne.
  destruct (files_of m h rows) as [|nb nbs] eqn:E; [done|].
  destruct (upload_all_unready app nb nbs w Hr) as (w' & e & Hu & Hs).
  exists w', e. by rewrite (bind_raise _ _ _ _ _ Hu).
Qed.

Lemma after_upload_client m h rows w :
  ready app w = true → is_Some (_client (self (after_upload m h rows w))).
Proof. intros Hr. by apply booted_client. Qed.

Lemma after_upload_lookup m h rows w n d :
  (n, d) ∈ files_of m h rows →
  objects (store (after_upload m h rows w))
    !! (bucket_of (self (after_upload m h rows w)), n)
  = Some (new_object n d (store (booted app w))).
Proof.
  intros Hin. simpl. apply stored_all_lookup; [|done].
  rewrite files_names. apply segment_names_NoDup.
Qed.

Lemma after_upload_payload m h rows w :
  map (λ n, (Py.basename n,
             payload (bucket_of (self (after_upload m h rows w)))
                     (store (after_upload m h rows w)) n))
      (names_of m rows)
  = archive_entries (files_of m h rows).
Proof.
  rewrite <- (files_names m h rows). unfold archive_entries.
  rewrite map_map. apply map_ext_in. intros [n d] Hin. simpl fst. simpl snd.
  apply list_elem_of_In in Hin.
  unfold payload. by rewrite (after_upload_lookup m h rows w n d Hin).
Qed.

Lemma after_upload_present m h rows w :
  Forall (λ n, is_Some (objects (store (after_upload m h rows w))
                          !! (bucket_of (self (after_upload m h rows w)), n)))
         (names_of m rows).
Proof.
  rewrite <- (files_names m h rows). apply Forall_forall. intros n Hn.
  apply list_elem_of_fmap in Hn as ([n' d] & -> & Hin). cbn [fst].
  rewrite (after_upload_lookup m h rows w n' d Hin). by eexists.
Qed.

Lemma after_upload_locked m h rows w :
  locked (store (after_upload m h rows w)) = locked (store w).
Proof.
  simpl. destruct (stored_all_frame (bucket_of (self (booted app w)))
                     (files_of m h rows) (store (booted app w))) as (_ & -> & _).
  apply booted_frame.
Qed.

(** The value a successful call returns. *)
Definition export_result (m : Z) (rows : list string) : string * Z * Z :=
  (if 1 <? len (split_rows m [] rows) then zip_name
   else segment_name filename timestamp 0,
   len rows, len (split_rows m [] rows)).

(** The world a successful call leaves. *)
Definition after_export (m : Z) (h : string) (rows : list string) (w : World) : World :=
  if 1 <? len (split_rows m [] rows) then after_zip m h rows w
  else after_upload m h rows w.

(** The names of the segments can be removed from the bucket. *)
Definition removable (m : Z) (rows : list string) (w : World) : Prop :=
  1 < len (split_rows m [] rows) →
  Forall (λ n, (bucket_of (self (booted app w)), n) ∉ locked (store w))
         (names_of m rows).

Theorem stream_ok chunks o h rows w :
  ready app w = true → marker_free chunks = true → csv_lines chunks = h :: rows →
  removable (limit w o) rows w →
  stream_csv_to_minio app timestamp chunks filename o w
  = (after_export (limit w o) h rows w, Ok (export_result (limit w o) rows)).
Proof.
  intros Hr Hm Hl Hrm. rewrite stream_unfold.
  set (m := limit w o) in *.
  rewrite (bind_ok _ _ _ _ _ (upload_phase_ok chunks m h rows w Hr Hm Hl)).
  cbv beta.
  remember (finished filename timestamp h (with_header h) rows
              (split_rows m [] rows)) as l eqn:El.
  assert (uploaded_files l = names_of m rows) as Hu by (by subst l).
  assert (total_rows l = len rows) as Ht by (by subst l).
  clear El. rewrite !Hu, Ht. clear l Hu Ht.
  assert (len (names_of m rows) = len (split_rows m [] rows)) as Hlen.
  { unfold len, names_of. by rewrite segment_names_length. }
  rewrite Hlen.
  pose proof (split_rows_nonempty m rows []) as Hne.
  assert ((len (split_rows m [] rows) =? 0) = false) as ->.
  { apply Z.eqb_neq. unfold len. destruct (split_rows m [] rows); [done|simpl; lia]. }
  unfold after_export, export_result.
  destruct (1 <? len (split_rows m [] rows)) eqn:E.
  - rewrite (bind_ok _ _ _ _ _
      (create_zip_ok app (names_of m rows) zip_name (after_upload m h rows w)
         (after_upload_client m h rows w Hr)
         (segment_names_NoDup filename timestamp 0 _)
         (after_upload_present m h rows w)
         ltac:(rewrite after_upload_locked; apply Hrm; lia))).
    rewrite after_upload_payload. reflexivity.
  - unfold names_of in *.
    destruct (split_rows m [] rows) as [|seg segs]; [done|]. reflexivity.
Qed.

End ExportJob.

(** * Failing and successful runs *)

Lemma marker_split chunks :
  marker_free chunks = false →
  ∃ pre c post, chunks = pre ++ c :: post
                ∧ marker_free pre = true
                ∧ Py.contains "__STREAM_ERROR__" c = true.
Proof.
  induction chunks as [|c chunks IH]; [done|]. simpl.
  destruct (Py.contains "__STREAM_ERROR__" c) eqn:E; simpl.
  - intros _. by exists [], c, chunks.
  - intros H. destruct (IH H) as (pre & c' & post & -> & Hp & Hc).
    exists (c :: pre), c', post. simpl. by rewrite E.
Qed.

(** The exception a marker chunk raises. *)
Definition marker_error (c : string) : Exc :=
  match Py.split1 ":" c with
  | _ :: msg :: _ => ValueError (Py.strip msg)
  | _ => IndexError "list index out of range"
  end.

Section Runs.

Variable app : App.
Variables (filename timestamp : string).

(** The chunks before the marker are processed; the marker chunk then
    raises, and nothing else happens. *)
Lemma upload_segments_marker m pre c post w :
  Py.contains "__STREAM_ERROR__" c = true →
  upload_segments app filename timestamp m (pre ++ c :: post) w
  = bind (foldM (process_chunk app filename timestamp m) initial_locals pre)
         (λ _, raise (marker_error c)) w.
Proof.
  intros Hc. unfold upload_segments.
  rewrite (bind_cong_l _ _ _ _ (chunks_loop_marker app filename timestamp m pre c post _ w Hc)).
  rewrite bind_assoc. apply bind_ext. intros _ w'.
  unfold marker_error. by destruct (Py.split1 ":" c) as [|? [|? ?]].
Qed.

Lemma stream_marker o pre c post w :
  Py.contains "__STREAM_ERROR__" c = true →
  stream_csv_to_minio app timestamp (pre ++ c :: post) filename o w
  = bind (foldM (process_chunk app filename timestamp (limit w o)) initial_locals pre)
         (λ _, raise (marker_error c)) w.
Proof.
  intros Hc. rewrite stream_unfold.
  rewrite (bind_cong_l _ _ _ _ (upload_segments_marker _ _ _ _ _ Hc)).
  rewrite bind_assoc. by apply bind_ext.
Qed.

Lemma stream_empty o chunks w :
  marker_free chunks = true → csv_lines chunks = [] →
  stream_csv_to_minio app timestamp chunks filename o w
  = (w, Raise (ValueError "No data to export")).
Proof.
  intros Hm Hl. rewrite stream_unfold.
  by rewrite (bind_ok _ _ _ _ _ (upload_segments_empty app filename timestamp _ chunks w Hm Hl)).
Qed.

(** What a successful call tells about its input and its environment. *)
Theorem stream_success o chunks w w' r :
  stream_csv_to_minio app timestamp chunks filename o w = (w', Ok r) →
  marker_free chunks = true
  ∧ ready app w = true
  ∧ ∃ h rows, csv_lines chunks = h :: rows
              ∧ removable app filename timestamp (limit w o) rows w.
Proof.
  intros H.
  destruct (marker_free chunks) eqn:Hm.
  2:{ destruct (marker_split chunks Hm) as (pre & c & post & -> & _ & Hc).
      rewrite (stream_marker o pre c post w Hc) in H. unfold bind in H.
      by destruct (foldM _ _ _ w) as [? [|]]. }
  destruct (csv_lines chunks) as [|h rows] eqn:Hl.
  { by rewrite (stream_empty o chunks w Hm Hl) in H. }
  destruct (ready app w) eqn:Hr.
  2:{ rewrite stream_unfold in H.
      destruct (upload_phase_unready app filename timestamp chunks (limit w o) h rows w
                  Hr Hm Hl) as (w1 & e & Hu & _).
      by rewrite (bind_raise _ _ _ _ _ Hu) in H. }
  split; [done|]. split; [done|]. exists h, rows. split; [done|].
  intros Hmany.
  rewrite stream_unfold in H.
  rewrite (bind_ok _ _ _ _ _ (upload_phase_ok app filename timestamp chunks _ h rows w
                                Hr Hm Hl)) in H.
  cbv beta in H.
  remember (finished filename timestamp h (with_header h) rows
              (split_rows (limit w o) [] rows)) as l eqn:El.
  assert (uploaded_files l = names_of filename timestamp (limit w o) rows) as Hu
    by (by subst l).
  clear El. rewrite !Hu in H.
  assert (len (names_of filename timestamp (limit w o) rows)
          = len (split_rows (limit w o) [] rows)) as Hlen.
  { unfold len, names_of. by rewrite segment_names_length. }
  rewrite Hlen in H.
  assert ((len (split_rows (limit w o) [] rows) =? 0) = false) as E0 by lia.
  assert ((1 <? len (split_rows (limit w o) [] rows)) = true) as E1 by lia.
  rewrite E0, E1 in H. unfold bind in H.
  destruct (_create_zip_from_uploaded_files _ _ _ _) as [w2 [n|e]] eqn:Ez; [|done].
  apply create_zip_unlocked in Ez; [|by apply after_upload_client].
  by rewrite after_upload_locked in Ez.
Qed.

End Runs.

(** * The retention sweeper *)

(** The store reports a last-modified time before the cutoff. *)
Definition expired (cutoff : Z) (o : StoredObject) : bool :=
  match last_modified o with
  | Some t => t <? cutoff
  | None => false
  end.

(** A deletion candidate: an object of bucket [b] under [exports/] that is
    strictly older than the cutoff. *)
Definition victim (b : string) (cutoff : Z) (kv : string * string * StoredObject) : Prop :=
  kv.1.1 = b ∧ Is_true (Py.startswith "exports/" kv.1.2) ∧ Is_true (expired cutoff kv.2).

(** The body of [for obj in objects] in [cleanup_old_files]. *)
Definition sweep_step (b : string) (cutoff_time : datetime) (deleted_count : Z)
    (obj : string * option datetime) : M Z :=
  match obj.2 with
  | Some t =>
      older <- datetime_lt t cutoff_time ;;
      if older
      then remove_object b obj.1 ;;; ret (deleted_count + 1)
      else ret deleted_count
  | None => ret deleted_count
  end.

(** The names of the deletion candidates among the listed objects. *)
Definition doomed (cutoff : Z) (objs : list (string * StoredObject)) : list string :=
  map fst (List.filter (λ no, expired cutoff no.2) objs).

(** The store reports a last-modified time for the object. *)
Definition dated (no : string * StoredObject) : bool :=
  match last_modified no.2 with
  | Some _ => true
  | None => false
  end.

Lemma elem_of_listing b pre s n o :
  (n, o) ∈ listing b pre s ↔ objects s !! (b, n) = Some o ∧ Py.startswith pre n = true.
Proof.
  unfold listing. rewrite merge_sort_Permutation, list_elem_of_omap. split.
  - intros ([[b' n'] o'] & Hin & Hg). simpl in Hg.
    destruct (bool_decide (b' = b)) eqn:Eb; simpl in Hg; [|done].
    destruct (Py.startswith pre n') eqn:Ep; [|done].
    apply bool_decide_eq_true in Eb. simplify_eq.
    split; [|done]. by apply elem_of_map_to_list.
  - intros [Ho Hp]. exists (b, n, o). split.
    + by apply elem_of_map_to_list.
    + simpl. by rewrite bool_decide_eq_true_2, Hp.
Qed.

Global Instance name_le_total : Total name_le.
Proof.
  intros x y. unfold name_le.
  destruct (String.leb_total x.1 y.1) as [H|H]; rewrite H; [by left | by right].
Qed.

(** The listing is in the order of the names. *)
Lemma listing_sorted b pre s : Sorted name_le (listing b pre s).
Proof. unfold listing. apply (Sorted_merge_sort _). Qed.

(** An object without a date is passed over. *)
Lemma sweep_step_undated b cutoff_time cnt n w :
  sweep_step b cutoff_time cnt (n, None) w = (w, Ok cnt).
Proof. reflexivity. Qed.

(** The date the client reports cannot be compared with the cutoff. *)
Lemma sweep_step_dated b cutoff cnt n t w :
  sweep_step b (Naive cutoff) cnt (n, Some (Aware t)) w
  = (w, Raise (TypeError "can't compare offset-naive and offset-aware datetimes")).
Proof. reflexivity. Qed.

(** The loop ends at the first dated object, before any call. *)
Lemma sweep_loop b cutoff objs : ∀ cnt w,
  foldM (sweep_step b (Naive cutoff)) cnt (map reported objs) w
  = (w, if existsb dated objs
        then Raise (TypeError "can't compare offset-naive and offset-aware datetimes")
        else Ok cnt).
Proof.
  induction objs as [|[n o] objs IH]; intros cnt w; [reflexivity|].
  simpl foldM. unfold reported at 1, dated at 1. simpl.
  destruct (last_modified o) as [t|]; simpl.
  - by rewrite (bind_raise _ _ _ _ _ (sweep_step_dated b cutoff cnt n t w)).
  - rewrite (bind_ok _ _ _ _ _ (sweep_step_undated b (Naive cutoff) cnt n w)).
    apply IH.
Qed.

Lemma bind_get_self {A} (k : MinIOStorageManager → M A) w :
  bind get_self k w = k (self w) w.
Proof. reflexivity. Qed.

Lemma bind_get_bucket_name {A} (k : string → M A) w :
  bind get_bucket_name k w = k (bucket_of (self w)) w.
Proof. reflexivity. Qed.

Lemma timedelta_fits s w :
  (-999999999 <=? s / 86400) && (s / 86400 <=? 999999999) = true →
  timedelta s w = (w, Ok s).
Proof. unfold timedelta. by intros ->. Qed.

Lemma timedelta_overflow s w :
  (-999999999 <=? s / 86400) && (s / 86400 <=? 999999999) = false →
  timedelta s w = (w, Raise OverflowError).
Proof. unfold timedelta. by intros ->. Qed.

Lemma datetime_sub_naive now delta w :
  (0 <=? now - delta) && (now - delta <=? datetime_max) = true →
  datetime_sub (Naive now) delta w = (w, Ok (Naive (now - delta))).
Proof. unfold datetime_sub. cbv zeta. by intros ->. Qed.

Lemma datetime_sub_overflow now delta w :
  (0 <=? now - delta) && (now - delta <=? datetime_max) = false →
  datetime_sub (Naive now) delta w = (w, Raise OverflowError).
Proof. unfold datetime_sub. cbv zeta. by intros ->. Qed.

Section Sweeper.

Variable app : App.

(** The bucket and the cutoff a sweep works with. *)
Definition sweep_bucket (w : World) : string := bucket_of (self (booted app w)).

Definition sweep_cutoff (now : Z) (w : World) : Z :=
  now - default 604800 (Config.file_retention_seconds (_config (self (booted app w)))).

(** The objects the sweep enumerates, in the order the store lists them. *)
Definition sweep_listing (w : World) : list (string * StoredObject) :=
  listing (sweep_bucket w) "exports/" (store w).

(** The retention fits a duration and the cutoff is a date. *)
Definition representable (now : Z) (w : World) : bool :=
  let retention_seconds :=
    default 604800 (Config.file_retention_seconds (_config (self (booted app w)))) in
  (-999999999 <=? retention_seconds / 86400) && (retention_seconds / 86400 <=? 999999999)
  && (0 <=? now - retention_seconds) && (now - retention_seconds <=? datetime_max).

(** The world once the bucket has been listed. *)
Definition listed (w : World) : World :=
  {| self := self (booted app w);
     store := record (ListObjects (sweep_bucket w) "exports/") (store (booted app w)) |}.

Lemma listing_booted b pre w : listing b pre (store (booted app w)) = listing b pre (store w).
Proof. unfold listing. by destruct (booted_frame app w) as (-> & _). Qed.

Lemma cleanup_unfold now w :
  ready app w = true →
  representable now w = true →
  cleanup_old_files app now w
  = foldM (sweep_step (sweep_bucket w) (Naive (sweep_cutoff now w))) 0
      (map reported (sweep_listing w)) (listed w).
Proof.
  intros Hr Hrep. destruct (initialize_ok app w Hr) as (c & Hi & _).
  unfold cleanup_old_files. rewrite (bind_ok _ _ _ _ _ Hi).
  unfold representable in Hrep. cbv zeta in Hrep.
  apply andb_prop in Hrep as [Hrep H4]. apply andb_prop in Hrep as [Hrep H3].
  rewrite bind_get_bucket_name, bind_get_self. cbv zeta.
  rewrite (bind_ok _ _ _ _ _ (timedelta_fits _ (booted app w) Hrep)). cbv beta.
  rewrite (bind_ok _ _ _ _ _ (datetime_sub_naive now _ (booted app w)
                                ltac:(by rewrite H3, H4))). cbv beta.
  unfold sweep_listing. rewrite <- listing_booted. reflexivity.
Qed.

(** With a retention that no duration holds, or a cutoff that is no date,
    the sweep stops before the bucket is listed. *)
Lemma cleanup_overflow now w :
  ready app w = true →
  representable now w = false →
  cleanup_old_files app now w = (booted app w, Raise OverflowError).
Proof.
  intros Hr Hrep. destruct (initialize_ok app w Hr) as (c & Hi & _).
  unfold cleanup_old_files. rewrite (bind_ok _ _ _ _ _ Hi).
  unfold representable in Hrep. cbv zeta in Hrep.
  rewrite bind_get_bucket_name, bind_get_self. cbv zeta.
  set (r := default 604800 (Config.file_retention_seconds (_config (self (booted app w)))))
    in *.
  destruct ((-999999999 <=? r / 86400) && (r / 86400 <=? 999999999)) eqn:E1.
  2:{ by rewrite (bind_raise _ _ _ _ _ (timedelta_overflow r (booted app w) E1)). }
  rewrite (bind_ok _ _ _ _ _ (timedelta_fits r (booted app w) E1)). cbv beta.
  destruct ((0 <=? now - r) && (now - r <=? datetime_max)) eqn:E2.
  { apply andb_prop in E2 as [E2 E3]. simpl in Hrep. by rewrite E2, E3 in Hrep. }
  by rewrite (bind_raise _ _ _ _ _ (datetime_sub_overflow now r (booted app w) E2)).
Qed.

(** The sweep on a usable manager with a representable cutoff: the bucket
    is listed, and the first dated object ends the sweep. *)
Lemma cleanup_outcome now w :
  ready app w = true →
  representable now w = true →
  cleanup_old_files app now w
  = (listed w,
     if existsb dated (sweep_listing w)
     then Raise (TypeError "can't compare offset-naive and offset-aware datetimes")
     else Ok 0).
Proof. intros Hr Hrep. rewrite cleanup_unfold by done. apply sweep_loop. Qed.

End Sweeper.

(** * Reading files back, and the shape of a marker chunk *)

Lemma split_csv_text (lines : list string) :
  Forall (λ x, Py.count "010" x = O) lines →
  Py.split "010" (csv_text lines) = lines ++ [""].
Proof.
  induction lines as [|x lines IH]; intros H; [done|].
  apply Forall_cons in H as [Hx H]. simpl csv_text.
  change (x +:+ Py.LF +:+ csv_text lines) with (x +:+ String "010" (csv_text lines)).
  rewrite PyFacts.split_line by done. by rewrite IH.
Qed.

Lemma csv_lines_no_LF chunks : Forall (λ x, Py.count "010" x = O) (csv_lines chunks).
Proof.
  unfold csv_lines. apply Forall_forall. intros x Hx.
  apply list_elem_of_filter in Hx as [_ Hx].
  apply list_elem_of_In, in_flat_map in Hx as (c & _ & Hx).
  pose proof (PyFacts.split_no_sep "010" c) as Hs.
  by eapply Forall_forall in Hs; [|apply list_elem_of_In].
Qed.

(** The lines of a stored text file. *)
Definition read_lines (data : Body) : list string :=
  match data with
  | Raw s => removelast (Py.split "010" s)
  | ZipArchive _ => []
  end.

Lemma read_lines_csv_text lines :
  Forall (λ x, Py.count "010" x = O) lines →
  read_lines (Raw (csv_text lines)) = lines.
Proof.
  intros H. simpl. rewrite split_csv_text by done. apply removelast_last.
Qed.

Lemma contains_prefix needle (hay : string) :
  Py.startswith needle hay = true → Py.contains needle hay = true.
Proof. intros H. destruct hay; simpl; by rewrite H. Qed.

Lemma contains_app needle (p s : string) :
  Py.contains needle (p +:+ needle +:+ s) = true.
Proof.
  induction p as [|a p IH].
  - change ("" +:+ needle +:+ s) with (needle +:+ s).
    apply contains_prefix, PyFacts.startswith_app.
  - change (String a p +:+ needle +:+ s) with (String a (p +:+ needle +:+ s)).
    simpl. rewrite IH. apply orb_true_r.
Qed.

Lemma split1_first c (x rest : string) :
  Py.count c x = O → Py.split1 c (x +:+ String c rest) = [x; rest].
Proof.
  induction x as [|a x IH]; simpl; intros H.
  - by rewrite Ascii.eqb_refl.
  - destruct (Ascii.eqb a c) eqn:E; [done|]. by rewrite IH.
Qed.

Lemma marker_error_message (p rest : string) :
  Py.count ":" p = O →
  marker_error (p +:+ "__STREAM_ERROR__" +:+ ":" +:+ rest) = ValueError (Py.strip rest).
Proof.
  intros Hp. unfold marker_error.
  change (p +:+ "__STREAM_ERROR__" +:+ ":" +:+ rest)
    with (p +:+ "__STREAM_ERROR__" +:+ String ":" rest).
  rewrite <- PyFacts.app_assoc. rewrite split1_first; [done|].
  rewrite PyFacts.count_app, Hp. done.
Qed.

(** * Nothing is deleted while segments are uploaded *)

Definition no_removal (c : Call) : Prop :=
  match c with
  | RemoveObject _ _ => False
  | _ => True
  end.

(** From [w] to [w']: only calls other than removals were issued, every
    object of [w] is still stored, and so is every object put meanwhile. *)
Definition kept (w w' : World) : Prop :=
  ∃ cs, calls (store w') = calls (store w) ++ cs
        ∧ Forall no_removal cs
        ∧ (∀ k, is_Some (objects (store w) !! k) → is_Some (objects (store w') !! k))
        ∧ (∀ b n d ct, PutObject b n d ct ∈ cs → is_Some (objects (store w') !! (b, n))).

Lemma kept_refl w : kept w w.
Proof.
  exists []. rewrite app_nil_r. repeat split; [constructor | done |].
  intros ???? H. by apply elem_of_nil in H.
Qed.

Lemma kept_trans w1 w2 w3 : kept w1 w2 → kept w2 w3 → kept w1 w3.
Proof.
  intros (cs1 & Hc1 & Hn1 & Ho1 & Hp1) (cs2 & Hc2 & Hn2 & Ho2 & Hp2).
  exists (cs1 ++ cs2). rewrite Hc2, Hc1, app_assoc. repeat split.
  - by apply Forall_app.
  - intros k Hk. by apply Ho2, Ho1.
  - intros b n d ct Hin. apply elem_of_app in Hin as [Hin|Hin].
    + eapply Ho2, Hp1, Hin.
    + eapply Hp2, Hin.
Qed.

Lemma foldM_kept {A B} (f : A → B → M A) :
  (∀ a x w w' r, f a x w = (w', r) → kept w w') →
  ∀ l a w w' r, foldM f a l w = (w', r) → kept w w'.
Proof.
  intros Hf. induction l as [|x l IH]; intros a w w' r H; simpl in H.
  - injection H as <- _. apply kept_refl.
  - unfold bind in H. destruct (f a x w) as [w1 [a1|e]] eqn:E.
    + eapply kept_trans; [by eapply Hf | by eapply IH].
    + injection H as <- _. by eapply Hf.
Qed.

Lemma bind_kept {A B} (m : M A) (k : A → M B) w w' r :
  (∀ w w' r, m w = (w', r) → kept w w') →
  (∀ a w w' r, k a w = (w', r) → kept w w') →
  bind m k w = (w', r) → kept w w'.
Proof.
  intros Hm Hk. unfold bind. destruct (m w) as [w1 [a|e]] eqn:E.
  - intros H. eapply kept_trans; [by eapply Hm | by eapply Hk].
  - intros [= <- _]. by eapply Hm.
Qed.

Lemma ret_kept {A} (a : A) w w' r : ret a w = (w', r) → kept w w'.
Proof. intros [= <- _]. apply kept_refl. Qed.

Lemma raise_kept {A} e w w' (r : result A) : raise e w = (w', r) → kept w w'.
Proof. intros [= <- _]. apply kept_refl. Qed.

Section Kept.

Variable app : App.
Variables (filename timestamp : string) (m : Z).

Lemma booted_kept w : kept w (booted app w).
Proof.
  unfold booted. destruct (_client (self w)); [apply kept_refl|]. simpl.
  destruct (bool_decide _).
  - eexists [_]. simpl. repeat split; [by repeat constructor | done |].
    intros ???? H. apply list_elem_of_singleton in H. done.
  - eexists [_; _]. simpl. rewrite <- app_assoc. repeat split;
      [by repeat constructor | done |].
    intros ???? H. apply elem_of_cons in H as [H|H]; [done|].
    apply list_elem_of_singleton in H. done.
Qed.

Lemma upload_kept data name w w' r :
  _upload_file_streaming app data name w = (w', r) → kept w w'.
Proof.
  destruct (ready app w) eqn:Hr.
  - rewrite upload_ok by done. intros [= <- _].
    eapply kept_trans; [apply booted_kept|].
    unfold uploaded. eexists [_]. simpl. repeat split.
    + by repeat constructor.
    + intros k [o Ho]. destruct (decide ((bucket_of (self (booted app w)), name) = k)) as [<-|].
      * rewrite lookup_insert_eq. by eexists.
      * rewrite lookup_insert_ne by done. by eexists.
    + intros b n d ct H. apply list_elem_of_singleton in H. injection H as -> -> _ _.
      rewrite lookup_insert_eq. by eexists.
  - unfold _upload_file_streaming. unfold bind at 1.
    destruct (_initialize_client app w) as [w1 [c|e]] eqn:Hi.
    + destruct (initialize_fail app w Hr) as (? & ? & Hi' & _). congruence.
    + intros [= <- _]. unfold _initialize_client in Hi. unfold ready in Hr.
      unfold bind at 1 in Hi. simpl in Hi.
      destruct (_client (self w)); [done|].
      destruct (negb (minio_installed app)).
      { injection Hi as <- _. apply kept_refl. }
      unfold bind at 1 in Hi. simpl in Hi.
      exists []. rewrite app_nil_r.
      assert (store w1 = store w) as ->.
      { destruct (negb _) in Hi; [by injection Hi as <- _|].
        destruct (_ || _) in Hi; [by injection Hi as <- _|].
        exfalso. revert Hi. unfold bind, bucket_exists, make_bucket, bind,
          get_store, set_store, ret. simpl. by destruct (negb _). }
      repeat split; [constructor | done |].
      intros ???? H. by apply elem_of_nil in H.
Qed.

Lemma finalize_kept l w w' r :
  finalize_current_file app filename timestamp l w = (w', r) → kept w w'.
Proof.
  unfold finalize_current_file. destruct (0 <? _); [|apply ret_kept].
  apply bind_kept; [apply upload_kept | intros ?; apply ret_kept].
Qed.

Lemma process_line_kept l line w w' r :
  process_line app filename timestamp m l line w = (w', r) → kept w w'.
Proof.
  unfold process_line. destruct (negb _); [apply ret_kept|].
  destruct (header l); [|apply ret_kept].
  apply bind_kept; [|intros ?; apply ret_kept].
  intros w1 w2 r1. destruct (_ >=? _); [|apply ret_kept].
  apply bind_kept; [apply finalize_kept | intros ?; apply ret_kept].
Qed.

Lemma process_chunk_kept l chunk w w' r :
  process_chunk app filename timestamp m l chunk w = (w', r) → kept w w'.
Proof.
  unfold process_chunk. destruct (Py.contains _ _).
  - destruct (Py.split1 _ _) as [|? [|? ?]]; apply raise_kept.
  - apply foldM_kept. intros. by eapply process_line_kept.
Qed.

Lemma chunks_kept l chunks w w' r :
  foldM (process_chunk app filename timestamp m) l chunks w = (w', r) → kept w w'.
Proof. apply foldM_kept. intros. by eapply process_chunk_kept. Qed.

(** ** With a usable configuration the loop cannot fail on data *)

Definition total {A} (c : M A) : Prop :=
  ∀ w, ready app w = true → ∃ w' a, c w = (w', Ok a) ∧ ready app w' = true.

Lemma total_ret {A} (a : A) : total (ret a).
Proof. intros w Hr. by exists w, a. Qed.

Lemma total_bind {A B} (c : M A) (k : A → M B) :
  total c → (∀ a, total (k a)) → total (bind c k).
Proof.
  intros Hc Hk w Hr. destruct (Hc w Hr) as (w1 & a & E & Hr1).
  rewrite (bind_ok _ _ _ _ _ E). by apply Hk.
Qed.

Lemma total_foldM {A B} (f : A → B → M A) :
  (∀ a x, total (f a x)) → ∀ l a, total (foldM f a l).
Proof.
  intros Hf. induction l as [|x l IH]; intros a; simpl.
  - apply total_ret.
  - apply total_bind; [apply Hf | apply IH].
Qed.

Lemma total_upload data name : total (_upload_file_streaming app data name).
Proof.
  intros w Hr. exists (uploaded app name data w), tt.
  split; [by apply upload_ok|]. by apply ready_client, uploaded_client.
Qed.

Lemma total_finalize l : total (finalize_current_file app filename timestamp l).
Proof.
  unfold finalize_current_file. destruct (0 <? _); [|apply total_ret].
  apply total_bind; [apply total_upload | intros ?; apply total_ret].
Qed.

Lemma total_process_line l line : total (process_line app filename timestamp m l line).
Proof.
  unfold process_line. destruct (negb _); [apply total_ret|].
  destruct (header l); [|apply total_ret].
  apply total_bind; [|intros ?; apply total_ret].
  destruct (_ >=? _); [|apply total_ret].
  apply total_bind; [apply total_finalize | intros ?; apply total_ret].
Qed.

Lemma total_chunks l chunks :
  marker_free chunks = true →
  total (foldM (process_chunk app filename timestamp m) l chunks).
Proof.
  intros Hm w Hr. rewrite chunks_loop by done.
  by apply total_foldM; [intros; apply total_process_line|].
Qed.

End Kept.

(** * The loop before its last [finalize]: the open segment is not uploaded *)

Lemma removelast_cons_nonempty {A} (x : A) (l : list A) :
  l ≠ [] → removelast (x :: l) = x :: removelast l.
Proof. by destruct l. Qed.

Lemma last_cons_nonempty {A} (x d : A) (l : list A) :
  l ≠ [] → List.last (x :: l) d = List.last l d.
Proof. by destruct l. Qed.

Section OpenLoop.

Variable app : App.
Variables (filename timestamp : string) (m : Z).

(** The locals when the rows are read and the last segment is still open. *)
Definition opened (h : string) (l : Locals) (rows : list string)
    (segs : list (list string)) : Locals :=
  {| uploaded_files :=
       uploaded_files l
       ++ segment_names filename timestamp (length (uploaded_files l))
            (length (removelast segs));
     current_file_buffer := csv_text (h :: List.last segs []);
     current_file_rows := len (List.last segs []);
     total_rows := total_rows l + len rows;
     file_index := file_index l + len (removelast segs);
     header := Some h |}.

Lemma rows_loop_open h rows : ∀ cur l w,
  Forall (λ r, PyFacts.nonblank r = true) rows →
  header l = Some h →
  current_file_buffer l = csv_text (h :: cur) →
  current_file_rows l = len cur →
  file_index l = len (uploaded_files l) + 1 →
  foldM (process_line app filename timestamp m) l rows w
  = bind (upload_all app (segment_files filename timestamp h (length (uploaded_files l))
                            (removelast (split_rows m cur rows))))
         (λ _, ret (opened h l rows (split_rows m cur rows))) w.
Proof.
  induction rows as [|r rs IH]; intros cur l w Hnb Hh Hb Hr Hi.
  - transitivity (ret (opened h l [] [cur]) w); [|reflexivity].
    simpl foldM. unfold ret, opened. f_equal. f_equal.
    destruct l; simpl in *. subst. rewrite app_nil_r.
    f_equal; try done; unfold len; simpl; lia.
  - inversion Hnb as [|? ? Hr1 Hrs]; subst.
    simpl foldM. simpl split_rows. rewrite <- Hr.
    unfold process_line at 1. unfold PyFacts.nonblank in Hr1.
    rewrite Hr1, Hh. simpl negb. cbv iota.
    pose proof (split_rows_nonempty m rs [r]) as Hne.
    destruct (current_file_rows l >=? m) eqn:E.
    + rewrite !bind_assoc.
      rewrite (bind_cong_l _ _ _ _ (finalize_open app filename timestamp h cur l w Hb Hi)).
      rewrite removelast_cons_nonempty by done.
      unfold upload_all, segment_files, segment_names.
      cbn [length seq map zip zip_with foldM fst snd].
      rewrite !bind_assoc. apply bind_ext. intros [] w1.
      set (l2 := {| uploaded_files :=
                      uploaded_files l
                      ++ [segment_name filename timestamp (length (uploaded_files l))];
                    current_file_buffer := (h +:+ Py.LF) +:+ r +:+ Py.LF;
                    current_file_rows := 1;
                    total_rows := total_rows l + 1;
                    file_index := file_index l + 1;
                    header := header l |}).
      transitivity (foldM (process_line app filename timestamp m) l2 rs w1);
        [reflexivity|].
      rewrite (IH [r] l2 w1); [|done|done| |done|].
      * assert (length (uploaded_files l2) = S (length (uploaded_files l))) as Hl
          by (simpl; rewrite length_app; simpl; lia).
        rewrite Hl. unfold segment_files, segment_names, upload_all.
        apply bind_ext. intros _ w2. f_equal.
        unfold opened, segment_names. rewrite Hl.
        rewrite last_cons_nonempty, removelast_cons_nonempty by done. simpl.
        rewrite <- app_assoc. simpl. f_equal; unfold len; simpl; lia.
      * simpl. by rewrite PyFacts.app_assoc.
      * simpl. unfold len in *. rewrite length_app. simpl. lia.
    + set (l2 := {| uploaded_files := uploaded_files l;
                    current_file_buffer := current_file_buffer l +:+ r +:+ Py.LF;
                    current_file_rows := current_file_rows l + 1;
                    total_rows := total_rows l + 1;
                    file_index := file_index l;
                    header := header l |}).
      transitivity (foldM (process_line app filename timestamp m) l2 rs w);
        [reflexivity|].
      rewrite (IH (cur ++ [r]) l2 w); [|done|done| | |done].
      * apply bind_ext. intros _ w2. f_equal.
        unfold opened. simpl. f_equal; unfold len; simpl; lia.
      * simpl current_file_buffer. rewrite Hb.
        symmetry. apply (csv_text_snoc (h :: cur) r).
      * simpl current_file_rows. unfold len in *. rewrite length_app. simpl. lia.
Qed.

End OpenLoop.

(** * A concrete deployment, used to run the model *)

Definition demo_config : Config.t :=
  {| Config.enabled := Some true;
     Config.endpoint := Some "localhost:9000";
     Config.access_key := Some "minioadmin";
     Config.secret_key := Some "minioadmin";
     Config.bucket_name := Some "superset-exports";
     Config.secure := Some false;
     Config.region := None;
     Config.max_rows_per_file := Some 2;
     Config.file_retention_seconds := Some 100 |}.

Definition demo_app : App :=
  {| minio_installed := true; MINIO_EXPORT_CONFIG := Some demo_config |}.

Definition empty_store : Server :=
  {| buckets := ∅; objects := ∅; locked := ∅; clock := 5000; calls := [] |}.

Definition fresh_world : World := {| self := __init__; store := empty_store |}.

(** Header [id,name] and three data rows, in two chunks. *)
Definition demo_chunks : list string :=
  ["id,name" +:+ Py.LF +:+ "1,a" +:+ Py.LF +:+ "2,b" +:+ Py.LF; "3,c" +:+ Py.LF].

(** * The properties of the design document *)

Lemma data_rows_lines chunks :
  1 ≤ len (data_rows chunks) →
  ∃ h, csv_lines chunks = h :: data_rows chunks.
Proof.
  unfold data_rows. destruct (csv_lines chunks) as [|h rows]; simpl.
  - unfold len. simpl. lia.
  - intros _. by exists h.
Qed.

Lemma unlocked_removable app filename timestamp m rows w :
  locked (store w) = ∅ → removable app filename timestamp m rows w.
Proof.
  intros Hl _. apply Forall_forall. intros n _. rewrite Hl. apply not_elem_of_empty.
Qed.

Lemma after_upload_calls app filename timestamp m h rows w :
  calls (store (after_upload app filename timestamp m h rows w))
  = calls (store (booted app w))
    ++ map (put_call (bucket_of (self (booted app w)))) (files_of filename timestamp m h rows).
Proof.
  simpl. by destruct (stored_all_frame (bucket_of (self (booted app w)))
                        (files_of filename timestamp m h rows) (store (booted app w)))
    as (_ & _ & _ & ->).
Qed.

(** Every uploaded file reads back as the header followed by the rows of
    its segment. *)
Lemma files_read_lines filename timestamp m chunks h rows :
  csv_lines chunks = h :: rows →
  map (λ nd : string * Body, read_lines nd.2) (files_of filename timestamp m h rows)
  = map (λ seg, h :: seg) (split_rows m [] rows).
Proof.
  intros Hl.
  pose proof (csv_lines_no_LF chunks) as Hlf. rewrite Hl in Hlf.
  apply Forall_cons in Hlf as [Hh Hrows].
  assert (Forall (λ seg, Forall (λ x, Py.count "010" x = O) seg) (split_rows m [] rows))
    as Hsegs.
  { apply Forall_forall. intros seg Hseg. apply Forall_forall. intros x Hx.
    eapply Forall_forall in Hrows; [apply Hrows|].
    rewrite <- (app_nil_l rows), <- (split_rows_concat m rows []).
    apply list_elem_of_In, in_concat. exists seg. by split; apply list_elem_of_In. }
  rewrite <- (map_map snd read_lines), files_bodies, map_map.
  apply map_ext_in. intros seg Hseg. apply read_lines_csv_text.
  constructor; [done|]. eapply Forall_forall in Hsegs; [apply Hsegs|].
  by apply list_elem_of_In.
Qed.

(** C1. For every finite chunk sequence with [n >= 1] data rows and every
    per-file limit [m > 0], on a usable configuration and a store that
    refuses no removal, the upload phase of [stream_csv_to_minio] issues
    exactly [ceil(n / m)] segment uploads before consolidation, and the call
    returns [total_rows = n] and [file_count = ceil(n / m)]. *)
Theorem C1_segment_count app filename timestamp chunks o w :
  ready app w = true →
  marker_free chunks = true →
  1 ≤ len (data_rows chunks) →
  0 < limit w o →
  locked (store w) = ∅ →
  ∃ w1 l files,
    upload_segments app filename timestamp (limit w o) chunks w = (w1, Ok l)
    ∧ calls (store w1)
      = calls (store (booted app w))
        ++ map (put_call (bucket_of (self (booted app w)))) files
    ∧ len files = ceil_div (len (data_rows chunks)) (limit w o)
    ∧ ∃ w2 name,
        stream_csv_to_minio app timestamp chunks filename o w
        = (w2, Ok (name, len (data_rows chunks),
                   ceil_div (len (data_rows chunks)) (limit w o))).
Proof.
  intros Hr Hm Hn Hlim Hlk.
  destruct (data_rows_lines chunks Hn) as [h Hl].
  set (rows := data_rows chunks) in *. set (m := limit w o) in *.
  destruct rows as [|r rs] eqn:Erows; [unfold len in Hn; simpl in Hn; lia|].
  destruct (split_rows_from_empty m r rs Hlim) as [Hcount _].
  exists (after_upload app filename timestamp m h (r :: rs) w),
         (finished filename timestamp h (with_header h) (r :: rs)
            (split_rows m [] (r :: rs))),
         (files_of filename timestamp m h (r :: rs)).
  split; [by apply upload_phase_ok|].
  split; [apply after_upload_calls|].
  split.
  { unfold len. rewrite files_length. apply Hcount. }
  eexists _, _.
  rewrite (stream_ok app filename timestamp chunks o h (r :: rs) w Hr Hm Hl
             (unlocked_removable _ _ _ _ _ _ Hlk)).
  unfold export_result. fold m. by rewrite Hcount.
Qed.

Lemma C1_segment_count_witness :
  ∃ w2 name,
    stream_csv_to_minio demo_app "20240101_120000" demo_chunks "data.csv" (Some 2)
      fresh_world
    = (w2, Ok (name, 3, 2)).
Proof.
  destruct (C1_segment_count demo_app "data.csv" "20240101_120000" demo_chunks
              (Some 2) fresh_world)
    as (w1 & l & files & _ & _ & _ & w2 & name & H);
    [reflexivity | reflexivity | vm_compute; intros E; discriminate E
    | reflexivity | reflexivity |].
  exists w2, name. exact H.
Defined.

(** The chunks read before the first one that carries the error marker. *)
Fixpoint before_marker (chunks : list string) : list string :=
  match chunks with
  | [] => []
  | c :: cs => if Py.contains "__STREAM_ERROR__" c then [] else c :: before_marker cs
  end.

(** The uploads among a list of calls: object name and payload, in order. *)
Definition puts (cs : list Call) : list (string * Body) :=
  omap (λ c, match c with PutObject _ n d _ => Some (n, d) | _ => None end) cs.

(** The calls of a client bootstrap. *)
Definition boot_calls (app : App) (w : World) : list Call :=
  match _client (self w) with
  | Some _ => []
  | None =>
      let b := default "superset-exports"
                 (Config.bucket_name (default Config.empty (MINIO_EXPORT_CONFIG app))) in
      if bool_decide (b ∈ buckets (store w)) then [BucketExists b]
      else [BucketExists b; MakeBucket b]
  end.

Lemma booted_calls app w :
  calls (store (booted app w)) = calls (store w) ++ boot_calls app w
  ∧ puts (boot_calls app w) = [].
Proof.
  unfold booted, boot_calls. destruct (_client (self w)); simpl.
  - by rewrite app_nil_r.
  - destruct (bool_decide _); simpl; [done|]. by rewrite <- app_assoc.
Qed.

Lemma puts_app cs1 cs2 : puts (cs1 ++ cs2) = puts cs1 ++ puts cs2.
Proof. apply omap_app. Qed.

Lemma puts_put_calls b files : puts (map (put_call b) files) = files.
Proof.
  induction files as [|[n d] files IH]; [done|]. simpl. by rewrite IH.
Qed.

Lemma before_marker_free chunks : marker_free chunks = true → before_marker chunks = chunks.
Proof.
  induction chunks as [|c chunks IH]; [done|]. simpl. intros H.
  apply andb_prop in H as [Hc H]. apply negb_true_iff in Hc. rewrite Hc.
  by rewrite IH.
Qed.

Lemma before_marker_split pre c post :
  marker_free pre = true → Py.contains "__STREAM_ERROR__" c = true →
  before_marker (pre ++ c :: post) = pre.
Proof.
  intros Hp Hc. induction pre as [|x pre IH]; simpl.
  - by rewrite Hc.
  - simpl in Hp. apply andb_prop in Hp as [Hx Hp]. apply negb_true_iff in Hx.
    rewrite Hx. by rewrite IH.
Qed.

Lemma Forall_removelast {A} (P : A → Prop) (l : list A) :
  Forall P l → Forall P (removelast l).
Proof.
  induction l as [|x [|y l] IH]; intros H; [done| constructor |].
  apply Forall_cons in H as [Hx H]. simpl. constructor; [done|]. by apply IH.
Qed.

(** The files of a list of segments read back as the header followed by the
    rows of the segment. *)
Lemma segment_files_shape filename timestamp h i m (segs : list (list string)) :
  Py.count "010" h = O →
  Forall (λ seg, Forall (λ x, Py.count "010" x = O) seg) segs →
  Forall (λ seg, len seg ≤ m) segs →
  Forall (λ nd : string * Body, ∃ seg, read_lines nd.2 = h :: seg ∧ len seg ≤ m)
         (segment_files filename timestamp h i segs)
  ∧ map (λ nd : string * Body, tail (read_lines nd.2))
        (segment_files filename timestamp h i segs)
    = segs.
Proof.
  intros Hh Hlf Hb.
  assert (map (λ nd : string * Body, read_lines nd.2)
              (segment_files filename timestamp h i segs)
          = map (λ seg, h :: seg) segs) as Hread.
  { rewrite <- (map_map snd read_lines). unfold segment_files.
    rewrite snd_zip by (by rewrite segment_names_length, length_map).
    rewrite map_map. apply map_ext_in. intros seg Hseg. apply read_lines_csv_text.
    constructor; [done|]. eapply Forall_forall in Hlf; [apply Hlf|].
    by apply list_elem_of_In. }
  split.
  - apply Forall_forall. intros nd Hnd.
    assert (read_lines nd.2 ∈ map (λ seg, h :: seg) segs) as Hin.
    { rewrite <- Hread. apply list_elem_of_fmap. by exists nd. }
    apply list_elem_of_fmap in Hin as (seg & -> & Hseg). exists seg. split; [done|].
    by eapply Forall_forall in Hb.
  - rewrite <- (map_map (λ nd : string * Body, read_lines nd.2) tail), Hread, map_map.
    simpl. by rewrite map_id.
Qed.

Lemma Forall_map_inv {A B} (f : A → B) (P : B → Prop) (l : list A) :
  Forall P (map f l) → Forall (λ x, P (f x)) l.
Proof.
  induction l as [|x l IH]; simpl; intros H; [constructor|].
  apply Forall_cons in H as [Hx H]. constructor; [done|]. by apply IH.
Qed.

Lemma removelast_map {A B} (f : A → B) (l : list A) :
  removelast (map f l) = map f (removelast l).
Proof.
  induction l as [|x [|y l] IH]; [done | done |].
  change (removelast (map f (x :: y :: l))) with (f x :: removelast (map f (y :: l))).
  by rewrite IH.
Qed.

(** Every segment but the open one is full. *)
Lemma split_rows_full m rows : ∀ cur,
  0 < m → len cur ≤ m →
  Forall (λ seg, len seg = m) (removelast (split_rows m cur rows)).
Proof.
  induction rows as [|r rs IH]; intros cur Hm Hc; simpl split_rows.
  - constructor.
  - destruct (len cur >=? m) eqn:E.
    + rewrite removelast_cons_nonempty by apply split_rows_nonempty.
      constructor; [lia|]. apply IH; [done|]. unfold len. simpl. lia.
    + apply IH; [done|]. unfold len in *. rewrite length_app. simpl. lia.
Qed.

Lemma split_rows_no_LF m rows :
  Forall (λ x, Py.count "010" x = O) rows →
  Forall (λ seg, Forall (λ x, Py.count "010" x = O) seg) (split_rows m [] rows).
Proof.
  intros Hrows. apply Forall_forall. intros seg Hseg. apply Forall_forall. intros x Hx.
  eapply Forall_forall in Hrows; [apply Hrows|].
  rewrite <- (app_nil_l rows), <- (split_rows_concat m rows []).
  apply list_elem_of_In, in_concat. exists seg. by split; apply list_elem_of_In.
Qed.

(** C2. Whatever the source, on a usable configuration and with a limit
    [m > 0], every segment the upload phase of [stream_csv_to_minio] puts
    into the store reads back as the shared header line followed by at most
    [m] data rows, and by exactly [m] of them for every segment but the last
    one uploaded; the data rows of the uploaded segments, in upload order,
    are a prefix of the data rows read before any error marker, so no row is
    cut between two segments; and when the phase succeeds they are all the
    data rows, and [total_rows] is their number: the header is counted
    neither in the per-segment bound nor in [total_rows]. *)
Theorem C2_segment_shape app filename timestamp m chunks w :
  ready app w = true →
  0 < m →
  ∃ w1 r cs,
    upload_segments app filename timestamp m chunks w = (w1, r)
    ∧ calls (store w1) = calls (store w) ++ cs
    ∧ Forall (λ nd, ∃ h seg, head (csv_lines (before_marker chunks)) = Some h
                             ∧ read_lines nd.2 = h :: seg ∧ len seg ≤ m)
             (puts cs)
    ∧ Forall (λ nd, len (tail (read_lines nd.2)) = m) (removelast (puts cs))
    ∧ (∃ rest, concat (map (λ nd, tail (read_lines nd.2)) (puts cs)) ++ rest
               = data_rows (before_marker chunks))
    ∧ (∀ l, r = Ok l →
            concat (map (λ nd, tail (read_lines nd.2)) (puts cs)) = data_rows chunks
            ∧ total_rows l = len (data_rows chunks)).
Proof.
  intros Hr Hpos.
  destruct (marker_free chunks) eqn:Hm.
  - (* no marker: the phase runs to its end *)
    rewrite (before_marker_free chunks Hm).
    destruct (csv_lines chunks) as [|h rows] eqn:Hl.
    + exists w, (Ok initial_locals), [].
      split; [by apply upload_segments_empty|]. rewrite app_nil_r.
      unfold data_rows. rewrite Hl. simpl.
      split; [done|]. split; [constructor|]. split; [constructor|].
      split; [by exists []|]. by intros ? [= <-].
    + pose proof (csv_lines_no_LF chunks) as Hlf. rewrite Hl in Hlf.
      apply Forall_cons in Hlf as [Hh Hrows].
      destruct (segment_files_shape filename timestamp h 0 m (split_rows m [] rows) Hh
                  (split_rows_no_LF m rows Hrows)
                  (split_rows_bound m rows [] Hpos ltac:(unfold len; simpl; lia)))
        as [Hshape Hcat].
      fold (files_of filename timestamp m h rows) in Hshape, Hcat.
      destruct (booted_calls app w) as [Hbc Hbp].
      exists (after_upload app filename timestamp m h rows w),
             (Ok (finished filename timestamp h (with_header h) rows
                    (split_rows m [] rows))),
             (boot_calls app w
              ++ map (put_call (bucket_of (self (booted app w))))
                   (files_of filename timestamp m h rows)).
      split; [by apply upload_phase_ok|].
      split; [by rewrite after_upload_calls, Hbc, <- app_assoc|].
      rewrite puts_app, Hbp, puts_put_calls. simpl.
      unfold data_rows. rewrite Hl. simpl.
      rewrite Hcat, (split_rows_concat m rows []). simpl.
      split; [|split; [|split]].
      * eapply Forall_impl; [apply Hshape|]. intros nd (seg & H1 & H2). by exists h, seg.
      * apply (Forall_map_inv (λ nd : string * Body, tail (read_lines nd.2))
                 (λ seg, len seg = m)).
        rewrite <- removelast_map, Hcat.
        apply split_rows_full; [done|]. unfold len. simpl. lia.
      * exists []. by rewrite app_nil_r.
      * intros ? [= <-]. split; [done|]. simpl. lia.
  - (* a marker: the phase stops there, the open segment is not uploaded *)
    destruct (marker_split chunks Hm) as (pre & c & post & -> & Hp & Hc).
    rewrite (before_marker_split pre c post Hp Hc).
    rewrite (upload_segments_marker app filename timestamp m pre c post w Hc).
    rewrite (bind_cong_l _ _ _ _ (chunks_loop app filename timestamp m pre _ w Hp)).
    destruct (csv_lines pre) as [|h rows] eqn:Hl.
    + exists w, (Raise (marker_error c)), []. rewrite app_nil_r.
      unfold data_rows. rewrite Hl. simpl.
      split; [reflexivity|]. split; [done|]. split; [constructor|].
      split; [constructor|]. split; [by exists []|]. intros ? E. discriminate E.
    + pose proof (csv_lines_nonblank pre) as Hnb. rewrite Hl in Hnb.
      apply Forall_cons in Hnb as [Hhb Hnb].
      rewrite (bind_cong_l _ _ _ _ (header_step app filename timestamp m h rows w Hhb)).
      rewrite (bind_cong_l _ _ _ _
                 (rows_loop_open app filename timestamp m h rows [] (with_header h) w
                    Hnb eq_refl eq_refl eq_refl eq_refl)).
      rewrite bind_assoc. simpl length.
      pose proof (csv_lines_no_LF pre) as Hlf. rewrite Hl in Hlf.
      apply Forall_cons in Hlf as [Hh Hrows].
      pose proof (split_rows_nonempty m rows []) as Hne.
      destruct (segment_files_shape filename timestamp h 0 m
                  (removelast (split_rows m [] rows)) Hh
                  (Forall_removelast _ _ (split_rows_no_LF m rows Hrows))
                  (Forall_removelast _ _
                     (split_rows_bound m rows [] Hpos ltac:(unfold len; simpl; lia))))
        as [Hshape Hcat].
      assert (concat (removelast (split_rows m [] rows)) ++ List.last (split_rows m [] rows) []
              = rows) as Hrest.
      { rewrite <- (split_rows_concat m rows []) at 3. simpl.
        rewrite (app_removelast_last [] Hne) at 3.
        rewrite concat_app. simpl. by rewrite app_nil_r. }
      unfold data_rows. rewrite Hl. simpl.
      destruct (segment_files filename timestamp h 0 (removelast (split_rows m [] rows)))
        as [|nb nbs] eqn:Ef.
      * exists w, (Raise (marker_error c)), []. rewrite app_nil_r.
        split; [reflexivity|]. split; [done|]. split; [constructor|].
        split; [constructor|].
        split; [|done]. simpl in *. exists (List.last (split_rows m [] rows) []).
        by rewrite <- Hcat in Hrest.
      * destruct (booted_calls app w) as [Hbc Hbp].
        rewrite (bind_ok _ _ _ _ _ (upload_all_ready app nb nbs w Hr)).
        eexists _, _, (boot_calls app w
                       ++ map (put_call (bucket_of (self (booted app w)))) (nb :: nbs)).
        split; [reflexivity|].
        split.
        { cbn [store]. destruct (stored_all_frame (bucket_of (self (booted app w)))
                                   (nb :: nbs) (store (booted app w)))
            as (_ & _ & _ & ->). by rewrite Hbc, <- app_assoc. }
        rewrite puts_app, Hbp, puts_put_calls, app_nil_l.
        split; [|split; [|split]].
        -- eapply Forall_impl; [apply Hshape|].
           intros nd (seg & H1 & H2). by exists h, seg.
        -- apply (Forall_map_inv (λ nd : string * Body, tail (read_lines nd.2))
                    (λ seg, len seg = m)).
           rewrite <- removelast_map, Hcat.
           apply Forall_removelast, split_rows_full; [done|]. unfold len. simpl. lia.
        -- exists (List.last (split_rows m [] rows) []). by rewrite Hcat.
        -- intros ? E. discriminate E.
Qed.

Lemma C2_segment_shape_witness :
  ∃ w1 r cs,
    upload_segments demo_app "data.csv" "20240101_120000" 2
      (demo_chunks ++ ["__STREAM_ERROR__: connection lost"]) fresh_world = (w1, r)
    ∧ calls (store w1) = calls (store fresh_world) ++ cs
    ∧ Forall (λ nd : string * Body,
                ∃ h seg, Some "id,name" = Some h ∧ read_lines nd.2 = h :: seg ∧ len seg ≤ 2)
             (puts cs).
Proof.
  destruct (C2_segment_shape demo_app "data.csv" "20240101_120000" 2
              (demo_chunks ++ ["__STREAM_ERROR__: connection lost"]) fresh_world)
    as (w1 & r & cs & H1 & H2 & H3 & _); [reflexivity | reflexivity |].
  exists w1, r, cs. split; [exact H1|]. split; [exact H2 | exact H3].
Defined.

(** C3 (the code departs from it). A source that yields only the header
    line is uploaded as a one-line file and reported as a successful export
    of zero rows: no empty-result error is raised and one object is
    created. *)
Theorem C3_header_only_is_uploaded :
  ∃ w',
    stream_csv_to_minio demo_app "20240101_120000" ["id,name" +:+ Py.LF] "data.csv" None
      fresh_world
    = (w', Ok ("exports/20240101_120000_data.csv", 0, 1))
    ∧ PutObject "superset-exports" "exports/20240101_120000_data.csv"
        (Raw ("id,name" +:+ Py.LF)) "text/csv" ∈ calls (store w')
    ∧ ∃ o, objects (store w') !! ("superset-exports", "exports/20240101_120000_data.csv")
           = Some o.
Proof.
  eexists. split; [vm_compute; reflexivity|].
  split.
  - simpl. do 2 right. left.
  - eexists. vm_compute. reflexivity.
Qed.

(** A source without any non-blank line does fail with the empty-result
    error, and the world is left as it was: no client call is made. *)
Lemma empty_source_fails app filename timestamp chunks o w :
  marker_free chunks = true → csv_lines chunks = [] →
  stream_csv_to_minio app timestamp chunks filename o w
  = (w, Raise (ValueError "No data to export")).
Proof. apply stream_empty. Qed.


(** C4 as stated fails: the message is cut at the first colon of the chunk,
    not at the colon that follows the marker.  Here the chunk is
    [a:b__STREAM_ERROR__: boom], the embedded message is [boom], and the
    error raised carries [b__STREAM_ERROR__: boom]. *)
Lemma C4_message_cut_at_first_colon :
  "a:b__STREAM_ERROR__: boom" = "a:b" +:+ "__STREAM_ERROR__" +:+ ": " +:+ "boom"
  ∧ stream_csv_to_minio demo_app "20240101_120000" ["a:b__STREAM_ERROR__: boom"]
      "data.csv" None fresh_world
    = (fresh_world, Raise (ValueError "b__STREAM_ERROR__: boom"))
  ∧ ValueError "b__STREAM_ERROR__: boom" ≠ ValueError "boom".
Proof. split; [reflexivity|]. split; [vm_compute; reflexivity | discriminate]. Qed.

(** C4, amended. When the first chunk that contains the marker has no colon
    before the marker, the chunks before it are processed as data, the chunk
    itself is not, and the call raises [ValueError] with the text that follows
    the marker's colon, stripped of surrounding white space.  The world is the
    one reached on the earlier chunks: no removal was issued and every object
    stored or uploaded so far is still in the store. *)
Theorem C4_sentinel_aborts app filename timestamp o pre p rest post w :
  ready app w = true →
  marker_free pre = true →
  Py.count ":" p = O →
  ∃ w' l,
    foldM (process_chunk app filename timestamp (limit w o)) initial_locals pre w
    = (w', Ok l)
    ∧ stream_csv_to_minio app timestamp
        (pre ++ (p +:+ "__STREAM_ERROR__" +:+ ":" +:+ rest) :: post) filename o w
      = (w', Raise (ValueError (Py.strip rest)))
    ∧ kept w w'.
Proof.
  intros Hr Hm Hp.
  destruct (total_chunks app filename timestamp (limit w o) initial_locals pre Hm w Hr)
    as (w' & l & Hpre & _).
  exists w', l. split; [done|]. split.
  - rewrite stream_marker by apply contains_app.
    rewrite (bind_ok _ _ _ _ _ Hpre). by rewrite marker_error_message.
  - by eapply chunks_kept.
Qed.

Lemma C4_sentinel_aborts_witness :
  ∃ w',
    stream_csv_to_minio demo_app "20240101_120000"
      (demo_chunks ++ ["__STREAM_ERROR__: connection lost"]) "data.csv" (Some 2)
      fresh_world
    = (w', Raise (ValueError "connection lost"))
    ∧ kept fresh_world w'.
Proof.
  destruct (C4_sentinel_aborts demo_app "data.csv" "20240101_120000" (Some 2) demo_chunks
              "" " connection lost" [] fresh_world)
    as (w' & l & _ & H & Hk); [reflexivity | reflexivity | reflexivity |].
  exists w'. split; [exact H | exact Hk].
Defined.

(** The name the design document gives to segment [i] of a job whose base
    filename is [stem] followed by the extension [ext]. *)
Definition documented_segment_name (timestamp stem ext : string) (i : Z) : string :=
  "exports/" +:+ timestamp +:+ "_" +:+ stem +:+ "_" +:+ pretty i +:+ ext.

(** The names of the objects put by a list of calls, in order. *)
Definition put_names (cs : list Call) : list string :=
  omap (λ c, match c with PutObject _ n _ _ => Some n | _ => None end) cs.

(** C5 as stated fails for a base filename that does not end in [.csv]:
    with [report.txt] the second segment is named [report.txt_2.csv], not
    [report_2.txt]. *)
Lemma C5_extension_not_kept :
  ∃ w1 l,
    upload_segments demo_app ("report" +:+ ".txt") "20240101_120000" 2 demo_chunks
      fresh_world = (w1, Ok l)
    ∧ put_names (calls (store w1))
      = ["exports/20240101_120000_report.txt"; "exports/20240101_120000_report.txt_2.csv"]
    ∧ put_names (calls (store w1)) !! 1%nat
      ≠ Some (documented_segment_name "20240101_120000" "report" ".txt" 2).
Proof.
  eexists _, _. split; [vm_compute; reflexivity|].
  split; [vm_compute; reflexivity|]. vm_compute. intros E. discriminate E.
Qed.

(** C5, amended. For a base filename [stem.csv] whose stem contains no
    further [.csv], the first segment is uploaded under the base filename
    unchanged, segment [i >= 2] under [stem_i.csv], and every segment name
    starts with [exports/<timestamp>_] for the one timestamp of the job. *)
Theorem C5_segment_names app stem timestamp m chunks h rows w :
  ready app w = true →
  marker_free chunks = true →
  csv_lines chunks = h :: rows →
  Py.contains ".csv" stem = false →
  ∃ w1 l files,
    upload_segments app (stem +:+ ".csv") timestamp m chunks w = (w1, Ok l)
    ∧ calls (store w1)
      = calls (store (booted app w))
        ++ map (put_call (bucket_of (self (booted app w)))) files
    ∧ uploaded_files l = map fst files
    ∧ map fst files !! 0%nat = Some ("exports/" +:+ timestamp +:+ "_" +:+ stem +:+ ".csv")
    ∧ (∀ i n, map fst files !! S i = Some n →
              n = documented_segment_name timestamp stem ".csv" (Z.of_nat (S i) + 1))
    ∧ Forall (λ n, Py.startswith ("exports/" +:+ timestamp +:+ "_") n = true)
             (map fst files).
Proof.
  intros Hr Hm Hl Hstem.
  exists (after_upload app (stem +:+ ".csv") timestamp m h rows w),
         (finished (stem +:+ ".csv") timestamp h (with_header h) rows (split_rows m [] rows)),
         (files_of (stem +:+ ".csv") timestamp m h rows).
  split; [by apply upload_phase_ok|].
  split; [apply after_upload_calls|].
  rewrite files_names. unfold names_of, segment_names.
  split; [done|]. split; [|split].
  - pose proof (split_rows_nonempty m rows []) as Hne.
    destruct (split_rows m [] rows); [done|]. reflexivity.
  - intros i n Hi. rewrite list_lookup_fmap in Hi.
    destruct (seq 0 (length (split_rows m [] rows)) !! S i) as [j|] eqn:Ej; [|done].
    apply lookup_seq in Ej as [-> _]. simpl in Hi. apply (inj Some) in Hi. subst n.
    rewrite segment_name_next, PyFacts.replace_csv_stem by done. reflexivity.
  - apply Forall_forall. intros n Hn.
    apply list_elem_of_fmap in Hn as (i & -> & _). apply segment_name_prefix.
Qed.

Lemma C5_segment_names_witness :
  ∃ w1 l (files : list (string * Body)),
    upload_segments demo_app ("data" +:+ ".csv") "20240101_120000" 2 demo_chunks
      fresh_world = (w1, Ok l)
    ∧ uploaded_files l = map fst files
    ∧ map fst files !! 0%nat = Some "exports/20240101_120000_data.csv"
    ∧ ∀ n, map fst files !! 1%nat = Some n → n = "exports/20240101_120000_data_2.csv".
Proof.
  destruct (C5_segment_names demo_app "data" "20240101_120000" 2 demo_chunks
              "id,name" ["1,a"; "2,b"; "3,c"] fresh_world)
    as (w1 & l & files & H1 & _ & H2 & H3 & H4 & _);
    [reflexivity | reflexivity | reflexivity | reflexivity |].
  exists w1, l, files. split; [exact H1|]. split; [exact H2|]. split; [exact H3|].
  intros n Hn. exact (H4 O n Hn).
Defined.

Lemma job_prefix_app timestamp (x : string) :
  Py.startswith (job_prefix timestamp) ("exports/" +:+ timestamp +:+ "_" +:+ x) = true.
Proof.
  unfold job_prefix. rewrite <- !PyFacts.app_assoc. apply PyFacts.startswith_app.
Qed.

(** What a successful call returns and leaves behind. *)
Lemma stream_success_explicit app filename timestamp chunks o w w' r :
  stream_csv_to_minio app timestamp chunks filename o w = (w', Ok r) →
  ∃ h rows,
    ready app w = true ∧ marker_free chunks = true ∧ csv_lines chunks = h :: rows
    ∧ w' = after_export app filename timestamp (limit w o) h rows w
    ∧ r = export_result filename timestamp (limit w o) rows.
Proof.
  intros H. pose proof H as H'.
  apply stream_success in H' as (Hm & Hr & h & rows & Hl & Hrm).
  rewrite (stream_ok app filename timestamp chunks o h rows w Hr Hm Hl Hrm) in H.
  injection H as <- <-. by exists h, rows.
Qed.

(** C6. After a successful call on a store that held nothing under the
    job's prefix, exactly one object is stored under that prefix, and it is
    the one whose name is returned.  With one segment it is the CSV object,
    named by the base filename, and no archive exists; with several segments
    it is the archive, and none of the segment objects is left. *)
Theorem C6_single_deliverable app filename timestamp chunks o w w' name total count :
  stream_csv_to_minio app timestamp chunks filename o w = (w', Ok (name, total, count)) →
  (∀ n, Py.startswith (job_prefix timestamp) n = true →
        objects (store w) !! (bucket_of (self w'), n) = None) →
  1 ≤ count
  ∧ Py.startswith (job_prefix timestamp) name = true
  ∧ ∃ obj,
      (∀ n, Py.startswith (job_prefix timestamp) n = true →
            objects (store w') !! (bucket_of (self w'), n)
            = if decide (n = name) then Some obj else None)
      ∧ (count = 1 →
         name = "exports/" +:+ timestamp +:+ "_" +:+ filename ∧ ∃ s, body obj = Raw s)
      ∧ (1 < count →
         name = zip_name filename timestamp
         ∧ (∃ es, body obj = ZipArchive es)
         ∧ Forall (λ n, n = name ∨ objects (store w') !! (bucket_of (self w'), n) = None)
                  (segment_names filename timestamp 0 (Z.to_nat count))).
Proof.
  intros H Hfresh.
  apply stream_success_explicit in H as (h & rows & Hr & Hm & Hl & -> & Hres).
  unfold export_result in Hres. injection Hres as -> _ ->.
  set (m := limit w o) in *.
  pose proof (split_rows_nonempty m rows []) as Hne.
  pose proof (files_names filename timestamp m h rows) as Hnames.
  pose proof (files_length filename timestamp m h rows) as Hlen.
  assert (∀ n, Py.startswith (job_prefix timestamp) n = true →
            objects (store (booted app w)) !! (bucket_of (self (booted app w)), n) = None)
    as Hfresh'.
  { intros n Hn. destruct (booted_frame app w) as (-> & _).
    specialize (Hfresh n Hn). unfold after_export in Hfresh.
    by destruct (1 <? _) in Hfresh. }
  clear Hfresh.
  split. { unfold len. destruct (split_rows m [] rows); [done | simpl; lia]. }
  unfold after_export. destruct (1 <? len (split_rows m [] rows)) eqn:E.
  - (* several segments: the archive *)
    split; [apply job_prefix_app|].
    eexists (new_object _ _ _). split; [|split].
    + intros n Hn. simpl.
      destruct (decide (n = zip_name filename timestamp)) as [->|Hz].
      * by rewrite lookup_insert_eq.
      * rewrite lookup_insert_ne by (by intros [= <-]).
        rewrite taken_all_lookup. simpl.
        destruct (bool_decide _) eqn:Eb; [done|].
        apply bool_decide_eq_false in Eb.
        rewrite stored_all_lookup_other; [by apply Hfresh'|].
        intros n' [= <-] Hin. apply Eb. split; [done|]. by rewrite <- Hnames.
    + intros Hone. lia.
    + intros _. split; [done|]. split; [by eexists|].
      apply Forall_forall. intros n Hn.
      destruct (decide (n = zip_name filename timestamp)) as [->|Hz]; [by left|right].
      simpl. rewrite lookup_insert_ne by (by intros [= <-]).
      rewrite taken_all_lookup. simpl. rewrite bool_decide_eq_true_2; [done|].
      split; [done|]. unfold names_of. unfold len in Hn. by rewrite Nat2Z.id in Hn.
  - (* one segment: the CSV object *)
    destruct (split_rows m [] rows) as [|seg [|seg2 segs]] eqn:Es; [done| |].
    2:{ exfalso. apply Z.ltb_ge in E. unfold len in E. simpl length in E. lia. }
    split; [apply job_prefix_app|].
    exists (new_object (segment_name filename timestamp 0) (Raw (csv_text (h :: seg)))
              (store (booted app w))).
    assert (files_of filename timestamp m h rows
            = [(segment_name filename timestamp 0, Raw (csv_text (h :: seg)))]) as Hf.
    { unfold files_of. by rewrite Es. }
    split; [|split].
    + intros n Hn. simpl. rewrite Hf. simpl.
      destruct (decide (n = segment_name filename timestamp 0)) as [->|Hz].
      * by rewrite lookup_insert_eq.
      * rewrite lookup_insert_ne by (by intros [= <-]). by apply Hfresh'.
    + intros _. split; [done|]. by eexists.
    + unfold len. simpl. lia.
Qed.

(** The demo export: three rows with a limit of two rows per file. *)
Definition demo_run : World * result (string * Z * Z) :=
  stream_csv_to_minio demo_app "20240101_120000" demo_chunks "data.csv" (Some 2)
    fresh_world.

Lemma C6_single_deliverable_witness :
  ∃ obj es,
    objects (store demo_run.1) !! ("superset-exports", "exports/20240101_120000_data.zip")
    = Some obj
    ∧ body obj = ZipArchive es
    ∧ objects (store demo_run.1) !! ("superset-exports", "exports/20240101_120000_data.csv")
      = None.
Proof.
  destruct (C6_single_deliverable demo_app "data.csv" "20240101_120000" demo_chunks
              (Some 2) fresh_world demo_run.1 "exports/20240101_120000_data.zip" 3 2)
    as (_ & _ & obj & Hobj & _ & Hzip);
    [vm_compute; reflexivity | intros n _; apply lookup_empty |].
  destruct Hzip as (_ & (es & Hes) & _); [reflexivity|].
  exists obj, es. split; [|split].
  - exact (Hobj "exports/20240101_120000_data.zip" eq_refl).
  - exact Hes.
  - exact (Hobj "exports/20240101_120000_data.csv" eq_refl).
Defined.

(** C7. For every successful export of more than one segment, the object
    returned is an archive with [file_count] entries; the entries are, in
    order, the uploaded segment files, each keyed by the bare filename of
    the object it was uploaded as; and the data rows of the entries, read in
    entry order with each entry's header line dropped, are the data rows of
    the source in their original order. *)
Theorem C7_archive_round_trip app filename timestamp chunks o w w' name total count :
  stream_csv_to_minio app timestamp chunks filename o w = (w', Ok (name, total, count)) →
  1 < count →
  ∃ obj es files,
    objects (store w') !! (bucket_of (self w'), name) = Some obj
    ∧ body obj = ZipArchive es
    ∧ len es = count
    ∧ map fst files = segment_names filename timestamp 0 (Z.to_nat count)
    ∧ (∃ cs, calls (store w')
             = calls (store (booted app w))
               ++ map (put_call (bucket_of (self w'))) files ++ cs)
    ∧ es = map (λ nd, (Py.basename nd.1, nd.2)) files
    ∧ concat (map (λ e, tail (read_lines e.2)) es) = data_rows chunks.
Proof.
  intros H Hmany.
  apply stream_success_explicit in H as (h & rows & Hr & Hm & Hl & -> & Hres).
  unfold export_result in Hres. injection Hres as -> _ ->.
  set (m := limit w o) in *.
  unfold after_export.
  assert ((1 <? len (split_rows m [] rows)) = true) as -> by lia.
  exists (new_object (zip_name filename timestamp)
            (ZipArchive (archive_entries (files_of filename timestamp m h rows)))
            (taken_all (bucket_of (self (booted app w))) (names_of filename timestamp m rows)
               (store (after_upload app filename timestamp m h rows w)))),
         (archive_entries (files_of filename timestamp m h rows)),
         (files_of filename timestamp m h rows).
  split; [simpl; by rewrite lookup_insert_eq|].
  split; [done|].
  split. { unfold len, archive_entries. by rewrite length_map, files_length. }
  split. { rewrite files_names. unfold names_of, len. by rewrite Nat2Z.id. }
  split.
  { eexists. simpl.
    destruct (taken_all_frame (bucket_of (self (booted app w)))
                (names_of filename timestamp m rows)
                (stored_all (bucket_of (self (booted app w)))
                   (files_of filename timestamp m h rows) (store (booted app w))))
      as (_ & _ & _ & ->).
    destruct (stored_all_frame (bucket_of (self (booted app w)))
                (files_of filename timestamp m h rows) (store (booted app w)))
      as (_ & _ & _ & ->).
    rewrite <- !app_assoc. reflexivity. }
  split; [done|].
  unfold archive_entries. rewrite map_map. simpl.
  rewrite <- (map_map (λ nd : string * Body, read_lines nd.2) tail).
  rewrite (files_read_lines filename timestamp m chunks h rows Hl), map_map. simpl.
  rewrite map_id. unfold data_rows. rewrite Hl. apply (split_rows_concat m rows []).
Qed.

Lemma C7_archive_round_trip_witness :
  ∃ obj es,
    objects (store demo_run.1) !! ("superset-exports", "exports/20240101_120000_data.zip")
    = Some obj
    ∧ body obj = ZipArchive es
    ∧ map fst es = ["20240101_120000_data.csv"; "20240101_120000_data_2.csv"]
    ∧ concat (map (λ e : string * Body, tail (read_lines e.2)) es) = ["1,a"; "2,b"; "3,c"].
Proof.
  destruct (C7_archive_round_trip demo_app "data.csv" "20240101_120000" demo_chunks
              (Some 2) fresh_world demo_run.1 "exports/20240101_120000_data.zip" 3 2)
    as (obj & es & files & Hobj & Hes & _ & Hnames & _ & Hentries & Hrows);
    [vm_compute; reflexivity | reflexivity |].
  exists obj, es. split; [exact Hobj|]. split; [exact Hes|]. split; [|exact Hrows].
  rewrite Hentries, map_map. simpl.
  rewrite <- (map_map fst Py.basename), Hnames. reflexivity.
Defined.

(** A bucket holding an old export, a recent export, an old object outside
    [exports/], and an export without a timestamp. *)
Definition stocked_store (locks : gset (string * string)) : Server :=
  {| buckets := {[ "superset-exports" ]};
     objects :=
       <[("superset-exports", "exports/old.csv") :=
           {| body := Raw "h"; content_type := "text/csv"; last_modified := Some 100 |}]>
       (<[("superset-exports", "exports/new.csv") :=
           {| body := Raw "h"; content_type := "text/csv"; last_modified := Some 900 |}]>
       (<[("superset-exports", "other/old.csv") :=
           {| body := Raw "h"; content_type := "text/csv"; last_modified := Some 100 |}]>
       (<[("superset-exports", "exports/older.csv") :=
           {| body := Raw "h"; content_type := "text/csv"; last_modified := Some 50 |}]>
        ∅)));
     locked := locks;
     clock := 1000;
     calls := [] |}.

Definition stocked_world (locks : gset (string * string)) : World :=
  {| self := __init__; store := stocked_store locks |}.

(** The object names the calls tried to remove, in order. *)
Definition removal_attempts (cs : list Call) : list string :=
  omap (λ c, match c with RemoveObject _ n => Some n | _ => None end) cs.

Lemma removal_attempts_none cs : Forall no_removal cs → removal_attempts cs = [].
Proof.
  induction cs as [|c cs IH]; [done|]. intros H.
  apply Forall_cons in H as [Hc H]. destruct c; simpl; try done; by apply IH.
Qed.

Lemma boot_calls_no_removal app w : Forall no_removal (boot_calls app w).
Proof.
  unfold boot_calls. destruct (_client (self w)); [constructor|].
  destruct (bool_decide _); by repeat constructor.
Qed.

(** Whatever its outcome, a sweep leaves every object and every lock as it
    was, and none of its calls is a removal. *)
Lemma cleanup_frame app now w w' (r : result Z) :
  cleanup_old_files app now w = (w', r) →
  objects (store w') = objects (store w)
  ∧ locked (store w') = locked (store w)
  ∧ ∃ cs, calls (store w') = calls (store w) ++ cs ∧ Forall no_removal cs.
Proof.
  intros H. destruct (ready app w) eqn:Hr.
  2:{ destruct (initialize_fail app w Hr) as (w1 & e & Hi & Hs).
      unfold cleanup_old_files in H. rewrite (bind_raise _ _ _ _ _ Hi) in H.
      injection H as <- _. rewrite Hs. split; [done|]. split; [done|].
      exists []. by rewrite app_nil_r. }
  destruct (booted_frame app w) as (Hobj & Hlk & _).
  destruct (booted_calls app w) as [Hcalls _].
  pose proof (boot_calls_no_removal app w) as Hboot.
  destruct (representable app now w) eqn:Hrep.
  - rewrite cleanup_outcome in H by done. injection H as <- _.
    split; [done|]. split; [done|].
    exists (boot_calls app w ++ [ListObjects (sweep_bucket app w) "exports/"]).
    split.
    + simpl. by rewrite Hcalls, <- app_assoc.
    + apply Forall_app. split; [done|]. by repeat constructor.
  - rewrite cleanup_overflow in H by done. injection H as <- _.
    split; [done|]. split; [done|]. by exists (boot_calls app w).
Qed.

(** C8 (the code departs from it). The sweep compares the last-modified
    time the client reports, an aware datetime, with a cutoff computed from
    [datetime.now()], a naive one, and that comparison raises [TypeError] at
    the first listed object that carries a date.  Here the bucket holds two
    exports older than the cutoff: the sweep raises, returns no count, asks
    for no removal, and both exports stay. *)
Theorem C8_sweep_raises_on_dated_objects :
  ∃ w',
    cleanup_old_files demo_app 1000 (stocked_world ∅)
    = (w', Raise (TypeError "can't compare offset-naive and offset-aware datetimes"))
    ∧ sweep_cutoff demo_app 1000 (stocked_world ∅) = 900
    ∧ doomed 900 (sweep_listing demo_app (stocked_world ∅))
      = ["exports/old.csv"; "exports/older.csv"]
    ∧ removal_attempts (calls (store w')) = []
    ∧ is_Some (objects (store w') !! ("superset-exports", "exports/old.csv"))
    ∧ is_Some (objects (store w') !! ("superset-exports", "exports/older.csv")).
Proof.
  eexists. split; [vm_compute; reflexivity|].
  split; [reflexivity|]. split; [vm_compute; reflexivity|].
  split; [vm_compute; reflexivity|].
  split; eexists; vm_compute; reflexivity.
Qed.




(** * The rest of the module

    The remaining sections cover the code the design document does not
    speak about: the outcomes of the client bootstrap, the one-shot upload
    operations, the presigned link, and the two export commands that drive
    the manager. *)

(** ** The client bootstrap, outcome by outcome *)

(** [is_minio_export_enabled] *)
Definition is_minio_export_enabled (app : App) : bool :=
  let config := default Config.empty (MINIO_EXPORT_CONFIG app) in
  default false (Config.enabled config).

Lemma initialize_cached app w c :
  _client (self w) = Some c → _initialize_client app w = (w, Ok c).
Proof.
  intros H. unfold _initialize_client. unfold bind at 1. simpl. by rewrite H.
Qed.

(** The store answers every bucket call, so a bootstrap raises only on
    the configuration: it then leaves the store alone and installs no
    client. *)
Lemma initialize_raise app w w1 e :
  _initialize_client app w = (w1, Raise e) →
  _client (self w) = None ∧ _client (self w1) = None ∧ store w1 = store w.
Proof.
  unfold _initialize_client. unfold bind at 1. simpl.
  destruct (_client (self w)) as [c|] eqn:Hc; [done|].
  destruct (negb (minio_installed app)).
  { intros [= <- _]. by rewrite Hc. }
  unfold bind at 1. simpl.
  destruct (negb _); [by intros [= <- _]|].
  destruct (_ || _); [by intros [= <- _]|].
  unfold bind, bucket_exists, make_bucket, bind, get_store, set_store, ret. simpl.
  by destruct (negb _).
Qed.

(** Whatever the outcome, a bootstrap that found the package has loaded the
    application's configuration into the manager. *)
Lemma initialize_config app w w1 r :
  _client (self w) = None → minio_installed app = true →
  _initialize_client app w = (w1, r) →
  _config (self w1) = default Config.empty (MINIO_EXPORT_CONFIG app).
Proof.
  intros Hc Hi. unfold _initialize_client. unfold bind at 1. simpl.
  rewrite Hc, Hi. simpl. unfold bind at 1. simpl.
  destruct (negb _); [by intros [= <- _]|].
  destruct (_ || _); [by intros [= <- _]|].
  unfold bind, bucket_exists, make_bucket, bind, get_store, set_store, ret. simpl.
  destruct (negb _); by intros [= <- _].
Qed.

(** X1. Once [_initialize_client] has succeeded on a manager, every later
    call returns the same client handle and changes nothing: the bucket is
    not checked again, nothing is created, and the configuration is not read
    again, even if the application's configuration has changed meanwhile. *)
Theorem X1_client_built_once app app' w w1 c :
  _initialize_client app w = (w1, Ok c) →
  _initialize_client app' w1 = (w1, Ok c).
Proof.
  intros H. apply initialize_cached.
  destruct (ready app w) eqn:Hr.
  - destruct (initialize_ok app w Hr) as (c' & Hi & Hc).
    rewrite Hi in H. by injection H as <- <-.
  - destruct (initialize_fail app w Hr) as (w' & e & Hi & _). by rewrite Hi in H.
Qed.

Lemma X1_client_built_once_witness :
  ∃ w1 c,
    _initialize_client demo_app fresh_world = (w1, Ok c)
    ∧ _initialize_client {| minio_installed := false; MINIO_EXPORT_CONFIG := None |} w1
      = (w1, Ok c).
Proof.
  eexists _, _. split; [vm_compute; reflexivity|].
  apply (X1_client_built_once demo_app _ fresh_world). vm_compute. reflexivity.
Defined.

(** X2. When [is_minio_export_enabled] is false (the flag is off or the
    configuration is absent), the bootstrap of a manager without a client
    raises [ValueError] "MinIO export is not enabled in configuration"
    before any call to the store; the manager still has no client, but its
    configuration has been replaced by the application's. *)
Theorem X2_disabled_export_is_refused app w :
  _client (self w) = None →
  minio_installed app = true →
  is_minio_export_enabled app = false →
  _initialize_client app w
  = ({| self := {| _client := None;
                   _config := default Config.empty (MINIO_EXPORT_CONFIG app) |};
        store := store w |},
     Raise (ValueError "MinIO export is not enabled in configuration")).
Proof.
  intros Hc Hi He. unfold is_minio_export_enabled in He.
  unfold _initialize_client. unfold bind at 1. simpl.
  rewrite Hc, Hi. simpl. unfold bind at 1. simpl. by rewrite He.
Qed.

Lemma X2_disabled_export_is_refused_witness :
  _initialize_client {| minio_installed := true; MINIO_EXPORT_CONFIG := None |} fresh_world
  = (fresh_world, Raise (ValueError "MinIO export is not enabled in configuration")).
Proof.
  apply (X2_disabled_export_is_refused
           {| minio_installed := true; MINIO_EXPORT_CONFIG := None |} fresh_world);
    reflexivity.
Defined.

(** X3. When the export is enabled but the access key or the secret key is
    missing or empty, the bootstrap raises [ValueError] "MinIO access_key and
    secret_key must be configured in MINIO_EXPORT_CONFIG": no client is
    installed and the store receives no call, so no bucket is checked or
    created. *)
Theorem X3_missing_credentials app w :
  _client (self w) = None →
  minio_installed app = true →
  is_minio_export_enabled app = true →
  default "" (Config.access_key (default Config.empty (MINIO_EXPORT_CONFIG app))) = ""
  ∨ default "" (Config.secret_key (default Config.empty (MINIO_EXPORT_CONFIG app))) = "" →
  _initialize_client app w
  = ({| self := {| _client := None;
                   _config := default Config.empty (MINIO_EXPORT_CONFIG app) |};
        store := store w |},
     Raise (ValueError
       "MinIO access_key and secret_key must be configured in MINIO_EXPORT_CONFIG")).
Proof.
  intros Hc Hi He Hk. unfold is_minio_export_enabled in He.
  unfold _initialize_client. unfold bind at 1. simpl.
  rewrite Hc, Hi. simpl. unfold bind at 1. simpl. rewrite He. simpl.
  destruct Hk as [-> | ->]; simpl; [done|]. by rewrite orb_true_r.
Qed.

(** An enabled configuration whose secret key is the empty string. *)
Definition keyless_app : App :=
  {| minio_installed := true;
     MINIO_EXPORT_CONFIG :=
       Some {| Config.enabled := Some true; Config.endpoint := None;
               Config.access_key := Some "minioadmin"; Config.secret_key := Some "";
               Config.bucket_name := None; Config.secure := None;
               Config.region := None; Config.max_rows_per_file := Some 500000;
               Config.file_retention_seconds := None |} |}.

Lemma X3_missing_credentials_witness :
  ∃ w', _initialize_client keyless_app fresh_world
        = (w', Raise (ValueError
             "MinIO access_key and secret_key must be configured in MINIO_EXPORT_CONFIG"))
        ∧ store w' = empty_store.
Proof.
  eexists. split.
  - apply (X3_missing_credentials keyless_app fresh_world);
      [reflexivity | reflexivity | reflexivity | right; reflexivity].
  - reflexivity.
Defined.

(** X4. A bootstrap that fails on the configuration (package missing,
    export disabled, credentials missing) is not remembered: the manager is
    left without a client and the store as it was, so a later call reads the
    configuration again and, if it is usable by then, builds the client. *)
Theorem X4_failed_bootstrap_is_retried app app' w :
  ready app w = false →
  configured app' = true →
  ∃ w1 e,
    _initialize_client app w = (w1, Raise e)
    ∧ _client (self w1) = None
    ∧ store w1 = store w
    ∧ ∃ w2 r, _initialize_client app' w1 = (w2, r)
              ∧ _client (self w2) = Some (new_client app').
Proof.
  intros Hr Hcf. destruct (initialize_fail app w Hr) as (w1 & e & Hi & Hs).
  exists w1, e. split; [done|].
  pose proof (initialize_raise app w w1 e Hi) as (_ & Hc & _).
  split; [done|]. split; [done|].
  destruct (initialize_ok app' w1) as (c & Hi' & _).
  { unfold ready. by rewrite Hc. }
  exists (booted app' w1), (Ok c). split; [done|].
  unfold booted. by rewrite Hc.
Qed.

Lemma X4_failed_bootstrap_is_retried_witness :
  ∃ w1 w2 r,
    _initialize_client keyless_app fresh_world
    = (w1, Raise (ValueError
         "MinIO access_key and secret_key must be configured in MINIO_EXPORT_CONFIG"))
    ∧ _client (self w1) = None
    ∧ _initialize_client demo_app w1 = (w2, r)
    ∧ _client (self w2) = Some (new_client demo_app).
Proof.
  destruct (X4_failed_bootstrap_is_retried keyless_app demo_app fresh_world)
    as (w1 & e & H1 & Hc1 & _ & w2 & r & H2 & Hc2); [reflexivity | reflexivity |].
  assert (e = ValueError
            "MinIO access_key and secret_key must be configured in MINIO_EXPORT_CONFIG")
    as -> by (vm_compute in H1; by injection H1 as _ <-).
  exists w1, w2, r. split; [exact H1|]. split; [exact Hc1|]. split; [exact H2 | exact Hc2].
Defined.

(** X5. The first successful bootstrap of a manager asks the store once
    whether the configured bucket (default [superset-exports]) exists and
    creates it only if it does not; afterwards the bucket exists, every
    bucket that existed still does, and no object was touched. *)
Theorem X5_bucket_is_ensured app w w1 c :
  _client (self w) = None →
  _initialize_client app w = (w1, Ok c) →
  bucket_of (self w1)
  = default "superset-exports"
      (Config.bucket_name (default Config.empty (MINIO_EXPORT_CONFIG app)))
  ∧ buckets (store w1) = {[ bucket_of (self w1) ]} ∪ buckets (store w)
  ∧ calls (store w1)
    = calls (store w)
      ++ (if bool_decide (bucket_of (self w1) ∈ buckets (store w))
          then [BucketExists (bucket_of (self w1))]
          else [BucketExists (bucket_of (self w1)); MakeBucket (bucket_of (self w1))])
  ∧ objects (store w1) = objects (store w).
Proof.
  intros Hc H.
  destruct (ready app w) eqn:Hr.
  2:{ destruct (initialize_fail app w Hr) as (w' & e & Hi & _). by rewrite Hi in H. }
  destruct (initialize_ok app w Hr) as (c' & Hi & _).
  assert (w1 = booted app w) as -> by congruence.
  unfold booted. rewrite Hc. simpl. unfold bucket_of. simpl.
  split; [done|].
  destruct (bool_decide _) eqn:E; simpl.
  - apply bool_decide_eq_true in E. split; [|done]. apply set_eq. intros x.
    rewrite elem_of_union, elem_of_singleton. split; [by right|].
    by intros [->|].
  - split; [done|]. split; [|done]. by rewrite <- app_assoc.
Qed.

Lemma X5_bucket_is_ensured_witness :
  ∃ w1 c,
    _initialize_client demo_app fresh_world = (w1, Ok c)
    ∧ calls (store w1) = [BucketExists "superset-exports"; MakeBucket "superset-exports"]
    ∧ objects (store w1) = ∅.
Proof.
  destruct (_initialize_client demo_app fresh_world) as [w1 [c|e]] eqn:E;
    [|vm_compute in E; discriminate E].
  destruct (X5_bucket_is_ensured demo_app fresh_world w1 c eq_refl E)
    as (Hb & _ & Hcalls & Hobj).
  exists w1, c. split; [reflexivity|]. split; [|exact Hobj].
  rewrite Hcalls, Hb. reflexivity.
Defined.

(** X6. After a bootstrap that found the [minio] package, successful or
    not, [get_max_rows_per_file] returns the application's
    [max_rows_per_file] (1,000,000 when the key is absent), and a later
    [stream_csv_to_minio] without an explicit limit on the same manager
    works with that value. *)
Theorem X6_limit_follows_loaded_configuration app w w1 r :
  _client (self w) = None →
  minio_installed app = true →
  _initialize_client app w = (w1, r) →
  get_max_rows_per_file w1
  = (w1, Ok (default 1000000
               (Config.max_rows_per_file (default Config.empty (MINIO_EXPORT_CONFIG app)))))
  ∧ ∀ app' timestamp chunks filename,
      stream_csv_to_minio app' timestamp chunks filename None w1
      = stream_csv_to_minio app' timestamp chunks filename
          (Some (default 1000000
                   (Config.max_rows_per_file
                      (default Config.empty (MINIO_EXPORT_CONFIG app))))) w1.
Proof.
  intros Hc Hi H. pose proof (initialize_config app w w1 r Hc Hi H) as Hcfg.
  assert (get_max_rows_per_file w1
          = (w1, Ok (default 1000000
                       (Config.max_rows_per_file
                          (default Config.empty (MINIO_EXPORT_CONFIG app)))))) as Hg.
  { unfold get_max_rows_per_file, bind, get_self, ret. by rewrite Hcfg. }
  split; [done|]. intros app' timestamp chunks filename.
  unfold stream_csv_to_minio. by rewrite (bind_ok _ _ _ _ _ Hg).
Qed.

Lemma X6_limit_follows_loaded_configuration_witness :
  ∃ w1 e,
    _initialize_client keyless_app fresh_world = (w1, Raise e)
    ∧ get_max_rows_per_file fresh_world = (fresh_world, Ok 1000000)
    ∧ get_max_rows_per_file w1 = (w1, Ok 500000).
Proof.
  destruct (_initialize_client keyless_app fresh_world) as [w1 [c|e]] eqn:E;
    [vm_compute in E; discriminate E|].
  destruct (X6_limit_follows_loaded_configuration keyless_app fresh_world w1 (Raise e)
              eq_refl eq_refl E) as [H _].
  exists w1, e. split; [reflexivity|]. split; [reflexivity | exact H].
Defined.

(** ** The one-shot uploads and the presigned link *)

(** [client.put_object(..., content_type=..., metadata=...)].  The store
    keeps no user metadata, so the argument leaves no trace in [Server]. *)
Definition put_object_with_metadata (b name : string) (data : Body) (ctype : string)
    (metadata : list (string * string)) : M unit :=
  put_object b name data ctype.

Section Uploads.

Variable app : App.

(** [client.presigned_get_object(bucket, name, expires=timedelta(seconds=n))]:
    the link is computed by the client library, which is not part of the
    sources; it is a function of the handle, the bucket, the object name and
    the lifetime in seconds. *)
Variable presigned_get_object : Minio → string → string → Z → string.

Definition upload_csv_file (timestamp filename csv_data : string)
    (metadata : option (list (string * string))) : M string :=
  client <- _initialize_client app ;;
  bucket_name <- get_bucket_name ;;
  let object_name := "exports/" +:+ timestamp +:+ "_" +:+ filename in
  put_object_with_metadata bucket_name object_name (Raw csv_data) "text/csv"
    (default [] metadata) ;;;
  ret object_name.

Definition upload_csv_files_as_zip (timestamp : string)
    (csv_files : list (string * string)) (zip_filename : string)
    (metadata : option (list (string * string))) : M string :=
  client <- _initialize_client app ;;
  bucket_name <- get_bucket_name ;;
  let zip_file :=
    foldl (λ zip_file f, zip_file ++ [(f.1, Raw f.2)]) [] csv_files in
  let object_name := "exports/" +:+ timestamp +:+ "_" +:+ zip_filename in
  put_object_with_metadata bucket_name object_name (ZipArchive zip_file)
    "application/zip" (default [] metadata) ;;;
  ret object_name.

Definition get_presigned_download_url (object_name : string) (expiry_seconds : Z)
  : M string :=
  client <- _initialize_client app ;;
  bucket_name <- get_bucket_name ;;
  expires <- timedelta expiry_seconds ;;
  ret (presigned_get_object client bucket_name object_name expires).

End Uploads.

(** The pure effect of a [put_object] with a given content type. *)
Definition put_as (ctype b name : string) (data : Body) (s : Server) : Server :=
  with_objects
    (<[(b, name) := {| body := data; content_type := ctype;
                       last_modified := Some (clock s) |}]> (objects s))
    (record (PutObject b name data ctype) s).

Lemma one_shot_upload app name data ctype metadata w :
  ready app w = true →
  (client <- _initialize_client app ;;
   bucket_name <- get_bucket_name ;;
   put_object_with_metadata bucket_name name data ctype metadata ;;;
   ret name) w
  = ({| self := self (booted app w);
        store := put_as ctype (bucket_of (self (booted app w))) name data
                   (store (booted app w)) |}, Ok name).
Proof.
  intros Hr. destruct (initialize_ok app w Hr) as (c & Hi & _).
  rewrite (bind_ok _ _ _ _ _ Hi). reflexivity.
Qed.

Lemma foldl_snoc_map {A B} (g : A → B) (l : list A) : ∀ acc,
  foldl (λ acc x, acc ++ [g x]) acc l = acc ++ map g l.
Proof.
  induction l as [|x l IH]; intros acc; simpl.
  - by rewrite app_nil_r.
  - by rewrite IH, <- app_assoc.
Qed.

(** What a one-shot upload leaves in the store. *)
Lemma one_shot_store app name data ctype w :
  let w1 := {| self := self (booted app w);
               store := put_as ctype (bucket_of (self (booted app w))) name data
                          (store (booted app w)) |} in
  objects (store w1) !! (bucket_of (self w1), name)
  = Some {| body := data; content_type := ctype;
            last_modified := Some (clock (store w)) |}
  ∧ (∀ k, k ≠ (bucket_of (self w1), name) →
          objects (store w1) !! k = objects (store w) !! k)
  ∧ get_object (bucket_of (self w1)) name w1
    = ({| self := self w1;
          store := record (GetObject (bucket_of (self w1)) name) (store w1) |}, Ok data).
Proof.
  intros w1. destruct (booted_frame app w) as (Hobj & _ & Hclock).
  assert (objects (store w1) !! (bucket_of (self w1), name)
          = Some {| body := data; content_type := ctype;
                    last_modified := Some (clock (store w)) |}) as Hl.
  { simpl. by rewrite lookup_insert_eq, Hclock. }
  split; [done|]. split.
  - intros k Hk. simpl. rewrite lookup_insert_ne by done. by rewrite Hobj.
  - by rewrite (get_object_ok _ _ _ _ Hl).
Qed.

(** X7. On a usable manager [upload_csv_file] stores the text under
    [exports/<timestamp>_<filename>] in the configured bucket, always with
    content type [text/csv] whatever the filename, and returns that name;
    reading the object back gives the text that was passed in, and no other
    object of the store changes. *)
Theorem X7_upload_csv_file_round_trip app timestamp filename csv_data metadata w :
  ready app w = true →
  ∃ w1 w2,
    upload_csv_file app timestamp filename csv_data metadata w
    = (w1, Ok ("exports/" +:+ timestamp +:+ "_" +:+ filename))
    ∧ objects (store w1)
        !! (bucket_of (self w1), "exports/" +:+ timestamp +:+ "_" +:+ filename)
      = Some {| body := Raw csv_data; content_type := "text/csv";
                last_modified := Some (clock (store w)) |}
    ∧ (∀ k, k ≠ (bucket_of (self w1), "exports/" +:+ timestamp +:+ "_" +:+ filename) →
            objects (store w1) !! k = objects (store w) !! k)
    ∧ get_object (bucket_of (self w1)) ("exports/" +:+ timestamp +:+ "_" +:+ filename) w1
      = (w2, Ok (Raw csv_data)).
Proof.
  intros Hr. eexists _, _. split.
  - unfold upload_csv_file. apply (one_shot_upload app _ _ _ _ w Hr).
  - apply one_shot_store.
Qed.

Lemma X7_upload_csv_file_round_trip_witness :
  ∃ w1 w2,
    upload_csv_file demo_app "20240101_120000" "report.zip" "id,name" None fresh_world
    = (w1, Ok "exports/20240101_120000_report.zip")
    ∧ objects (store w1) !! (bucket_of (self w1), "exports/20240101_120000_report.zip")
      = Some {| body := Raw "id,name"; content_type := "text/csv";
                last_modified := Some 5000 |}
    ∧ get_object (bucket_of (self w1)) "exports/20240101_120000_report.zip" w1
      = (w2, Ok (Raw "id,name")).
Proof.
  destruct (X7_upload_csv_file_round_trip demo_app "20240101_120000" "report.zip"
              "id,name" None fresh_world) as (w1 & w2 & H & Ho & _ & Hg); [reflexivity|].
  exists w1, w2. split; [exact H|]. split; [exact Ho | exact Hg].
Defined.

(** X8. On a usable manager [upload_csv_files_as_zip] stores one archive
    under [exports/<timestamp>_<zip_filename>] with content type
    [application/zip]; its entries are the given files in the given order,
    each under the name it was given (directory parts are kept and repeated
    names are not merged), and an empty list gives an empty archive.  No
    other object of the store changes. *)
Theorem X8_upload_csv_files_as_zip_round_trip app timestamp csv_files zip_filename
    metadata w :
  ready app w = true →
  ∃ w1 w2,
    upload_csv_files_as_zip app timestamp csv_files zip_filename metadata w
    = (w1, Ok ("exports/" +:+ timestamp +:+ "_" +:+ zip_filename))
    ∧ objects (store w1)
        !! (bucket_of (self w1), "exports/" +:+ timestamp +:+ "_" +:+ zip_filename)
      = Some {| body := ZipArchive (map (λ f, (f.1, Raw f.2)) csv_files);
                content_type := "application/zip";
                last_modified := Some (clock (store w)) |}
    ∧ (∀ k, k ≠ (bucket_of (self w1), "exports/" +:+ timestamp +:+ "_" +:+ zip_filename) →
            objects (store w1) !! k = objects (store w) !! k)
    ∧ get_object (bucket_of (self w1))
        ("exports/" +:+ timestamp +:+ "_" +:+ zip_filename) w1
      = (w2, Ok (ZipArchive (map (λ f, (f.1, Raw f.2)) csv_files))).
Proof.
  intros Hr. eexists _, _. split.
  - unfold upload_csv_files_as_zip.
    rewrite (foldl_snoc_map (λ f : string * string, (f.1, Raw f.2)) csv_files []).
    rewrite app_nil_l. apply (one_shot_upload app _ _ _ _ w Hr).
  - apply one_shot_store.
Qed.

Lemma X8_upload_csv_files_as_zip_round_trip_witness :
  ∃ w1 w2,
    upload_csv_files_as_zip demo_app "20240101_120000"
      [("a/part.csv", "x"); ("a/part.csv", "y")] "all.zip" None fresh_world
    = (w1, Ok "exports/20240101_120000_all.zip")
    ∧ get_object (bucket_of (self w1)) "exports/20240101_120000_all.zip" w1
      = (w2, Ok (ZipArchive [("a/part.csv", Raw "x"); ("a/part.csv", Raw "y")])).
Proof.
  destruct (X8_upload_csv_files_as_zip_round_trip demo_app "20240101_120000"
              [("a/part.csv", "x"); ("a/part.csv", "y")] "all.zip" None fresh_world)
    as (w1 & w2 & H & _ & _ & Hg); [reflexivity|].
  exists w1, w2. split; [exact H | exact Hg].
Defined.

(** ** The consolidator on its own *)

Lemma puts_takes b names :
  puts (flat_map (λ n, [GetObject b n; RemoveObject b n]) names) = [].
Proof. induction names as [|n names IH]; [done|]. simpl. apply IH. Qed.

(** X9. Called with distinct names of stored objects that the store lets
    go, [_create_zip_from_uploaded_files] reads and removes them one after
    the other, in the order given, and then uploads one archive under the
    requested name: the archive holds one entry per name, in order, keyed by
    the last path component of the name and carrying the object's content;
    the named objects are gone, and every other object is as before. *)
Theorem X9_consolidation_effect app names zip_object_name w :
  is_Some (_client (self w)) →
  NoDup names →
  Forall (λ n, is_Some (objects (store w) !! (bucket_of (self w), n))) names →
  Forall (λ n, (bucket_of (self w), n) ∉ locked (store w)) names →
  ∃ w' o,
    _create_zip_from_uploaded_files app names zip_object_name w
    = (w', Ok zip_object_name)
    ∧ objects (store w') !! (bucket_of (self w), zip_object_name) = Some o
    ∧ body o
      = ZipArchive (map (λ n, (Py.basename n, payload (bucket_of (self w)) (store w) n))
                        names)
    ∧ (∀ n, n ∈ names → n ≠ zip_object_name →
            objects (store w') !! (bucket_of (self w), n) = None)
    ∧ (∀ k, k ≠ (bucket_of (self w), zip_object_name) →
            ¬ (k.1 = bucket_of (self w) ∧ k.2 ∈ names) →
            objects (store w') !! k = objects (store w) !! k)
    ∧ calls (store w')
      = calls (store w)
        ++ flat_map (λ n, [GetObject (bucket_of (self w)) n;
                           RemoveObject (bucket_of (self w)) n]) names
        ++ [PutObject (bucket_of (self w)) zip_object_name (body o) (content_type o)].
Proof.
  intros Hc Hnd Hobj Hlk. set (b := bucket_of (self w)) in *.
  eexists _, (new_object zip_object_name _ _).
  split; [by apply create_zip_ok|].
  split; [simpl; by rewrite lookup_insert_eq|].
  split; [done|]. split; [|split].
  - intros n Hn Hz. simpl. rewrite lookup_insert_ne by (by intros [= <-]).
    rewrite taken_all_lookup. by rewrite bool_decide_eq_true_2.
  - intros k Hk Hn. simpl. rewrite lookup_insert_ne by done.
    rewrite taken_all_lookup. by rewrite bool_decide_eq_false_2.
  - subst b.
    destruct (taken_all_frame (bucket_of (self w)) names (store w)) as (_ & _ & _ & Hcalls).
    unfold put_srv. cbn [store calls with_objects record new_object body content_type].
    by rewrite Hcalls, <- app_assoc.
Qed.

Lemma X9_consolidation_effect_witness :
  ∃ w' o,
    _create_zip_from_uploaded_files demo_app ["exports/old.csv"; "other/old.csv"]
      "exports/all.zip" (booted demo_app (stocked_world ∅))
    = (w', Ok "exports/all.zip")
    ∧ objects (store w') !! ("superset-exports", "exports/all.zip") = Some o
    ∧ body o = ZipArchive [("old.csv", Raw "h"); ("old.csv", Raw "h")]
    ∧ objects (store w') !! ("superset-exports", "exports/old.csv") = None.
Proof.
  destruct (X9_consolidation_effect demo_app ["exports/old.csv"; "other/old.csv"]
              "exports/all.zip" (booted demo_app (stocked_world ∅)))
    as (w' & o & H & Ho & Hb & Hgone & _).
  - by eexists.
  - apply NoDup_cons. split; [|apply NoDup_singleton].
    intros E. apply list_elem_of_singleton in E. discriminate E.
  - repeat apply Forall_cons_2; [| |apply Forall_nil_2]; eexists; vm_compute; reflexivity.
  - repeat apply Forall_cons_2; [| |apply Forall_nil_2]; apply not_elem_of_empty.
  - exists w', o. split; [exact H|]. split; [exact Ho|]. split; [exact Hb|].
    apply Hgone; [left | discriminate].
Defined.

(** X10. Consolidation is not atomic.  When the loop meets a name whose
    object is missing, or whose removal the store refuses, the call raises
    the store's error at that point: the objects named before it have
    already been removed, no archive has been uploaded, and every other
    object, among them the ones named after the failing one, is as before. *)
Theorem X10_consolidation_is_not_atomic app l1 x l2 zip_object_name w :
  is_Some (_client (self w)) →
  NoDup (l1 ++ x :: l2) →
  Forall (λ n, is_Some (objects (store w) !! (bucket_of (self w), n))) l1 →
  Forall (λ n, (bucket_of (self w), n) ∉ locked (store w)) l1 →
  objects (store w) !! (bucket_of (self w), x) = None
  ∨ (bucket_of (self w), x) ∈ locked (store w) →
  ∃ w' e,
    _create_zip_from_uploaded_files app (l1 ++ x :: l2) zip_object_name w = (w', Raise e)
    ∧ (e = S3Error "NoSuchKey" ∨ e = S3Error "AccessDenied")
    ∧ (∀ n, n ∈ l1 → objects (store w') !! (bucket_of (self w), n) = None)
    ∧ (∀ k, ¬ (k.1 = bucket_of (self w) ∧ k.2 ∈ l1) →
            objects (store w') !! k = objects (store w) !! k)
    ∧ puts (calls (store w')) = puts (calls (store w)).
Proof.
  intros Hc Hnd Hobj Hlk Hx. set (b := bucket_of (self w)) in *.
  destruct (initialize_client app w Hc) as [c Hi].
  apply NoDup_app in Hnd as (Hnd1 & Hdis & _).
  assert (x ∉ l1) as Hx1. { intros Hin. apply (Hdis x Hin). by left. }
  set (w1 := {| self := self w; store := taken_all b l1 (store w) |}).
  destruct (taken_all_frame b l1 (store w)) as (_ & Hlocked & _ & Hcalls).
  assert (objects (store w1) !! (b, x) = objects (store w) !! (b, x)) as Hsame.
  { simpl. rewrite taken_all_lookup. rewrite bool_decide_eq_false_2; [done|].
    by intros [_ Hin]. }
  assert (∃ w' e cs,
            zip_step b (map (λ n, (Py.basename n, payload b (store w) n)) l1) x w1
            = (w', Raise e)
            ∧ (e = S3Error "NoSuchKey" ∨ e = S3Error "AccessDenied")
            ∧ objects (store w') = objects (store w1)
            ∧ calls (store w') = calls (store w1) ++ cs ∧ puts cs = []) as Hstep.
  { unfold zip_step. destruct (objects (store w) !! (b, x)) as [o|] eqn:Ho.
    - destruct Hx as [Hx|Hx]; [done|].
      rewrite (bind_ok _ _ _ _ _ (get_object_ok b x w1 o ltac:(by rewrite Hsame))).
      cbv beta zeta.
      set (w2 := {| self := self w1; store := record (GetObject b x) (store w1) |}).
      assert ((b, x) ∈ locked (store w2)) as Hl2 by (simpl; by rewrite Hlocked).
      rewrite (bind_raise _ _ _ _ _ (remove_object_locked b x w2 Hl2)).
      eexists _, _, [GetObject b x; RemoveObject b x].
      split; [reflexivity|]. split; [by right|]. split; [done|].
      split; [|done]. simpl. by rewrite <- app_assoc.
    - rewrite (bind_raise _ _ _ _ _ (get_object_missing b x w1 ltac:(by rewrite Hsame))).
      eexists _, _, [GetObject b x].
      split; [reflexivity|]. split; [by left|]. by split. }
  destruct Hstep as (w' & e & cs & Hstep & He & Hobj' & Hcalls' & Hputs).
  exists w', e. split; [|split; [done|]].
  - rewrite (create_zip_unfold _ _ _ _ _ Hi). fold b.
    rewrite (bind_cong_l _ _ _ _ (foldM_app (zip_step b) [] l1 (x :: l2) w)).
    rewrite bind_assoc.
    rewrite (bind_ok _ _ _ _ _ (zip_loop_ok b l1 [] w Hnd1 Hobj Hlk)).
    rewrite app_nil_l. cbv beta. simpl foldM. fold w1.
    rewrite bind_assoc. by rewrite (bind_raise _ _ _ _ _ Hstep).
  - rewrite Hobj'. split; [|split].
    + intros n Hn. simpl. rewrite taken_all_lookup. by rewrite bool_decide_eq_true_2.
    + intros k Hk. simpl. rewrite taken_all_lookup. by rewrite bool_decide_eq_false_2.
    + rewrite Hcalls'. simpl. rewrite Hcalls, !puts_app, puts_takes, Hputs.
      by rewrite !app_nil_r.
Qed.

Lemma X10_consolidation_is_not_atomic_witness :
  ∃ w',
    _create_zip_from_uploaded_files demo_app
      ["exports/old.csv"; "exports/lost.csv"; "exports/new.csv"] "exports/all.zip"
      (booted demo_app (stocked_world ∅))
    = (w', Raise (S3Error "NoSuchKey"))
    ∧ objects (store w') !! ("superset-exports", "exports/old.csv") = None
    ∧ objects (store w') !! ("superset-exports", "exports/all.zip") = None
    ∧ is_Some (objects (store w') !! ("superset-exports", "exports/new.csv")).
Proof.
  destruct (X10_consolidation_is_not_atomic demo_app ["exports/old.csv"] "exports/lost.csv"
              ["exports/new.csv"] "exports/all.zip" (booted demo_app (stocked_world ∅)))
    as (w' & e & H & _ & Hgone & Hrest & _).
  - by eexists.
  - vm_compute. repeat constructor; intros E;
      repeat (apply elem_of_cons in E as [E|E]; [discriminate E|]);
      by apply elem_of_nil in E.
  - apply Forall_cons_2; [|apply Forall_nil_2]. eexists. vm_compute. reflexivity.
  - apply Forall_cons_2; [|apply Forall_nil_2]. apply not_elem_of_empty.
  - left. vm_compute. reflexivity.
  - exists w'.
    assert (e = S3Error "NoSuchKey") as ->.
    { vm_compute in H. by injection H as _ <-. }
    split; [exact H|]. split; [apply Hgone; left|]. split.
    + rewrite Hrest; [vm_compute; reflexivity|].
      intros [_ E]. apply list_elem_of_singleton in E. discriminate E.
    + rewrite Hrest; [eexists; vm_compute; reflexivity|].
      intros [_ E]. apply list_elem_of_singleton in E. discriminate E.
Defined.

(** ** More on the splitter *)

Lemma split_rows_nonpositive m rows : ∀ cur,
  m ≤ 0 → split_rows m cur rows = cur :: map (λ r, [r]) rows.
Proof.
  induction rows as [|r rs IH]; intros cur Hm; simpl; [done|].
  assert ((len cur >=? m) = true) as ->.
  { rewrite Z.geb_leb. apply Z.leb_le. unfold len. lia. }
  by rewrite IH.
Qed.

(** X11. With a limit that is zero or negative the test
    [current_file_rows >= max_rows_per_file] holds at every data row, so the
    header alone is uploaded as the first file and every data row gets a
    file of its own: [n] data rows give [n + 1] files, and the call returns
    [total_rows = n] and [file_count = n + 1]. *)
Theorem X11_nonpositive_limit app filename timestamp chunks o h rows w :
  ready app w = true →
  marker_free chunks = true →
  csv_lines chunks = h :: rows →
  limit w o ≤ 0 →
  locked (store w) = ∅ →
  ∃ w1 l files w2 name,
    upload_segments app filename timestamp (limit w o) chunks w = (w1, Ok l)
    ∧ calls (store w1)
      = calls (store (booted app w))
        ++ map (put_call (bucket_of (self (booted app w)))) files
    ∧ map snd files = Raw (csv_text [h]) :: map (λ r, Raw (csv_text [h; r])) rows
    ∧ stream_csv_to_minio app timestamp chunks filename o w
      = (w2, Ok (name, len rows, len rows + 1)).
Proof.
  intros Hr Hm Hl Hlim Hlk. set (m := limit w o) in *.
  exists (after_upload app filename timestamp m h rows w),
         (finished filename timestamp h (with_header h) rows (split_rows m [] rows)),
         (files_of filename timestamp m h rows).
  eexists _, _.
  split; [by apply upload_phase_ok|].
  split; [apply after_upload_calls|].
  split.
  - rewrite files_bodies, split_rows_nonpositive by done. simpl. by rewrite map_map.
  - rewrite (stream_ok app filename timestamp chunks o h rows w Hr Hm Hl
               (unlocked_removable _ _ _ _ _ _ Hlk)).
    unfold export_result. fold m. rewrite split_rows_nonpositive by done.
    do 3 f_equal. unfold len. simpl. rewrite length_map. lia.
Qed.

Lemma X11_nonpositive_limit_witness :
  ∃ w2 name,
    stream_csv_to_minio demo_app "20240101_120000" demo_chunks "data.csv" (Some 0)
      fresh_world
    = (w2, Ok (name, 3, 4)).
Proof.
  destruct (X11_nonpositive_limit demo_app "data.csv" "20240101_120000" demo_chunks
              (Some 0) "id,name" ["1,a"; "2,b"; "3,c"] fresh_world)
    as (w1 & l & files & w2 & name & _ & _ & _ & H);
    [reflexivity | reflexivity | reflexivity | reflexivity | reflexivity |].
  exists w2, name. exact H.
Defined.

(** X12. Without an error marker, the outcome of [stream_csv_to_minio] (the
    value returned or the error raised, the calls made and the objects left)
    depends only on the sequence of non-blank lines that the chunks hold:
    blank lines, and the way the producer groups whole lines into chunks, are
    irrelevant. *)
Theorem X12_grouping_into_chunks_is_irrelevant app filename timestamp o chunks1 chunks2 w :
  marker_free chunks1 = true →
  marker_free chunks2 = true →
  csv_lines chunks1 = csv_lines chunks2 →
  stream_csv_to_minio app timestamp chunks1 filename o w
  = stream_csv_to_minio app timestamp chunks2 filename o w.
Proof.
  intros H1 H2 Hl. rewrite !stream_unfold. apply bind_cong_l.
  unfold upload_segments. apply bind_cong_l.
  rewrite !chunks_loop by done. by rewrite Hl.
Qed.

Lemma X12_grouping_into_chunks_is_irrelevant_witness :
  stream_csv_to_minio demo_app "20240101_120000" demo_chunks "data.csv" (Some 2) fresh_world
  = stream_csv_to_minio demo_app "20240101_120000"
      ["id,name"; ""; Py.LF +:+ "1,a" +:+ Py.LF +:+ "  " +:+ Py.LF +:+ "2,b" +:+ Py.LF +:+ "3,c"]
      "data.csv" (Some 2) fresh_world.
Proof.
  apply X12_grouping_into_chunks_is_irrelevant; reflexivity.
Defined.

(** X18. In every run of the upload phase, for every base filename,
    timestamp and limit, the segments are uploaded under pairwise distinct
    names: no segment overwrites another one, and when the phase ends every
    segment uploaded is stored under its name with its own content. *)
Theorem X18_segments_do_not_collide app filename timestamp m chunks h rows w :
  ready app w = true →
  marker_free chunks = true →
  csv_lines chunks = h :: rows →
  ∃ w1 l files,
    upload_segments app filename timestamp m chunks w = (w1, Ok l)
    ∧ calls (store w1)
      = calls (store (booted app w)) ++ map (put_call (bucket_of (self w1))) files
    ∧ uploaded_files l = map fst files
    ∧ NoDup (map fst files)
    ∧ ∀ n d, (n, d) ∈ files →
        ∃ obj, objects (store w1) !! (bucket_of (self w1), n) = Some obj ∧ body obj = d.
Proof.
  intros Hr Hm Hl.
  exists (after_upload app filename timestamp m h rows w),
         (finished filename timestamp h (with_header h) rows (split_rows m [] rows)),
         (files_of filename timestamp m h rows).
  split; [by apply upload_phase_ok|].
  split; [apply after_upload_calls|].
  rewrite files_names.
  split; [done|]. split; [apply segment_names_NoDup|].
  intros n d Hin. eexists. split; [by apply after_upload_lookup | done].
Qed.

Lemma X18_segments_do_not_collide_witness :
  ∃ w1 l (files : list (string * Body)),
    upload_segments demo_app "a.csv.csv" "20240101_120000" 1 demo_chunks fresh_world
    = (w1, Ok l)
    ∧ uploaded_files l = map fst files
    ∧ NoDup (map fst files)
    ∧ length files = 3%nat.
Proof.
  destruct (X18_segments_do_not_collide demo_app "a.csv.csv" "20240101_120000" 1
              demo_chunks "id,name" ["1,a"; "2,b"; "3,c"] fresh_world)
    as (w1 & l & files & H & _ & Hu & Hnd & _); [reflexivity | reflexivity | reflexivity |].
  exists w1, l, files. split; [exact H|]. split; [exact Hu|]. split; [exact Hnd|].
  rewrite <- (length_map fst), <- Hu.
  vm_compute in H. injection H as _ <-. reflexivity.
Defined.

(** ** More on the error marker *)

Lemma split1_no_sep c (s : string) : Py.count c s = O → Py.split1 c s = [s].
Proof.
  induction s as [|a s IH]; simpl; [done|].
  destruct (Ascii.eqb a c); [done|]. intros H. by rewrite IH.
Qed.

(** X21. A chunk that contains the marker [__STREAM_ERROR__] but no colon
    at all makes [chunk.split(":", 1)[1]] fail: the call raises [IndexError]
    instead of a [ValueError] with a message.  As for any marker, the chunks
    before it have been processed, no removal was issued and nothing stored
    or uploaded so far is lost. *)
Theorem X21_marker_without_colon app filename timestamp o pre c post w :
  ready app w = true →
  marker_free pre = true →
  Py.contains "__STREAM_ERROR__" c = true →
  Py.count ":" c = O →
  ∃ w',
    stream_csv_to_minio app timestamp (pre ++ c :: post) filename o w
    = (w', Raise (IndexError "list index out of range"))
    ∧ kept w w'.
Proof.
  intros Hr Hm Hc Hcolon.
  destruct (total_chunks app filename timestamp (limit w o) initial_locals pre Hm w Hr)
    as (w' & l & Hpre & _).
  exists w'. split.
  - rewrite stream_marker by done. rewrite (bind_ok _ _ _ _ _ Hpre).
    unfold marker_error. by rewrite split1_no_sep.
  - by eapply chunks_kept.
Qed.

Lemma X21_marker_without_colon_witness :
  ∃ w',
    stream_csv_to_minio demo_app "20240101_120000"
      (demo_chunks ++ ["__STREAM_ERROR__ connection lost"]) "data.csv" (Some 2) fresh_world
    = (w', Raise (IndexError "list index out of range"))
    ∧ kept fresh_world w'.
Proof.
  apply (X21_marker_without_colon demo_app "data.csv" "20240101_120000" (Some 2)
           demo_chunks "__STREAM_ERROR__ connection lost" [] fresh_world); reflexivity.
Defined.

(** ** An unusable configuration *)

(** X13. When the client cannot be built (package missing, export disabled,
    credentials missing), every operation of the manager that needs the
    store raises the error of the bootstrap and leaves the store untouched:
    the sweep, both one-shot uploads, the presigned link, the consolidator,
    and [stream_csv_to_minio] for every marker-free source with at least one
    non-blank line, where the error comes from the first upload. *)
Theorem X13_unusable_configuration app w w' e :
  _initialize_client app w = (w', Raise e) →
  store w' = store w
  ∧ (∀ now, cleanup_old_files app now w = (w', Raise e))
  ∧ (∀ timestamp filename csv_data metadata,
       upload_csv_file app timestamp filename csv_data metadata w = (w', Raise e))
  ∧ (∀ timestamp csv_files zip_filename metadata,
       upload_csv_files_as_zip app timestamp csv_files zip_filename metadata w
       = (w', Raise e))
  ∧ (∀ presigned_get_object object_name expiry_seconds,
       get_presigned_download_url app presigned_get_object object_name expiry_seconds w
       = (w', Raise e))
  ∧ (∀ names zip_object_name,
       _create_zip_from_uploaded_files app names zip_object_name w = (w', Raise e))
  ∧ (∀ timestamp chunks filename o,
       marker_free chunks = true → csv_lines chunks ≠ [] →
       stream_csv_to_minio app timestamp chunks filename o w = (w', Raise e)).
Proof.
  intros Hi. pose proof (initialize_raise app w w' e Hi) as (_ & _ & Hs).
  split; [done|].
  split. { intros now. unfold cleanup_old_files. by rewrite (bind_raise _ _ _ _ _ Hi). }
  split. { intros ????. unfold upload_csv_file. by rewrite (bind_raise _ _ _ _ _ Hi). }
  split. { intros ????. unfold upload_csv_files_as_zip. by rewrite (bind_raise _ _ _ _ _ Hi). }
  split. { intros ???. unfold get_presigned_download_url. by rewrite (bind_raise _ _ _ _ _ Hi). }
  split. { intros ??. unfold _create_zip_from_uploaded_files.
           by rewrite (bind_raise _ _ _ _ _ Hi). }
  intros timestamp chunks filename o Hm Hne.
  destruct (csv_lines chunks) as [|h rows] eqn:Hl; [done|].
  rewrite stream_unfold.
  rewrite (bind_cong_l _ _ _ _ (upload_segments_rows app filename timestamp _ chunks h rows w
                                  Hm Hl)).
  rewrite bind_assoc.
  pose proof (files_nonempty filename timestamp (limit w o) h rows) as Hf.
  unfold files_of in Hf.
  destruct (segment_files filename timestamp h 0 (split_rows (limit w o) [] rows))
    as [|nb nbs]; [done|].
  unfold upload_all. simpl foldM. rewrite bind_assoc.
  unfold _upload_file_streaming at 1. rewrite bind_assoc.
  by rewrite (bind_raise _ _ _ _ _ Hi).
Qed.

Lemma X13_unusable_configuration_witness :
  ∃ w',
    store w' = empty_store
    ∧ cleanup_old_files keyless_app 1000 fresh_world
      = (w', Raise (ValueError
           "MinIO access_key and secret_key must be configured in MINIO_EXPORT_CONFIG"))
    ∧ stream_csv_to_minio keyless_app "20240101_120000" demo_chunks "data.csv" None
        fresh_world
      = (w', Raise (ValueError
           "MinIO access_key and secret_key must be configured in MINIO_EXPORT_CONFIG")).
Proof.
  destruct (X13_unusable_configuration keyless_app fresh_world
              {| self := {| _client := None;
                            _config := default Config.empty (MINIO_EXPORT_CONFIG keyless_app) |};
                 store := empty_store |}
              (ValueError
                 "MinIO access_key and secret_key must be configured in MINIO_EXPORT_CONFIG"))
    as (Hs & Hsweep & _ & _ & _ & _ & Hstream); [vm_compute; reflexivity|].
  eexists. split; [exact Hs|]. split; [apply Hsweep|].
  apply Hstream; [reflexivity | discriminate].
Defined.

(** ** More on the retention sweeper *)

Lemma removal_attempts_app cs1 cs2 :
  removal_attempts (cs1 ++ cs2) = removal_attempts cs1 ++ removal_attempts cs2.
Proof. apply omap_app. Qed.

Lemma existsb_dated_false objs :
  existsb dated objs = false → Forall (λ no, last_modified no.2 = None) objs.
Proof.
  induction objs as [|no objs IH]; [constructor|]. simpl. unfold dated at 1.
  destruct (last_modified no.2) eqn:E; [done|]. intros H. constructor; [done | by apply IH].
Qed.

(** X14. [cleanup_old_files] never asks the store to remove anything and
    never changes an object.  On a usable manager with a representable
    cutoff it raises [TypeError] as soon as the bucket holds, under
    [exports/], an object with a last-modified time, because that aware time
    is compared with the naive cutoff; it returns normally only when no
    listed object carries a date, and the count it returns is then 0. *)
Theorem X14_sweep_never_removes app now w w' (r : result Z) :
  cleanup_old_files app now w = (w', r) →
  removal_attempts (calls (store w')) = removal_attempts (calls (store w))
  ∧ objects (store w') = objects (store w)
  ∧ (∀ n, r = Ok n →
          n = 0 ∧ Forall (λ no, last_modified no.2 = None) (sweep_listing app w))
  ∧ (ready app w = true → representable app now w = true →
     ∀ name o t,
       objects (store w) !! (sweep_bucket app w, name) = Some o →
       Py.startswith "exports/" name = true →
       last_modified o = Some t →
       r = Raise (TypeError "can't compare offset-naive and offset-aware datetimes")).
Proof.
  intros H.
  destruct (cleanup_frame app now w w' r H) as (Hobj & _ & cs & Hcalls & Hcs).
  split.
  { rewrite Hcalls, removal_attempts_app, (removal_attempts_none cs Hcs).
    by rewrite app_nil_r. }
  split; [done|]. split.
  - intros n ->. destruct (ready app w) eqn:Hr.
    2:{ destruct (initialize_fail app w Hr) as (w1 & e & Hi & _).
        unfold cleanup_old_files in H. by rewrite (bind_raise _ _ _ _ _ Hi) in H. }
    destruct (representable app now w) eqn:Hrep.
    2:{ by rewrite cleanup_overflow in H. }
    rewrite cleanup_outcome in H by done.
    destruct (existsb dated (sweep_listing app w)) eqn:E; [done|].
    injection H as _ <-. split; [done|]. by apply existsb_dated_false.
  - intros Hr Hrep name o t Ho Hp Ht.
    rewrite cleanup_outcome in H by done.
    assert (existsb dated (sweep_listing app w) = true) as E.
    { apply existsb_exists. exists (name, o). split.
      - apply list_elem_of_In, elem_of_listing. by split.
      - unfold dated. simpl. by rewrite Ht. }
    rewrite E in H. by injection H as _ <-.
Qed.

Lemma X14_sweep_never_removes_witness :
  ∃ w',
    cleanup_old_files demo_app 1000 (stocked_world ∅)
    = (w', Raise (TypeError "can't compare offset-naive and offset-aware datetimes"))
    ∧ removal_attempts (calls (store w')) = []
    ∧ objects (store w') = objects (stocked_store ∅).
Proof.
  destruct (cleanup_old_files demo_app 1000 (stocked_world ∅)) as [w' r] eqn:E.
  destruct (X14_sweep_never_removes demo_app 1000 (stocked_world ∅) w' r E)
    as (Hcalls & Hobj & _ & Hraise).
  exists w'. split; [|split; [exact Hcalls | exact Hobj]].
  f_equal. apply (Hraise eq_refl eq_refl "exports/old.csv"
                    {| body := Raw "h"; content_type := "text/csv";
                       last_modified := Some 100 |} 100); reflexivity.
Defined.

(** X15. Whatever its outcome (normal return, configuration error, or an
    error raised during the sweep), [cleanup_old_files] never removes an
    object that is not a deletion candidate: objects of other buckets,
    objects outside [exports/], objects without a last-modified time and
    objects last modified at or after the cutoff all stay as they are; and
    it never creates or rewrites an object. *)
Theorem X15_sweep_spares_everything_else app now w w' (r : result Z) :
  cleanup_old_files app now w = (w', r) →
  (∀ k o, objects (store w) !! k = Some o →
          ¬ victim (sweep_bucket app w) (sweep_cutoff app now w) (k, o) →
          objects (store w') !! k = Some o)
  ∧ (∀ k o, objects (store w') !! k = Some o → objects (store w) !! k = Some o).
Proof.
  intros H. destruct (cleanup_frame app now w w' r H) as (Hobj & _).
  rewrite Hobj. by split.
Qed.

Lemma X15_sweep_spares_everything_else_witness :
  ∃ w' e,
    cleanup_old_files demo_app 1000
      (stocked_world {[ ("superset-exports", "exports/old.csv") ]})
    = (w', Raise e)
    ∧ is_Some (objects (store w') !! ("superset-exports", "other/old.csv"))
    ∧ is_Some (objects (store w') !! ("superset-exports", "exports/new.csv")).
Proof.
  destruct (cleanup_old_files demo_app 1000
              (stocked_world {[ ("superset-exports", "exports/old.csv") ]}))
    as [w' r] eqn:E.
  destruct (X15_sweep_spares_everything_else demo_app 1000 _ w' r E) as [Hkeep _].
  assert (∃ e, r = Raise e) as [e ->]
    by (vm_compute in E; injection E as _ <-; by eexists).
  exists w', e. split; [reflexivity|]. split.
  - eexists. apply Hkeep; [vm_compute; reflexivity|].
    intros (_ & Hp & _). vm_compute in Hp. exact Hp.
  - eexists. apply Hkeep; [vm_compute; reflexivity|].
    intros (_ & _ & He). vm_compute in He. exact He.
Defined.

(** A usable configuration whose retention no [timedelta] can hold. *)
Definition eternal_app : App :=
  {| minio_installed := true;
     MINIO_EXPORT_CONFIG :=
       Some {| Config.enabled := Some true; Config.endpoint := None;
               Config.access_key := Some "minioadmin";
               Config.secret_key := Some "minioadmin";
               Config.bucket_name := None; Config.secure := None;
               Config.region := None; Config.max_rows_per_file := None;
               Config.file_retention_seconds := Some 1000000000000000000 |} |}.

(** X22. When the configured retention is longer than a [timedelta] can
    hold (more than 999999999 days in either direction), or when the cutoff
    falls outside the years 1 to 9999, [cleanup_old_files] raises
    [OverflowError] right after the bootstrap: the bucket is not listed and
    nothing is removed. *)
Theorem X22_unrepresentable_cutoff app now w :
  ready app w = true →
  (let retention_seconds :=
     default 604800 (Config.file_retention_seconds (_config (self (booted app w)))) in
   retention_seconds / 86400 < -999999999 ∨ 999999999 < retention_seconds / 86400
   ∨ now - retention_seconds < 0 ∨ datetime_max < now - retention_seconds) →
  cleanup_old_files app now w = (booted app w, Raise OverflowError)
  ∧ calls (store (booted app w)) = calls (store w) ++ boot_calls app w
  ∧ objects (store (booted app w)) = objects (store w).
Proof.
  intros Hr Hout. cbv zeta in Hout. split; [|split].
  - apply cleanup_overflow; [done|].
    apply not_true_is_false. intros Hrep. unfold representable in Hrep. cbv zeta in Hrep.
    apply andb_prop in Hrep as [Hrep H4]. apply andb_prop in Hrep as [Hrep H3].
    apply andb_prop in Hrep as [H1 H2].
    apply Z.leb_le in H1, H2, H3, H4. lia.
  - apply booted_calls.
  - apply booted_frame.
Qed.

Lemma X22_unrepresentable_cutoff_witness :
  cleanup_old_files eternal_app 63800000000 fresh_world
  = (booted eternal_app fresh_world, Raise OverflowError)
  ∧ calls (store (booted eternal_app fresh_world))
    = [BucketExists "superset-exports"; MakeBucket "superset-exports"].
Proof.
  destruct (X22_unrepresentable_cutoff eternal_app 63800000000 fresh_world)
    as (H & Hc & _); [reflexivity | right; left; vm_compute; reflexivity |].
  split; [exact H | exact Hc].
Defined.

(** ** The name and the content type of the deliverable *)

Lemma replace_absent old new (s : string) :
  Py.contains old s = false → Py.replace old new s = s.
Proof.
  induction s as [|a s IH]; [done|]. intros H. simpl Py.contains in H.
  apply orb_false_elim in H as [H1 H2].
  rewrite PyFacts.replace_miss by done. by rewrite IH.
Qed.

Lemma rev_app_app (s1 s2 : string) :
  String.rev_app s1 s2 = String.rev_app s1 "" +:+ s2.
Proof.
  revert s2. induction s1 as [|a s1 IH]; intros s2; simpl; [done|].
  rewrite (IH (String a s2)), (IH (String a "")).
  by rewrite PyFacts.app_assoc.
Qed.

Lemma rev_append (x y : string) : String.rev (x +:+ y) = String.rev y +:+ String.rev x.
Proof.
  unfold String.rev. induction x as [|a x IH]; simpl.
  - by rewrite PyFacts.app_nil_r.
  - rewrite (rev_app_app (x +:+ y)), (rev_app_app x), IH.
    by rewrite PyFacts.app_assoc.
Qed.

(** A prefix without [c] is matched before the first [c]. *)
Lemma startswith_stop p c (x y : string) :
  Py.count c p = O → Py.startswith p (x +:+ String c y) = Py.startswith p x.
Proof.
  revert x. induction p as [|a p IH]; intros x H; [done|].
  simpl in H. destruct (Ascii.eqb a c) eqn:E; [done|].
  destruct x as [|b x]; simpl.
  - by rewrite E.
  - destruct (Ascii.eqb a b); [|done]. by apply IH.
Qed.

Lemma endswith_after_underscore (pre f : string) :
  Py.endswith ".csv" (pre +:+ "_" +:+ f) = Py.endswith ".csv" f.
Proof.
  unfold Py.endswith. rewrite rev_append.
  change ("_" +:+ f) with (String "_" "" +:+ f). rewrite rev_append.
  rewrite PyFacts.app_assoc.
  change (String.rev (String "_" "") +:+ String.rev pre) with (String "_" (String.rev pre)).
  by apply startswith_stop.
Qed.

(** X19. When the base filename contains no [.csv], replacing [.csv] by
    [.zip] changes nothing, so the archive of a multi-file export is stored
    under the plain [exports/<timestamp>_<filename>]: the very name the first
    segment was uploaded under.  The export still succeeds, and the object
    left under that name is the archive. *)
Theorem X19_archive_takes_the_first_segments_name
    app filename timestamp chunks o w w' name total count :
  stream_csv_to_minio app timestamp chunks filename o w = (w', Ok (name, total, count)) →
  1 < count →
  Py.contains ".csv" filename = false →
  name = "exports/" +:+ timestamp +:+ "_" +:+ filename
  ∧ (∃ text ct, PutObject (bucket_of (self w')) name (Raw text) ct ∈ calls (store w'))
  ∧ ∃ obj es,
      objects (store w') !! (bucket_of (self w'), name) = Some obj
      ∧ body obj = ZipArchive es.
Proof.
  intros H Hmany Hcsv.
  apply stream_success_explicit in H as (h & rows & Hr & Hm & Hl & -> & Hres).
  unfold export_result in Hres. injection Hres as -> _ ->.
  set (m := limit w o) in *.
  assert ((1 <? len (split_rows m [] rows)) = true) as E by lia.
  assert (zip_name filename timestamp = "exports/" +:+ timestamp +:+ "_" +:+ filename)
    as Hz by (unfold zip_name; by rewrite (replace_absent _ _ _ Hcsv)).
  unfold after_export. rewrite E, Hz.
  split; [done|]. split.
  - destruct (split_rows m [] rows) as [|seg segs] eqn:Es.
    { unfold len in Hmany. simpl in Hmany. lia. }
    exists (csv_text (h :: seg)),
           (if Py.endswith ".csv" (segment_name filename timestamp 0)
            then "text/csv" else "application/zip").
    unfold after_zip, put_srv. cbn [self store calls with_objects record].
    destruct (taken_all_frame (bucket_of (self (after_upload app filename timestamp m h rows w)))
                (names_of filename timestamp m rows)
                (store (after_upload app filename timestamp m h rows w)))
      as (_ & _ & _ & ->).
    rewrite after_upload_calls. unfold files_of. rewrite Es.
    apply elem_of_app. left. apply elem_of_app. left. apply elem_of_app. right.
    unfold segment_files, segment_names. simpl. left.
  - eexists (new_object _ _ _), _. unfold after_zip. rewrite Hz. simpl.
    split; [by rewrite lookup_insert_eq | done].
Qed.

Lemma X19_archive_takes_the_first_segments_name_witness :
  ∃ w' obj es,
    stream_csv_to_minio demo_app "20240101_120000" demo_chunks "report.txt" (Some 2)
      fresh_world
    = (w', Ok ("exports/20240101_120000_report.txt", 3, 2))
    ∧ objects (store w') !! (bucket_of (self w'), "exports/20240101_120000_report.txt")
      = Some obj
    ∧ body obj = ZipArchive es.
Proof.
  destruct (stream_csv_to_minio demo_app "20240101_120000" demo_chunks "report.txt" (Some 2)
              fresh_world) as [w' r] eqn:E.
  assert (r = Ok ("exports/20240101_120000_report.txt", 3, 2)) as ->
    by (vm_compute in E; by injection E as _ <-).
  destruct (X19_archive_takes_the_first_segments_name demo_app "report.txt"
              "20240101_120000" demo_chunks (Some 2) fresh_world w'
              "exports/20240101_120000_report.txt" 3 2 E)
    as (_ & _ & obj & es & Ho & Hb); [reflexivity | reflexivity |].
  exists w', obj, es. split; [reflexivity|]. split; [exact Ho | exact Hb].
Defined.

(** X20. The object of a single-file export is CSV text, but it is labelled
    [text/csv] only when the base filename ends in [.csv]; for every other
    base filename the very same text is stored with content type
    [application/zip]. *)
Theorem X20_single_file_content_type app filename timestamp chunks o w w' name total :
  stream_csv_to_minio app timestamp chunks filename o w = (w', Ok (name, total, 1)) →
  ∃ obj text,
    objects (store w') !! (bucket_of (self w'), name) = Some obj
    ∧ body obj = Raw text
    ∧ read_lines (Raw text) = csv_lines chunks
    ∧ content_type obj
      = if Py.endswith ".csv" filename then "text/csv" else "application/zip".
Proof.
  intros H.
  apply stream_success_explicit in H as (h & rows & Hr & Hm & Hl & -> & Hres).
  unfold export_result in Hres. injection Hres as -> _ Hone.
  set (m := limit w o) in *.
  pose proof (split_rows_concat m rows []) as Hcat.
  destruct (split_rows m [] rows) as [|seg [|seg2 segs]] eqn:Es;
    [discriminate Hone | | unfold len in Hone; simpl in Hone; lia].
  simpl in Hcat. rewrite app_nil_r in Hcat. subst seg.
  unfold after_export. rewrite Es.
  change (1 <? len [rows]) with false. cbv iota.
  exists (new_object (segment_name filename timestamp 0) (Raw (csv_text (h :: rows)))
            (store (booted app w))), (csv_text (h :: rows)).
  split; [|split; [done|split]].
  - unfold after_upload, files_of. rewrite Es. simpl. by rewrite lookup_insert_eq.
  - rewrite Hl. apply read_lines_csv_text. rewrite <- Hl. apply csv_lines_no_LF.
  - unfold new_object. cbn [content_type]. rewrite segment_name_first.
    change ("exports/" +:+ timestamp +:+ "_" +:+ filename)
      with ("exports/" +:+ (timestamp +:+ "_" +:+ filename)).
    rewrite <- PyFacts.app_assoc. by rewrite endswith_after_underscore.
Qed.

Lemma X20_single_file_content_type_witness :
  ∃ w' obj,
    stream_csv_to_minio demo_app "20240101_120000" demo_chunks "report.txt" None fresh_world
    = (w', Ok ("exports/20240101_120000_report.txt", 3, 1))
    ∧ objects (store w') !! (bucket_of (self w'), "exports/20240101_120000_report.txt")
      = Some obj
    ∧ read_lines (body obj) = ["id,name"; "1,a"; "2,b"; "3,c"]
    ∧ content_type obj = "application/zip".
Proof.
  destruct (stream_csv_to_minio demo_app "20240101_120000" demo_chunks "report.txt" None
              fresh_world) as [w' r] eqn:E.
  assert (r = Ok ("exports/20240101_120000_report.txt", 3, 1)) as ->
    by (vm_compute in E; by injection E as _ <-).
  destruct (X20_single_file_content_type demo_app "report.txt" "20240101_120000"
              demo_chunks None fresh_world w' "exports/20240101_120000_report.txt" 3 E)
    as (obj & text & Ho & Hb & Hlines & Hct).
  exists w', obj. split; [reflexivity|]. split; [exact Ho|].
  split; [by rewrite Hb, Hlines | exact Hct].
Defined.

(** * The export commands

    [MinIOSqlLabExportCommand] and [MinIOChartExportCommand] differ only in
    the parent class that produces the CSV generator, which is not part of
    these sources: the generator is a parameter here, and one definition of
    [run] stands for both.  The manager of the monad is the command's
    [_minio_manager]. *)

Module MinIOExportCommand.

(** The dictionary [run] returns. *)
Record Info := {
  object_name : string;
  download_url : string;
  total_rows : Z;
  file_count : Z;
  filename : string;
}.

(** [__init__]: [self._minio_manager = MinIOStorageManager()].  The world a
    new command starts from when the store is [s]. *)
Definition new_command (s : Server) : World :=
  {| self := __init__; store := s |}.

Section Command.

Variable app : App.
Variable presigned_get_object : Minio → string → string → Z → string.

Definition run (timestamp _filename : string) (csv_generator : list string) : M Info :=
  r <- stream_csv_to_minio app timestamp csv_generator _filename None ;;
  let '(object_name, total_rows, file_count) := r in
  download_url <- get_presigned_download_url app presigned_get_object object_name 3600 ;;
  let final_filename := Py.basename object_name in
  ret {| object_name := object_name;
         download_url := download_url;
         total_rows := total_rows;
         file_count := file_count;
         filename := final_filename |}.

End Command.

End MinIOExportCommand.

(** A stand-in for the link the client library computes. *)
Definition demo_presign (c : Minio) (b name : string) (expiry_seconds : Z) : string :=
  "http://" +:+ m_endpoint c +:+ "/" +:+ b +:+ "/" +:+ name
  +:+ "?X-Amz-Expires=" +:+ pretty expiry_seconds.

Lemma presigned_cached app presigned_get_object object_name expiry_seconds w c :
  _client (self w) = Some c →
  (-999999999 <=? expiry_seconds / 86400) && (expiry_seconds / 86400 <=? 999999999) = true →
  get_presigned_download_url app presigned_get_object object_name expiry_seconds w
  = (w, Ok (presigned_get_object c (bucket_of (self w)) object_name expiry_seconds)).
Proof.
  intros Hc He. unfold get_presigned_download_url.
  rewrite (bind_ok _ _ _ _ _ (initialize_cached app w c Hc)).
  rewrite bind_get_bucket_name.
  by rewrite (bind_ok _ _ _ _ _ (timedelta_fits expiry_seconds w He)).
Qed.

(** The manager after a successful export. *)
Lemma stream_leaves_client app filename timestamp chunks o w w' r :
  stream_csv_to_minio app timestamp chunks filename o w = (w', Ok r) →
  self w' = self (booted app w) ∧ ready app w = true.
Proof.
  intros H. apply stream_success_explicit in H as (h & rows & Hr & _ & _ & -> & _).
  split; [|done]. unfold after_export. by destruct (1 <? _).
Qed.

(** X16. Run on a newly built command, [run] exports with the limit
    1,000,000 whatever [max_rows_per_file] the application configures,
    because the command's manager is fresh and no limit is passed.  If the
    export fails, [run] fails with the same error and asks for no link.  If
    it succeeds, the client is not bootstrapped again (no bucket check, no
    bucket creation) and [run] returns the export's object name, row count
    and file count, a link for that object in the configured bucket with a
    lifetime of 3600 seconds, and as [filename] the last path component of
    the object name. *)
Theorem X16_command_run app presigned_get_object timestamp filename chunks s :
  MinIOExportCommand.run app presigned_get_object timestamp filename chunks
    (MinIOExportCommand.new_command s)
  = match stream_csv_to_minio app timestamp chunks filename (Some 1000000)
            (MinIOExportCommand.new_command s) with
    | (w', Ok (name, total, count)) =>
        (w', Ok {| MinIOExportCommand.object_name := name;
                   MinIOExportCommand.download_url :=
                     presigned_get_object (new_client app) (bucket_of (self w')) name 3600;
                   MinIOExportCommand.total_rows := total;
                   MinIOExportCommand.file_count := count;
                   MinIOExportCommand.filename := Py.basename name |})
    | (w', Raise e) => (w', Raise e)
    end.
Proof.
  unfold MinIOExportCommand.run. unfold bind at 1.
  change (stream_csv_to_minio app timestamp chunks filename None
            (MinIOExportCommand.new_command s))
    with (stream_csv_to_minio app timestamp chunks filename (Some 1000000)
            (MinIOExportCommand.new_command s)).
  destruct (stream_csv_to_minio app timestamp chunks filename (Some 1000000)
              (MinIOExportCommand.new_command s)) as [w' [[[name total] count]|e]] eqn:E;
    [|reflexivity].
  apply stream_leaves_client in E as [Hself Hr].
  assert (_client (self w') = Some (new_client app)) as Hc.
  { rewrite Hself. reflexivity. }
  by rewrite (bind_ok _ _ _ _ _
                (presigned_cached app presigned_get_object name 3600 w' _ Hc eq_refl)).
Qed.

Lemma basename_no_slash (s : string) : Py.count "/" (Py.basename s) = O.
Proof.
  unfold Py.basename. pose proof (PyFacts.split_no_sep "/" s) as H.
  pose proof (PyFacts.split_nonempty "/" s) as Hne.
  induction (Py.split "/" s) as [|x [|y l] IH]; [done| |].
  - by apply Forall_cons in H as [H _].
  - apply Forall_cons in H as [_ H]. by apply IH.
Qed.

Lemma split_whole c (s : string) : Py.count c s = O → Py.split c s = [s].
Proof.
  induction s as [|a s IH]; simpl; [done|].
  destruct (Ascii.eqb a c); [done|]. intros H. by rewrite IH.
Qed.

Lemma basename_exports (x : string) :
  Py.count "/" x = O → Py.basename ("exports/" +:+ x) = x.
Proof.
  intros H. unfold Py.basename.
  change ("exports/" +:+ x) with ("exports" +:+ String "/" x).
  rewrite PyFacts.split_line by reflexivity. by rewrite split_whole.
Qed.

(** Replacing [old] by [new] leaves the number of [c]s alone when neither
    has any. *)
Lemma count_replace_free c old new (s : string) :
  old ≠ "" → Py.count c old = O → Py.count c new = O →
  Py.count c (Py.replace old new s) = Py.count c s.
Proof.
  intros Hne Hc Hn.
  remember (String.length s) as n eqn:Hlen.
  revert s Hlen. induction (lt_wf n) as [n _ IH]. intros s ->.
  destruct s as [|a s]; [done|].
  destruct (Py.startswith old (String a s)) eqn:E.
  - destruct (PyFacts.startswith_inv _ _ E) as [t Ht].
    destruct old as [|b old]; [done|].
    rewrite Ht, PyFacts.replace_hit.
    rewrite !PyFacts.count_app, Hc, Hn.
    apply (IH (String.length t)); [|done].
    rewrite Ht, PyFacts.length_app. simpl. lia.
  - rewrite PyFacts.replace_miss by done. simpl. f_equal.
    apply (IH (String.length s)); [simpl; lia | done].
Qed.

(** X17. The [filename] that [run] reports never contains a slash.  When
    neither the timestamp nor the base filename contains one, the object
    name is [exports/] followed by that filename, which is the timestamp, an
    underscore, and the base filename: unchanged for a single-file export,
    with every [.csv] replaced by [.zip] for a multi-file export. *)
Theorem X17_final_filename app presigned_get_object timestamp filename chunks w w' info :
  MinIOExportCommand.run app presigned_get_object timestamp filename chunks w
  = (w', Ok info) →
  Py.count "/" (MinIOExportCommand.filename info) = O
  ∧ (Py.count "/" timestamp = O → Py.count "/" filename = O →
     MinIOExportCommand.object_name info
     = "exports/" +:+ MinIOExportCommand.filename info
     ∧ MinIOExportCommand.filename info
       = timestamp +:+ "_" +:+
         (if 1 <? MinIOExportCommand.file_count info
          then Py.replace ".csv" ".zip" filename else filename)).
Proof.
  unfold MinIOExportCommand.run. unfold bind at 1.
  destruct (stream_csv_to_minio app timestamp chunks filename None w)
    as [w1 [[[name total] count]|e]] eqn:E; [|done].
  unfold bind.
  destruct (get_presigned_download_url _ _ _ _ w1) as [w2 [url|e]]; [|done].
  intros [= <- <-]. cbn [MinIOExportCommand.filename MinIOExportCommand.object_name
                          MinIOExportCommand.file_count].
  split; [apply basename_no_slash|]. intros Hts Hfn.
  apply stream_success_explicit in E as (h & rows & _ & _ & _ & _ & Hres).
  unfold export_result in Hres. injection Hres as -> _ ->.
  unfold zip_name. rewrite segment_name_first.
  destruct (1 <? len _).
  - rewrite basename_exports; [done|].
    rewrite !PyFacts.count_app, Hts. simpl. by rewrite count_replace_free.
  - rewrite basename_exports; [done|].
    rewrite !PyFacts.count_app, Hts. simpl. done.
Qed.

Lemma X17_final_filename_witness :
  ∃ w' info,
    MinIOExportCommand.run demo_app demo_presign "20240101_120000" "data.csv"
      (demo_chunks ++ demo_chunks) (booted demo_app fresh_world)
    = (w', Ok info)
    ∧ MinIOExportCommand.object_name info = "exports/20240101_120000_data.zip"
    ∧ MinIOExportCommand.filename info = "20240101_120000_data.zip"
    ∧ MinIOExportCommand.file_count info = 4.
Proof.
  destruct (MinIOExportCommand.run demo_app demo_presign "20240101_120000" "data.csv"
              (demo_chunks ++ demo_chunks) (booted demo_app fresh_world))
    as [w' [info|e]] eqn:E; [|vm_compute in E; discriminate E].
  destruct (X17_final_filename demo_app demo_presign "20240101_120000" "data.csv"
              (demo_chunks ++ demo_chunks) (booted demo_app fresh_world) w' info E)
    as [_ [Hobj Hfile]]; [reflexivity | reflexivity |].
  assert (MinIOExportCommand.file_count info = 4) as Hcount
    by (vm_compute in E; by injection E as _ <-).
  rewrite Hcount in Hfile. exists w', info.
  split; [reflexivity|]. split; [rewrite Hobj, Hfile; reflexivity|].
  split; [exact Hfile | exact Hcount].
Defined.
